(** * RunnerGame: a shallow embedding of [src/components/RunnerGame.tsx]

    The component keeps its simulation in a mutable record ([stateRef.current])
    that the animation callback [loop] updates once per frame, and its
    user-interface state in React state variables.  The embedding follows the
    source function by function:

    - JavaScript numbers are modelled as exact rationals ([Q]); binary64
      rounding is outside the model.  [NaN] only arises in the balance
      (through [parseInt]), which gets its own type [jsnum].
    - [Math.random()] is an oracle [nat -> Q] read through a cursor, one
      oracle per frame, threaded by the small monad [Frame].
    - Calls of React setters made inside [loop] are logged as [UiCall]s and
      applied to the React state by [frame] after the callback returns.
    - Canvas drawing, audio and image loading have no effect on the state and
      are left out, except that the jump sound request is reported. *)

From Stdlib Require Import ZArith QArith Qround Ascii String List Bool Sorted Lia Lqa.
Import ListNotations.
Open Scope Q_scope.

(** ** Comparisons on numbers, as booleans *)

Definition Qltb (a b : Q) : bool := negb (Qle_bool b a).
Definition Qgtb (a b : Q) : bool := Qltb b a.
Definition Qleb (a b : Q) : bool := Qle_bool a b.
Definition Qgeb (a b : Q) : bool := Qle_bool b a.

(** ** Game constants and tuning *)

Definition PLAYER_SIZE : Q := 60.
Definition PLAYER_VISUAL_SIZE : Q := 360.
Definition PLAYER_SCREEN_X : Q := 450.
Definition PLAYER_X : Q := PLAYER_SCREEN_X.
Definition INITIAL_GAME_SPEED : Q := 10.
Definition JUMP_FORCE : Q := -20.
Definition GRAVITY : Q := 1.2.
Definition MAX_ENEMY_DISTANCE : Q := 350.
Definition ENEMY_CATCH_DISTANCE : Q := 30.
Definition ENEMY_RECOVERY_RATE : Q := 1.
Definition ENEMY_CHASE_RATE : Q := 3.
Definition SLOW_DURATION : Q := 2000.
Definition PLAYER_GROUND_OFFSET : Q := 120.
Definition OBSTACLE_GROUND_OFFSET : Q := 50.
Definition MIN_WITHDRAWAL_POINTS : Z := 1000.

(** Constants that the source declares inside [loop]. *)
Definition spawnDistance : Q := 1200.
Definition obstacleH : Q := 45.
Definition obstacleW : Q := 60.
Definition hitboxPadding : Q := 10.

Inductive GameState := START | PLAYING | GAME_OVER.

Definition GameState_eqb (a b : GameState) : bool :=
  match a, b with
  | START, START | PLAYING, PLAYING | GAME_OVER, GAME_OVER => true
  | _, _ => false
  end.

(** ** The records of the simulation *)

Module Particle.
Record t := mk
    { x : Q; y : Q; vx : Q; vy : Q; life : Q; color : string }.
End Particle.

Module Obstacle.
Record t := mk
    { x : Q; y : Q; w : Q; h : Q; collided : bool }.

Definition set_collided (b : bool) (o : t) : t :=
    mk (x o) (y o) (w o) (h o) b.
End Obstacle.

Module Player.
Record t := mk
    { worldX : Q; y : Q; vy : Q; w : Q; h : Q;
      grounded : bool; lastCollisionTime : Q }.

Definition set_worldX (v : Q) (p : t) : t :=
    mk v (y p) (vy p) (w p) (h p) (grounded p) (lastCollisionTime p).
Definition set_y (v : Q) (p : t) : t :=
    mk (worldX p) v (vy p) (w p) (h p) (grounded p) (lastCollisionTime p).
Definition set_vy (v : Q) (p : t) : t :=
    mk (worldX p) (y p) v (w p) (h p) (grounded p) (lastCollisionTime p).
Definition set_grounded (b : bool) (p : t) : t :=
    mk (worldX p) (y p) (vy p) (w p) (h p) b (lastCollisionTime p).
End Player.

Module Enemy.
Record t := mk { distance : Q }.
End Enemy.

(** [stateRef.current] *)
Record State := mkState
  { player : Player.t;
    enemy : Enemy.t;
    obstacles : list Obstacle.t;
    particles : list Particle.t;
    gameSpeed : Q;
    score : Q;
    renderedScore : Z;
    frameCount : Z;
    isRunning : bool }.

Definition set_player (p : Player.t) (s : State) : State :=
  mkState p (enemy s) (obstacles s) (particles s) (gameSpeed s) (score s)
    (renderedScore s) (frameCount s) (isRunning s).
Definition set_enemy (e : Enemy.t) (s : State) : State :=
  mkState (player s) e (obstacles s) (particles s) (gameSpeed s) (score s)
    (renderedScore s) (frameCount s) (isRunning s).
Definition set_obstacles (l : list Obstacle.t) (s : State) : State :=
  mkState (player s) (enemy s) l (particles s) (gameSpeed s) (score s)
    (renderedScore s) (frameCount s) (isRunning s).
Definition set_particles (l : list Particle.t) (s : State) : State :=
  mkState (player s) (enemy s) (obstacles s) l (gameSpeed s) (score s)
    (renderedScore s) (frameCount s) (isRunning s).
Definition set_gameSpeed (v : Q) (s : State) : State :=
  mkState (player s) (enemy s) (obstacles s) (particles s) v (score s)
    (renderedScore s) (frameCount s) (isRunning s).
Definition set_score (v : Q) (s : State) : State :=
  mkState (player s) (enemy s) (obstacles s) (particles s) (gameSpeed s) v
    (renderedScore s) (frameCount s) (isRunning s).
Definition set_renderedScore (v : Z) (s : State) : State :=
  mkState (player s) (enemy s) (obstacles s) (particles s) (gameSpeed s)
    (score s) v (frameCount s) (isRunning s).
Definition set_frameCount (v : Z) (s : State) : State :=
  mkState (player s) (enemy s) (obstacles s) (particles s) (gameSpeed s)
    (score s) (renderedScore s) v (isRunning s).
Definition set_isRunning (b : bool) (s : State) : State :=
  mkState (player s) (enemy s) (obstacles s) (particles s) (gameSpeed s)
    (score s) (renderedScore s) (frameCount s) b.

(** The value [useRef] is initialised with, before any reset. *)
Definition initialState : State :=
  mkState (Player.mk 0 0 0 PLAYER_SIZE PLAYER_SIZE true 0)
    (Enemy.mk MAX_ENEMY_DISTANCE) [] [] INITIAL_GAME_SPEED 0 0%Z 0%Z false.

(** The record [resetGame] stores; [canvasH] is [canvasSizeRef.current.h]. *)
Definition resetState (canvasH : Z) : State :=
  let groundY := inject_Z canvasH - PLAYER_GROUND_OFFSET in
  mkState (Player.mk 0 (groundY - PLAYER_SIZE) 0 PLAYER_SIZE PLAYER_SIZE true 0)
    (Enemy.mk 300) [] [] INITIAL_GAME_SPEED 0 0%Z 0%Z true.

(** ** The frame monad: random draws and calls of React setters *)

Inductive UiCall :=
| SetGameState (g : GameState)
| SetHighScore          (* the updater [prev => max(prev, floor(state.score))] *)
| SetScore (n : Z).

Definition Oracle := nat -> Q.

Definition Frame (A : Type) : Type :=
  Oracle -> nat -> A * nat * list UiCall.

Definition ret {A} (a : A) : Frame A := fun _ k => (a, k, []).

Definition bind {A B} (m : Frame A) (f : A -> Frame B) : Frame B :=
  fun rnd k =>
    let '(a, k1, c1) := m rnd k in
    let '(b, k2, c2) := f a rnd k1 in
    (b, k2, c1 ++ c2).

(** [Math.random()] *)
Definition random : Frame Q := fun rnd k => (rnd k, S k, []).

Definition call (c : UiCall) : Frame unit := fun _ k => (tt, k, [c]).

Declare Scope frame_scope.
Delimit Scope frame_scope with frame.
Notation "x <- m ;; f" := (bind m (fun x => f))
  (at level 61, m at next level, right associativity) : frame_scope.
Notation "m ;;; f" := (bind m (fun _ => f))
  (at level 61, right associativity) : frame_scope.
Open Scope frame_scope.

Definition result {A} (r : A * nat * list UiCall) : A := fst (fst r).
Definition cursor {A} (r : A * nat * list UiCall) : nat := snd (fst r).
Definition calls {A} (r : A * nat * list UiCall) : list UiCall := snd r.

(** ** createExplosion *)

Fixpoint explosionLoop (n : nat) (x y : Q) (color : string) (state : State)
  : Frame State :=
  match n with
  | O => ret state
  | S n' =>
      r1 <- random ;;
      r2 <- random ;;
      let p := Particle.mk x y ((r1 - 0.5) * 10) ((r2 - 0.5) * 10) 1.0 color in
      explosionLoop n' x y color (set_particles (particles state ++ [p]) state)
  end.

Definition createExplosion (x y : Q) (color : string) (state : State)
  : Frame State :=
  explosionLoop 10 x y color state.

(** ** The phases of [loop], in source order *)

(** 1. Difficulty scaling: [if (frameCount % 600 === 0) gameSpeed += 0.5]. *)
Definition difficultyScaling (state : State) : State :=
  if (Z.rem (frameCount state) 600 =? 0)%Z
  then set_gameSpeed (gameSpeed state + 0.5) state
  else state.

(** Move the player: [player.worldX += gameSpeed]. *)
Definition movePlayer (state : State) : State :=
  set_player
    (Player.set_worldX (Player.worldX (player state) + gameSpeed state)
       (player state))
    state.

(** The camera position is derived from the state, never stored. *)
Definition cameraX (state : State) : Q :=
  Player.worldX (player state) - PLAYER_X.

(** 2. Player physics; [canvasHeight] is [canvas.height]. *)
Definition playerPhysics (canvasHeight : Z) (state : State) : State :=
  let p := player state in
  let p := Player.set_vy (Player.vy p + GRAVITY) p in
  let p := Player.set_y (Player.y p + Player.vy p) p in
  let currentGroundY := inject_Z canvasHeight - PLAYER_GROUND_OFFSET in
  let p :=
    if Qgeb (Player.y p + Player.h p) currentGroundY
    then Player.set_grounded true
           (Player.set_vy 0 (Player.set_y (currentGroundY - Player.h p) p))
    else Player.set_grounded false p in
  set_player p state.

(** The enemy drifts back while it is closer than its maximal distance. *)
Definition enemyDrift (state : State) : State :=
  if Qltb (Enemy.distance (enemy state)) MAX_ENEMY_DISTANCE
  then set_enemy
         (Enemy.mk (Enemy.distance (enemy state) + ENEMY_RECOVERY_RATE * 0.5))
         state
  else state.

(** 3b. Obstacle spawning.  The gap roll is drawn only when there is a last
    obstacle ([||] short-circuits), the spawn roll only when the gap is met. *)
Definition gapMet (state : State) : Frame bool :=
  match last (map Some (obstacles state)) None with
  | None => ret true
  | Some lastObstacle =>
      r <- random ;;
      ret (Qgtb (Player.worldX (player state) + spawnDistance
                 - Obstacle.x lastObstacle)
             (600 + r * 500))
  end.

Definition newObstacle (canvasHeight : Z) (state : State) : Obstacle.t :=
  Obstacle.mk (Player.worldX (player state) + spawnDistance)
    ((inject_Z canvasHeight - PLAYER_GROUND_OFFSET) - obstacleH)
    obstacleW obstacleH false.

Definition spawnObstacle (canvasHeight : Z) (state : State) : Frame State :=
  gap <- gapMet state ;;
  if gap : bool then
    r <- random ;;
    if Qltb r 0.02
    then ret (set_obstacles
                (obstacles state ++ [newObstacle canvasHeight state]) state)
    else ret state
  else ret state.

(** [if (obstacles.length > 20) obstacles.shift()] *)
Definition removeOldObstacle (state : State) : State :=
  if (20 <? List.length (obstacles state))%nat
  then set_obstacles (tl (obstacles state)) state
  else state.

(** The overlap test of the collision loop. *)
Definition hits (p : Player.t) (obs : Obstacle.t) : bool :=
  Qltb (Player.worldX p) (Obstacle.x obs + Obstacle.w obs - hitboxPadding)
  && Qgtb (Player.worldX p + Player.w p) (Obstacle.x obs + hitboxPadding)
  && Qltb (Player.y p) (Obstacle.y obs + Obstacle.h obs - hitboxPadding)
  && Qgtb (Player.y p + Player.h p) (Obstacle.y obs + hitboxPadding).

(** What both terminal branches do after their own assignments. *)
Definition gameOver (state : State) : Frame State :=
  let state := set_isRunning false state in
  call (SetGameState GAME_OVER) ;;;
  call SetHighScore ;;;
  createExplosion (Player.worldX (player state))
    (Player.y (player state) + PLAYER_SIZE / 2) "red" state.

(** The body of [for (const obs of state.obstacles)]: the loop mutates the
    elements in place and never changes the array itself, so it is a
    traversal that returns the updated elements along with the state. *)
Fixpoint collisionLoop (todo : list Obstacle.t) (state : State)
  : Frame (list Obstacle.t * State) :=
  match todo with
  | [] => ret ([], state)
  | obs :: rest =>
      if Obstacle.collided obs then
        r <- collisionLoop rest state ;;
        ret (obs :: fst r, snd r)
      else if hits (player state) obs then
        state' <- gameOver (set_enemy (Enemy.mk 0) state) ;;
        r <- collisionLoop rest state' ;;
        ret (Obstacle.set_collided true obs :: fst r, snd r)
      else
        r <- collisionLoop rest state ;;
        ret (obs :: fst r, snd r)
  end.

Definition collisionDetection (state : State) : Frame State :=
  r <- collisionLoop (obstacles state) state ;;
  ret (set_obstacles (fst r) (snd r)).

(** 4. Enemy catch check. *)
Definition enemyCatchCheck (state : State) : Frame State :=
  if Qleb (Enemy.distance (enemy state)) ENEMY_CATCH_DISTANCE
  then gameOver state
  else ret state.

(** 8. Particles: the backward loop with [splice] keeps, in order, the
    particles whose life is still positive after the update. *)
Definition moveParticle (p : Particle.t) : Particle.t :=
  Particle.mk (Particle.x p + Particle.vx p) (Particle.y p + Particle.vy p)
    (Particle.vx p) (Particle.vy p) (Particle.life p - 0.05) (Particle.color p).

Definition updateParticles (state : State) : State :=
  set_particles
    (filter (fun p => negb (Qleb (Particle.life p) 0))
       (map moveParticle (particles state)))
    state.

(** Score. *)
Definition accrueScore (state : State) : Frame State :=
  let state := set_score (score state + 0.1) state in
  let currentIntScore := Qfloor (score state) in
  if (renderedScore state <? currentIntScore)%Z
  then call (SetScore currentIntScore) ;;;
       ret (set_renderedScore currentIntScore state)
  else ret state.

Definition countFrame (state : State) : State :=
  set_frameCount (frameCount state + 1)%Z state.

(** ** loop *)

Definition loopBody (canvasHeight : Z) (state : State) : Frame State :=
  let state := difficultyScaling state in
  let state := movePlayer state in
  let state := playerPhysics canvasHeight state in
  let state := enemyDrift state in
  state <- spawnObstacle canvasHeight state ;;
  let state := removeOldObstacle state in
  state <- collisionDetection state ;;
  state <- enemyCatchCheck state ;;
  let state := updateParticles state in
  state <- accrueScore state ;;
  ret (countFrame state).

Definition loop (canvasHeight : Z) (state : State) : Frame State :=
  if negb (isRunning state) then ret state
  else loopBody canvasHeight state.

(** ** Input handling *)

Inductive KeyCode := Space | ArrowUp | OtherKey (code : string).

Definition isJumpKey (c : KeyCode) : bool :=
  match c with Space | ArrowUp => true | OtherKey _ => false end.

(** [handleKeyDown]; the boolean tells whether the jump sound is requested,
    [soundLoaded] is [jumpSoundRef.current] being set. *)
Definition handleKeyDown (c : KeyCode) (soundLoaded : bool) (state : State)
  : State * bool :=
  if isJumpKey c then
    if Player.grounded (player state) && isRunning state
    then (set_player
            (Player.set_grounded false
               (Player.set_vy JUMP_FORCE (player state)))
            state,
          soundLoaded)
    else (state, false)
  else (state, false).

(** ** The persisted balance *)

(** The balance is a JavaScript number that is an integer or, after a failed
    parse, [NaN].  Negative zero is not distinguished from zero, and integers
    are exact (no rounding above 2^53). *)
Inductive jsnum := NaN | Num (z : Z).

(** [a >= b] on numbers: false as soon as [NaN] is involved. *)
Definition jsnum_geb (a : jsnum) (b : Z) : bool :=
  match a with NaN => false | Num z => (b <=? z)%Z end.

(** [a + b] *)
Definition jsnum_add (a : jsnum) (b : Z) : jsnum :=
  match a with NaN => NaN | Num z => Num (z + b) end.

(** A JavaScript string: its UTF-16 code units. *)
Definition jsstring := list N.

Definition jsstring_of (s : string) : jsstring :=
  map (fun a => N_of_ascii a) (list_ascii_of_string s).

(** The built-in [parseInt(string, 10)], after ECMA-262: skip leading white
    space and line terminators, read an optional sign, take the longest
    prefix of decimal digits; no digit gives [NaN].  The value here is the
    integer the digits write.  JavaScript returns the binary64 number next
    to it, which is that integer itself as long as the digits write at most
    2^53; statements about the value carry this bound. *)
Definition isWhiteSpace (c : N) : bool :=
  ((c =? 9) || (c =? 10) || (c =? 11) || (c =? 12) || (c =? 13) || (c =? 32)
   || (c =? 160) || (c =? 5760) || ((8192 <=? c) && (c <=? 8202))
   || (c =? 8232) || (c =? 8233) || (c =? 8239) || (c =? 8287)
   || (c =? 12288) || (c =? 65279))%N.

Definition isDigit (c : N) : bool := ((48 <=? c) && (c <=? 57))%N.

Fixpoint trimStart (s : jsstring) : jsstring :=
  match s with
  | c :: r => if isWhiteSpace c then trimStart r else s
  | [] => []
  end.

Fixpoint digitPrefix (s : jsstring) : jsstring :=
  match s with
  | c :: r => if isDigit c then c :: digitPrefix r else []
  | [] => []
  end.

Definition digitsValue (ds : jsstring) : Z :=
  fold_left (fun acc c => (acc * 10 + (Z.of_N c - 48))%Z) ds 0%Z.

Definition parseInt10 (inputString : jsstring) : jsnum :=
  let trimmed := trimStart inputString in
  let '(sign, rest) :=
    match trimmed with
    | 45%N :: r => ((-1)%Z, r)
    | 43%N :: r => (1%Z, r)
    | _ => (1%Z, trimmed)
    end in
  match digitPrefix rest with
  | [] => NaN
  | digits => Num (sign * digitsValue digits)
  end.

(** The mount effect: [if (savedBalance) setBalance(parseInt(savedBalance, 10))];
    [null] and the empty string are falsy. *)
Definition loadBalance (savedBalance : option jsstring) (balance : jsnum)
  : jsnum :=
  match savedBalance with
  | None | Some [] => balance
  | Some s => parseInt10 s
  end.

(** ** The component: React state and refs *)

Module RunnerGame.
Record t := mk
    { gameState : GameState;
      score : Z;
      highScore : Z;
      balance : jsnum;
      showSettings : bool;
      showWithdraw : bool;
      withdrawSuccess : bool;
      pointsAddedRef : bool;
      canvasSizeRef : Z * Z;        (* { w, h }; the canvas has the same size *)
      stateRef : State }.

Definition setGameState (g : GameState) (c : t) : t :=
    mk g (score c) (highScore c) (balance c) (showSettings c) (showWithdraw c)
      (withdrawSuccess c) (pointsAddedRef c) (canvasSizeRef c) (stateRef c).
Definition setScore (n : Z) (c : t) : t :=
    mk (gameState c) n (highScore c) (balance c) (showSettings c)
      (showWithdraw c) (withdrawSuccess c) (pointsAddedRef c)
      (canvasSizeRef c) (stateRef c).
Definition setHighScore (n : Z) (c : t) : t :=
    mk (gameState c) (score c) n (balance c) (showSettings c)
      (showWithdraw c) (withdrawSuccess c) (pointsAddedRef c)
      (canvasSizeRef c) (stateRef c).
Definition setBalance (b : jsnum) (c : t) : t :=
    mk (gameState c) (score c) (highScore c) b (showSettings c)
      (showWithdraw c) (withdrawSuccess c) (pointsAddedRef c)
      (canvasSizeRef c) (stateRef c).
Definition setShowSettings (b : bool) (c : t) : t :=
    mk (gameState c) (score c) (highScore c) (balance c) b
      (showWithdraw c) (withdrawSuccess c) (pointsAddedRef c)
      (canvasSizeRef c) (stateRef c).
Definition setShowWithdraw (b : bool) (c : t) : t :=
    mk (gameState c) (score c) (highScore c) (balance c) (showSettings c)
      b (withdrawSuccess c) (pointsAddedRef c) (canvasSizeRef c) (stateRef c).
Definition setWithdrawSuccess (b : bool) (c : t) : t :=
    mk (gameState c) (score c) (highScore c) (balance c) (showSettings c)
      (showWithdraw c) b (pointsAddedRef c) (canvasSizeRef c) (stateRef c).
Definition set_pointsAddedRef (b : bool) (c : t) : t :=
    mk (gameState c) (score c) (highScore c) (balance c) (showSettings c)
      (showWithdraw c) (withdrawSuccess c) b (canvasSizeRef c) (stateRef c).
Definition set_canvasSizeRef (wh : Z * Z) (c : t) : t :=
    mk (gameState c) (score c) (highScore c) (balance c) (showSettings c)
      (showWithdraw c) (withdrawSuccess c) (pointsAddedRef c) wh (stateRef c).
Definition set_stateRef (s : State) (c : t) : t :=
    mk (gameState c) (score c) (highScore c) (balance c) (showSettings c)
      (showWithdraw c) (withdrawSuccess c) (pointsAddedRef c)
      (canvasSizeRef c) s.
End RunnerGame.

(** The state of the first render. *)
Definition firstRender : RunnerGame.t :=
  RunnerGame.mk START 0 0 (Num 0) false false false false (0, 0)%Z initialState.

(** [resetGame] *)
Definition resetGame (c : RunnerGame.t) : RunnerGame.t :=
  let c := RunnerGame.set_stateRef
             (resetState (snd (RunnerGame.canvasSizeRef c))) c in
  let c := RunnerGame.setScore 0 c in
  let c := RunnerGame.set_pointsAddedRef false c in
  RunnerGame.setGameState PLAYING c.

(** The [resize] listener that a render showing [gameState] registers, run
    with the window's [innerWidth] and [innerHeight]. *)
Definition resizeListener (gameState : GameState) (innerWidth innerHeight : Z)
  (c : RunnerGame.t) : RunnerGame.t :=
  let c := RunnerGame.set_canvasSizeRef (innerWidth, innerHeight) c in
  let state := RunnerGame.stateRef c in
  if negb (isRunning state) && GameState_eqb gameState START
  then RunnerGame.set_stateRef
         (set_player
            (Player.set_y
               (inject_Z innerHeight - PLAYER_GROUND_OFFSET - PLAYER_SIZE)
               (player state))
            state)
         c
  else c.

(** A resize of the window.  The effect adds a listener at every change of
    [gameState] and its cleanup removes none, so the listener of the first
    render, which saw [gameState] START, runs at every resize, first of all;
    the listeners of later renders saw another [gameState] and only assign
    the same canvas size once more ([resizeListener_later]). *)
Definition resize (innerWidth innerHeight : Z) (c : RunnerGame.t)
  : RunnerGame.t :=
  resizeListener START innerWidth innerHeight c.

(** Mounting: the balance is loaded and the canvas sized. *)
Definition mount (savedBalance : option jsstring) (innerWidth innerHeight : Z)
  : RunnerGame.t :=
  let c := firstRender in
  let c := RunnerGame.setBalance
             (loadBalance savedBalance (RunnerGame.balance c)) c in
  resize innerWidth innerHeight c.

(** A setter call of [loop], applied once the callback has returned;
    [state] is the record the [SetHighScore] updater then reads. *)
Definition applyCall (state : State) (c : RunnerGame.t) (u : UiCall)
  : RunnerGame.t :=
  match u with
  | SetGameState g => RunnerGame.setGameState g c
  | SetHighScore =>
      RunnerGame.setHighScore
        (Z.max (RunnerGame.highScore c) (Qfloor (score state))) c
  | SetScore n => RunnerGame.setScore n c
  end.

(** One animation frame: [loop] on [stateRef.current], then the setters. *)
Definition frame (rnd : Oracle) (c : RunnerGame.t) : RunnerGame.t :=
  let r := loop (snd (RunnerGame.canvasSizeRef c)) (RunnerGame.stateRef c)
             rnd 0%nat in
  fold_left (applyCall (result r)) (calls r)
    (RunnerGame.set_stateRef (result r) c).

(** A key press. *)
Definition keyDown (k : KeyCode) (soundLoaded : bool) (c : RunnerGame.t)
  : RunnerGame.t :=
  RunnerGame.set_stateRef
    (fst (handleKeyDown k soundLoaded (RunnerGame.stateRef c))) c.

(** [onAnimationStart] of the game-over overlay. *)
Definition onAnimationStart (c : RunnerGame.t) : RunnerGame.t :=
  if negb (RunnerGame.pointsAddedRef c) then
    let earnedPoints := RunnerGame.score c in   (* Math.floor of an integer *)
    let c := if (0 <? earnedPoints)%Z
             then RunnerGame.setBalance
                    (jsnum_add (RunnerGame.balance c) earnedPoints) c
             else c in
    RunnerGame.set_pointsAddedRef true c
  else c.

(** [onClick] of the REQUEST WITHDRAWAL button. *)
Definition requestWithdrawal (c : RunnerGame.t) : RunnerGame.t :=
  if jsnum_geb (RunnerGame.balance c) MIN_WITHDRAWAL_POINTS then
    let c := RunnerGame.setWithdrawSuccess true c in
    let c := RunnerGame.setShowWithdraw false c in
    RunnerGame.setBalance (Num 0) c
  else c.

(** ** Sessions: what can happen to a mounted component *)

Definition unitInterval (rnd : Oracle) : Prop :=
  forall k, 0 <= rnd k /\ rnd k < 1.

Inductive Event :=
| Reset
| AnimationFrame (rnd : Oracle)
| KeyDown (k : KeyCode) (soundLoaded : bool)
| Resize (innerWidth innerHeight : Z)
| GameOverShown
| OpenWithdraw
| CloseWithdraw
| RequestWithdrawal
| CloseWithdrawSuccess
| OpenSettings
| CloseSettings.

Definition handle (e : Event) (c : RunnerGame.t) : RunnerGame.t :=
  match e with
  | Reset => resetGame c
  | AnimationFrame rnd => frame rnd c
  | KeyDown k snd => keyDown k snd c
  | Resize iw ih => resize iw ih c
  | GameOverShown => onAnimationStart c
  | OpenWithdraw => RunnerGame.setShowWithdraw true c
  | CloseWithdraw => RunnerGame.setShowWithdraw false c
  | RequestWithdrawal => requestWithdrawal c
  | CloseWithdrawSuccess => RunnerGame.setWithdrawSuccess false c
  | OpenSettings => RunnerGame.setShowSettings true c
  | CloseSettings => RunnerGame.setShowSettings false c
  end.

(** An event can occur when its source exists: random numbers lie in [0,1),
    the game-over overlay animates only in [GAME_OVER], the withdrawal button
    only exists while its modal is shown. *)
Definition enabled (e : Event) (c : RunnerGame.t) : Prop :=
  match e with
  | AnimationFrame rnd => unitInterval rnd
  | GameOverShown => RunnerGame.gameState c = GAME_OVER
  | RequestWithdrawal => RunnerGame.showWithdraw c = true
  | _ => True
  end.

Inductive reachable : RunnerGame.t -> Prop :=
| reach_mount saved iw ih : reachable (mount saved iw ih)
| reach_step e c : reachable c -> enabled e c -> reachable (handle e c).

(** * Vocabulary of the properties *)

(** ** Particles of a burst *)

(** The particles a burst of [n] appends, drawing from position [k] on. *)
Fixpoint burst (n : nat) (x y : Q) (color : string) (rnd : Oracle) (k : nat)
  : list Particle.t :=
  match n with
  | O => []
  | S n' =>
      Particle.mk x y ((rnd k - 0.5) * 10) ((rnd (S k) - 0.5) * 10) 1.0 color
        :: burst n' x y color rnd (S (S k))
  end.

(** The burst of a game over: at the player's [worldX] and mid height. *)
Definition deathBurst (state : State) (rnd : Oracle) (k : nat)
  : list Particle.t :=
  burst 10 (Player.worldX (player state))
    (Player.y (player state) + PLAYER_SIZE / 2) "red" rnd k.

(** ** The collision loop *)

(** An obstacle the collision loop acts on: untriggered and overlapped. *)
Definition struck (p : Player.t) (obs : Obstacle.t) : bool :=
  negb (Obstacle.collided obs) && hits p obs.

Definition strikeCount (p : Player.t) (l : list Obstacle.t) : nat :=
  List.length (filter (struck p) l).

Definition markStruck (p : Player.t) (obs : Obstacle.t) : Obstacle.t :=
  if struck p obs then Obstacle.set_collided true obs else obs.

(** The state after [n] runs of the collision branch. *)
Fixpoint strikes (n : nat) (state : State) (rnd : Oracle) (k : nat) : State :=
  match n with
  | O => state
  | S n' =>
      strikes n' (result (gameOver (set_enemy (Enemy.mk 0) state) rnd k))
        rnd (k + 20)
  end.

(** The setter calls of [n] runs of a terminal branch. *)
Definition gameOverCalls (n : nat) : list UiCall :=
  concat (repeat [SetGameState GAME_OVER; SetHighScore] n).

(** The game state the setter calls of a frame leave behind. *)
Definition lastGameState (cs : list UiCall) (g : GameState) : GameState :=
  fold_left (fun g u => match u with SetGameState g' => g' | _ => g end) cs g.

(** ** The stages of a frame *)

(** The first four phases of [loop], which draw no random number. *)
Definition beforeSpawn (canvasHeight : Z) (state : State) : State :=
  enemyDrift (playerPhysics canvasHeight (movePlayer (difficultyScaling state))).

(** The runs of the four phases of [loop] that draw random numbers or call
    setters, each started where the previous one stopped. *)
Definition afterSpawn (canvasHeight : Z) (state : State) : Frame State :=
  spawnObstacle canvasHeight (beforeSpawn canvasHeight state).

Definition afterCollision (canvasHeight : Z) (state : State) : Frame State :=
  fun rnd k =>
    let r := afterSpawn canvasHeight state rnd k in
    collisionDetection (removeOldObstacle (result r)) rnd (cursor r).

Definition afterCatch (canvasHeight : Z) (state : State) : Frame State :=
  fun rnd k =>
    let r := afterCollision canvasHeight state rnd k in
    enemyCatchCheck (result r) rnd (cursor r).

Definition afterScore (canvasHeight : Z) (state : State) : Frame State :=
  fun rnd k =>
    let r := afterCatch canvasHeight state rnd k in
    accrueScore (updateParticles (result r)) rnd (cursor r).

(** The state in which the collision loop of a frame runs. *)
Definition atCollision (canvasHeight : Z) (state : State) : Frame State :=
  fun rnd k =>
    let r := afterSpawn canvasHeight state rnd k in
    (removeOldObstacle (result r), cursor r, calls r).

(** How many untriggered traps the collision loop of a frame that starts in
    [state] finds under the player. *)
Definition trapsHit (canvasHeight : Z) (state : State) (rnd : Oracle) (k : nat)
  : nat :=
  let r := atCollision canvasHeight state rnd k in
  strikeCount (player (result r)) (obstacles (result r)).

(** The world-X positions of the obstacles, in array order. *)
Definition obstacleXs (state : State) : list Q :=
  map Obstacle.x (obstacles state).

(** ** Concrete sessions *)

(** A constant oracle, and the session that presses START on a canvas of
    1200 by 800 and then runs [n] frames with it. *)
Definition always (q : Q) : Oracle := fun _ => q.

Definition session (q : Q) (n : nat) : RunnerGame.t :=
  Nat.iter n (handle (AnimationFrame (always q)))
    (handle Reset (mount None 1200 800)).

(** The component with the withdraw modal open on a balance of [z]. *)
Definition withBalance (z : Z) : RunnerGame.t :=
  RunnerGame.setBalance (Num z)
    (RunnerGame.setShowWithdraw true (mount None 1200 800)).

(** ** Boxes *)

(** Axis-aligned boxes, for the collision test. *)
Record Box := mkBox { minX : Q; minY : Q; maxX : Q; maxY : Q }.

Definition playerBox (p : Player.t) : Box :=
  mkBox (Player.worldX p) (Player.y p)
    (Player.worldX p + Player.w p) (Player.y p + Player.h p).

Definition obstacleBox (obs : Obstacle.t) : Box :=
  mkBox (Obstacle.x obs) (Obstacle.y obs)
    (Obstacle.x obs + Obstacle.w obs) (Obstacle.y obs + Obstacle.h obs).

(** A box shrunk inward by [pad] on all four sides. *)
Definition shrink (pad : Q) (b : Box) : Box :=
  mkBox (minX b + pad) (minY b + pad) (maxX b - pad) (maxY b - pad).

(** Strict overlap of two boxes. *)
Definition overlaps (a b : Box) : bool :=
  Qltb (minX a) (maxX b) && Qgtb (maxX a) (minX b)
  && Qltb (minY a) (maxY b) && Qgtb (maxY a) (minY b).

(** The collision test in the words of the specification: the player's
    hitbox and the obstacle's box, both shrunk inward by the padding. *)
Definition hitsBothShrunk (p : Player.t) (obs : Obstacle.t) : bool :=
  overlaps (shrink hitboxPadding (playerBox p))
    (shrink hitboxPadding (obstacleBox obs)).

(** ** Stored strings *)

(** The sign [parseInt] reads, the string behind it, and the decimal digits
    it then takes: those that follow the leading white space and the
    optional sign. *)
Definition signOf (t : jsstring) : Z :=
  match t with
  | c :: _ => if (c =? 45)%N then (-1)%Z else 1%Z
  | [] => 1%Z
  end.

Definition unsignedPart (t : jsstring) : jsstring :=
  match t with
  | c :: r => if ((c =? 45) || (c =? 43))%N then r else t
  | [] => []
  end.

Definition leadingDigits (s : jsstring) : jsstring :=
  digitPrefix (unsignedPart (trimStart s)).

(** A string that encodes a base-10 integer, in the words of the
    specification: decimal digits, at least one, after an optional minus
    sign (what [toString] writes for an integer). *)
Definition encodesInteger (s : jsstring) : bool :=
  let body :=
    match s with
    | c :: r => if (c =? 45)%N then r else s
    | [] => []
    end in
  match body with
  | [] => false
  | _ => forallb isDigit body
  end.

(** ** Counters *)

(** The three counters of the simulation record. *)
Definition counters (state : State) : Q * Z * Z :=
  (score state, renderedScore state, frameCount state).

(** The score and the high score the setter calls of a frame leave behind;
    [fl] is the floor of [state.score] when the updaters run. *)
Definition lastScore (cs : list UiCall) (n : Z) : Z :=
  fold_left (fun n u => match u with SetScore m => m | _ => n end) cs n.

Definition lastHighScore (fl : Z) (cs : list UiCall) (n : Z) : Z :=
  fold_left (fun n u => match u with SetHighScore => Z.max n fl | _ => n end)
    cs n.

(** ** Difficulty *)

(** The number of difficulty steps taken when [frames] frames have run:
    one at frame 0 and one every 600 frames after it. *)
Definition difficultySteps (frames : Z) : Z := ((frames + 599) / 600)%Z.

(** ** Traps *)

(** Two world-X positions more than the minimal spawn gap apart. *)
Definition spaced (a b : Q) : Prop := a + 600 < b.

(** An obstacle with the size every spawn gives. *)
Definition trapSized (obs : Obstacle.t) : Prop :=
  Obstacle.w obs = obstacleW /\ Obstacle.h obs = obstacleH.

(** ** The flags of a session *)

(** What the simulation record looks like while a run goes on, before the
    first run, and after a run has ended. *)
Definition sessionShape (state : State) : Prop :=
  (0 <= frameCount state)%Z
  /\ (isRunning state = true ->
      Enemy.distance (enemy state) ==
        300 + 0.5 * inject_Z (Z.min (frameCount state) 100)
      /\ particles state = [])
  /\ (isRunning state = false ->
      Enemy.distance (enemy state) == MAX_ENEMY_DISTANCE /\ particles state = []
      \/ Enemy.distance (enemy state) == 0
         /\ List.length (particles state) = 20%nat).

(** The player's hitbox has its fixed size. *)
Definition playerSized (state : State) : Prop :=
  Player.w (player state) = PLAYER_SIZE /\ Player.h (player state) = PLAYER_SIZE.

(** ** Runs of frames *)

(** The simulation record after the frames of [rnds], one oracle each, on a
    canvas of constant height. *)
Definition run (canvasHeight : Z) (rnds : list Oracle) (state : State) : State :=
  fold_left (fun s rnd => result (loop canvasHeight s rnd 0%nat)) rnds state.

(** The height of a jump above the ground line, [n] frames after the key
    press: the sum of [-(JUMP_FORCE + GRAVITY * i)] for [i] from 1 to [n]. *)
Definition jumpHeight (n : Z) : Q :=
  20 * inject_Z n - 0.6 * inject_Z n * (inject_Z n + 1).

(** The vertical state [n] frames into a jump, on a canvas of height
    [canvasHeight]. *)
Definition midJump (canvasHeight : Z) (n : Z) (state : State) : Prop :=
  Player.vy (player state) == JUMP_FORCE + GRAVITY * inject_Z n
  /\ inject_Z canvasHeight - PLAYER_GROUND_OFFSET
     - (Player.y (player state) + Player.h (player state)) == jumpHeight n.

(** ** What [loop] draws *)

(** Values the drawing code of [loop] derives from the state after the
    enemy catch check; [canvasWidth] is [canvas.width]. *)
Definition isDanger (state : State) : bool :=
  Qltb (Enemy.distance (enemy state)) 200.

Definition enemyScreenX (state : State) : Q :=
  PLAYER_X - Enemy.distance (enemy state).

Definition screenX (state : State) (obs : Obstacle.t) : Q :=
  Obstacle.x obs - cameraX state.

(** [screenX > -100 && screenX < canvas.width + 100]: the trap is drawn. *)
Definition isDrawn (canvasWidth : Z) (state : State) (obs : Obstacle.t) : bool :=
  Qgtb (screenX state obs) (-100)
  && Qltb (screenX state obs) (inject_Z canvasWidth + 100).

(** * Pixel processing

    [ImageData.data] is a flat array of bytes, four per pixel (red, green,
    blue, alpha); bytes are integers.  Both loops step through it four
    entries at a time and write alpha entries only; a tail of fewer than
    four entries (which [ImageData] never has) is left as it is, as reads
    past the end give [undefined], which fails every comparison, and writes
    past the end of a typed array are ignored. *)

(** [isBgColor] of [loadAndProcess]; [bgR], [bgG], [bgB] are the top-left
    pixel. *)
Definition isBgColor (bgR bgG bgB : Z) (r g b : Z) : bool :=
  let tolerance := 40%Z in
  if ((Z.abs (r - bgR) <? tolerance) && (Z.abs (g - bgG) <? tolerance)
      && (Z.abs (b - bgB) <? tolerance))%Z then true
  else if ((240 <? r) && (240 <? g) && (240 <? b))%Z then true
  else if ((bgR <? 30) && (bgG <? 30) && (bgB <? 30)
           && (r <? 30) && (g <? 30) && (b <? 30))%Z then true
  else false.

(** The pixel loop of [loadAndProcess]. *)
Fixpoint removeBackgroundLoop (bgR bgG bgB : Z) (data : list Z) : list Z :=
  match data with
  | r :: g :: b :: a :: rest =>
      r :: g :: b :: (if isBgColor bgR bgG bgB r g b then 0%Z else a)
        :: removeBackgroundLoop bgR bgG bgB rest
  | _ => data
  end.

Definition removeBackground (data : list Z) : list Z :=
  removeBackgroundLoop (nth 0 data 0%Z) (nth 1 data 0%Z) (nth 2 data 0%Z) data.

(** The chroma key [loop] applies to each video frame of the player. *)
Definition matchesBackground (bgR bgG bgB : Z) (r g b : Z) : bool :=
  let tolerance := 70%Z in
  ((Z.abs (r - bgR) <? tolerance) && (Z.abs (g - bgG) <? tolerance)
   && (Z.abs (b - bgB) <? tolerance))%Z.

Fixpoint chromaKeyLoop (bgR bgG bgB : Z) (data : list Z) : list Z :=
  match data with
  | r :: g :: b :: a :: rest =>
      r :: g :: b :: (if matchesBackground bgR bgG bgB r g b then 0%Z else a)
        :: chromaKeyLoop bgR bgG bgB rest
  | _ => data
  end.

Definition chromaKey (data : list Z) : list Z :=
  chromaKeyLoop (nth 0 data 0%Z) (nth 1 data 0%Z) (nth 2 data 0%Z) data.

(** The loop both share: alpha is cleared where [test] holds of the three
    colour bytes. *)
Fixpoint clearAlphaWhere (test : Z -> Z -> Z -> bool) (data : list Z) : list Z :=
  match data with
  | r :: g :: b :: a :: rest =>
      r :: g :: b :: (if test r g b then 0%Z else a)
        :: clearAlphaWhere test rest
  | _ => data
  end.

(** * The login component ([Auth])

    Key generation and key decoding are done by libraries outside the
    repository ([Keypair.generate], [bs58.decode], [Keypair.fromSecretKey]);
    the handlers take their outcome as a parameter, [None] standing for a
    thrown exception.  [onLogin] is the callback of the parent: a handler
    returns the argument it calls it with, if it calls it. *)

Module Auth.
Inductive View := LOGIN | SIGNUP.

Record Account := mkAccount { publicKey : jsstring; secretKey : jsstring }.

Record t := mk
  { view : View;
    privateKeyInput : jsstring;
    error : string;
    generatedAccount : option Account;
    showSecret : bool;
    copied : bool }.

Definition setView (v : View) (a : t) : t :=
  mk v (privateKeyInput a) (error a) (generatedAccount a) (showSecret a)
    (copied a).
Definition setPrivateKeyInput (s : jsstring) (a : t) : t :=
  mk (view a) s (error a) (generatedAccount a) (showSecret a) (copied a).
Definition setError (e : string) (a : t) : t :=
  mk (view a) (privateKeyInput a) e (generatedAccount a) (showSecret a)
    (copied a).
Definition setGeneratedAccount (g : option Account) (a : t) : t :=
  mk (view a) (privateKeyInput a) (error a) g (showSecret a) (copied a).
End Auth.

(** The state of the first render. *)
Definition authStart : Auth.t := Auth.mk Auth.SIGNUP [] "" None false false.

(** [String.prototype.trim]: white space and line terminators are removed at
    both ends. *)
Definition trimEnd (s : jsstring) : jsstring := rev (trimStart (rev s)).
Definition trim (s : jsstring) : jsstring := trimEnd (trimStart s).

(** [handleGenerateValues]; [generated] is the key pair of
    [Keypair.generate()] in its two encodings. *)
Definition handleGenerateValues (generated : option Auth.Account) (a : Auth.t)
  : Auth.t :=
  match generated with
  | Some account =>
      Auth.setError "" (Auth.setGeneratedAccount (Some account) a)
  | None => Auth.setError "Failed to generate wallet" a
  end.

(** [handleLogin]; [publicKeyOf s] is
    [Keypair.fromSecretKey(bs58.decode(s)).publicKey.toString()]. *)
Definition handleLogin (publicKeyOf : jsstring -> option jsstring) (a : Auth.t)
  : Auth.t * option jsstring :=
  match trim (Auth.privateKeyInput a) with
  | [] => (Auth.setError "Please enter a private key" a, None)
  | key =>
      match publicKeyOf key with
      | Some publicKey => (a, Some publicKey)
      | None =>
          (Auth.setError "Invalid Private Key. Please check your input." a,
           None)
      end
  end.

(** [handleSignupContinue] *)
Definition handleSignupContinue (a : Auth.t) : option jsstring :=
  match Auth.generatedAccount a with
  | Some account => Some (Auth.publicKey account)
  | None => None
  end.

(** The two view switches. *)
Definition showLogin (a : Auth.t) : Auth.t :=
  Auth.setGeneratedAccount None (Auth.setError "" (Auth.setView Auth.LOGIN a)).

Definition showSignup (a : Auth.t) : Auth.t :=
  Auth.setError "" (Auth.setView Auth.SIGNUP a).

(** A string of white space only. *)
Definition blank (s : jsstring) : bool := forallb isWhiteSpace s.

(** * Saving the balance *)

(** The decimal digits of a non-negative integer, most significant first;
    [fuel] bounds the number of digits. *)
Fixpoint digitsLoop (fuel : nat) (n : Z) (acc : jsstring) : jsstring :=
  match fuel with
  | O => acc
  | S fuel' =>
      let acc' := Z.to_N (48 + n mod 10) :: acc in
      if (n <? 10)%Z then acc' else digitsLoop fuel' (n / 10) acc'
  end.

(** [Number.prototype.toString] on the balance: "NaN", or the decimal digits
    of the integer behind a minus sign if it is negative.  (From 10^21 on
    JavaScript writes exponents; 22 digits cover everything below.) *)
Definition jsnum_toString (b : jsnum) : jsstring :=
  match b with
  | NaN => jsstring_of "NaN"
  | Num z =>
      if (z <? 0)%Z then 45%N :: digitsLoop 22 (- z) []
      else digitsLoop 22 z []
  end.

(** The save effect: [localStorage.setItem('gameBalance',
    balance.toString())]; the result is the stored value. *)
Definition saveBalance (balance : jsnum) : option jsstring :=
  Some (jsnum_toString balance).

(** * Properties *)

(** Case analysis on the condition of the first [if] of the goal. *)
Ltac case_if :=
  match goal with |- context [if ?b then _ else _] => destruct b end.

(** ** Comparisons *)

Lemma Qltb_lt (a b : Q) : Qltb a b = true <-> a < b.
Proof.
  unfold Qltb. rewrite negb_true_iff, <- not_true_iff_false, Qle_bool_iff.
  split; [apply Qnot_le_lt | apply Qlt_not_le].
Qed.

Lemma Qltb_ge (a b : Q) : Qltb a b = false <-> b <= a.
Proof.
  unfold Qltb. rewrite negb_false_iff. apply Qle_bool_iff.
Qed.

Lemma Qgtb_gt (a b : Q) : Qgtb a b = true <-> b < a.
Proof. apply Qltb_lt. Qed.

Lemma Qleb_le (a b : Q) : Qleb a b = true <-> a <= b.
Proof. apply Qle_bool_iff. Qed.

Lemma Qleb_gt (a b : Q) : Qleb a b = false <-> b < a.
Proof.
  unfold Qleb. rewrite <- not_true_iff_false, Qle_bool_iff.
  split; [apply Qnot_le_lt | apply Qlt_not_le].
Qed.

Lemma Qgeb_ge (a b : Q) : Qgeb a b = true <-> b <= a.
Proof. apply Qle_bool_iff. Qed.

Lemma Qgeb_lt (a b : Q) : Qgeb a b = false <-> a < b.
Proof. apply Qleb_gt. Qed.

(** ** The frame monad *)

Lemma bind_run {A B} (m : Frame A) (f : A -> Frame B) rnd k :
  bind m f rnd k =
  (result (f (result (m rnd k)) rnd (cursor (m rnd k))),
   cursor (f (result (m rnd k)) rnd (cursor (m rnd k))),
   calls (m rnd k) ++ calls (f (result (m rnd k)) rnd (cursor (m rnd k)))).
Proof.
  unfold bind, result, cursor, calls.
  destruct (m rnd k) as [[a k1] c1]; simpl.
  destruct (f a rnd k1) as [[b k2] c2]; reflexivity.
Qed.

(** ** createExplosion: ten particles, nothing else *)

Lemma burst_length n x y color rnd k :
  List.length (burst n x y color rnd k) = n.
Proof.
  revert k; induction n as [|n IH]; intros k; simpl; [reflexivity|].
  now rewrite IH.
Qed.

Lemma burst_at n x y color rnd k p :
  In p (burst n x y color rnd k) ->
  Particle.x p = x /\ Particle.y p = y /\ Particle.life p = 1.0
  /\ Particle.color p = color.
Proof.
  revert k; induction n as [|n IH]; intros k; simpl; [tauto|].
  intros [<- | H]; [simpl; auto | eauto].
Qed.

Lemma explosionLoop_run n x y color state rnd k :
  explosionLoop n x y color state rnd k =
  (set_particles (particles state ++ burst n x y color rnd k) state,
   (k + 2 * n)%nat, []).
Proof.
  revert state k; induction n as [|n IH]; intros state k.
  - simpl. unfold ret. rewrite app_nil_r.
    destruct state; unfold set_particles; simpl. f_equal. f_equal. lia.
  - cbn [explosionLoop burst]. unfold bind, random. rewrite IH.
    destruct state; unfold set_particles; simpl.
    rewrite <- app_assoc. simpl. f_equal. f_equal. lia.
Qed.

Lemma createExplosion_run x y color state rnd k :
  createExplosion x y color state rnd k =
  (set_particles (particles state ++ burst 10 x y color rnd k) state,
   (k + 20)%nat, []).
Proof. unfold createExplosion. now rewrite explosionLoop_run. Qed.

Lemma gameOver_run state rnd k :
  gameOver state rnd k =
  (set_particles (particles state ++ deathBurst state rnd k)
     (set_isRunning false state),
   (k + 20)%nat, [SetGameState GAME_OVER; SetHighScore]).
Proof.
  unfold gameOver, bind, call. rewrite createExplosion_run. reflexivity.
Qed.

(** ** The collision loop *)

Lemma collisionLoop_run todo state rnd k :
  collisionLoop todo state rnd k =
  ((map (markStruck (player state)) todo,
    strikes (strikeCount (player state) todo) state rnd k),
   (k + 20 * strikeCount (player state) todo)%nat,
   gameOverCalls (strikeCount (player state) todo)).
Proof.
  revert state k; induction todo as [|obs rest IH]; intros state k.
  - simpl. unfold ret, strikeCount, gameOverCalls. simpl.
    f_equal. f_equal. lia.
  - assert (Hs : struck (player state) obs =
                 negb (Obstacle.collided obs) && hits (player state) obs)
      by reflexivity.
    cbn [collisionLoop]. unfold markStruck, strikeCount in *.
    cbn [map filter].
    destruct (Obstacle.collided obs); cbn [negb andb] in Hs.
    + rewrite Hs. unfold bind, ret. rewrite IH. cbn [fst snd].
      now rewrite app_nil_r.
    + destruct (hits (player state) obs); rewrite Hs.
      * unfold bind at 1. rewrite gameOver_run.
        unfold bind, ret. rewrite IH.
        cbn [fst snd player set_particles set_isRunning set_enemy
             List.length strikes].
        rewrite gameOver_run. unfold result. cbn [fst snd].
        unfold gameOverCalls. cbn [repeat concat app]. rewrite app_nil_r.
        f_equal. f_equal. lia.
      * unfold bind, ret. rewrite IH. cbn [fst snd]. now rewrite app_nil_r.
Qed.

Lemma collisionDetection_run state rnd k :
  collisionDetection state rnd k =
  (set_obstacles (map (markStruck (player state)) (obstacles state))
     (strikes (strikeCount (player state) (obstacles state)) state rnd k),
   (k + 20 * strikeCount (player state) (obstacles state))%nat,
   gameOverCalls (strikeCount (player state) (obstacles state))).
Proof.
  unfold collisionDetection, bind, ret. rewrite collisionLoop_run.
  cbn [fst snd]. now rewrite app_nil_r.
Qed.

(** [strikes] touches [enemy], [isRunning] and [particles] only. *)
Lemma strikes_frame n state rnd k :
  player (strikes n state rnd k) = player state
  /\ obstacles (strikes n state rnd k) = obstacles state
  /\ gameSpeed (strikes n state rnd k) = gameSpeed state
  /\ score (strikes n state rnd k) = score state
  /\ renderedScore (strikes n state rnd k) = renderedScore state
  /\ frameCount (strikes n state rnd k) = frameCount state.
Proof.
  revert state k; induction n as [|n IH]; intros state k; simpl; [tauto|].
  rewrite gameOver_run. unfold result; cbn [fst].
  destruct (IH (set_particles
                  (particles (set_enemy (Enemy.mk 0) state) ++
                   deathBurst (set_enemy (Enemy.mk 0) state) rnd k)
                  (set_isRunning false (set_enemy (Enemy.mk 0) state)))
              (k + 20)%nat)
    as (-> & -> & -> & -> & -> & ->).
  repeat split.
Qed.

Lemma strikes_particles n state rnd k :
  exists new,
    particles (strikes n state rnd k) = particles state ++ new
    /\ List.length new = (10 * n)%nat
    /\ forall p, In p new ->
         Particle.x p = Player.worldX (player state)
         /\ Particle.y p = Player.y (player state) + PLAYER_SIZE / 2
         /\ Particle.life p = 1.0.
Proof.
  revert state k; induction n as [|n IH]; intros state k; simpl.
  - exists []. rewrite app_nil_r. simpl. tauto.
  - rewrite gameOver_run. unfold result; cbn [fst].
    destruct (IH (set_particles
                    (particles (set_enemy (Enemy.mk 0) state) ++
                     deathBurst (set_enemy (Enemy.mk 0) state) rnd k)
                    (set_isRunning false (set_enemy (Enemy.mk 0) state)))
                (k + 20)%nat)
      as (new & -> & Hlen & Hat).
    exists (deathBurst (set_enemy (Enemy.mk 0) state) rnd k ++ new).
    cbn [particles set_particles set_isRunning set_enemy player] in *.
    split; [now rewrite app_assoc|]. split.
    + rewrite length_app. unfold deathBurst. rewrite burst_length. lia.
    + intros p [Hp | Hp]%in_app_or; [|auto].
      apply burst_at in Hp. cbn [player set_enemy] in Hp. tauto.
Qed.

Lemma strikes_some n state rnd k :
  (0 < n)%nat ->
  isRunning (strikes n state rnd k) = false
  /\ enemy (strikes n state rnd k) = Enemy.mk 0.
Proof.
  revert state k; induction n as [|n IH]; intros state k Hn; [lia|].
  simpl. rewrite gameOver_run. unfold result; cbn [fst].
  destruct n as [|n]; [simpl; auto|].
  apply IH. lia.
Qed.

Lemma markStruck_x p l :
  map Obstacle.x (map (markStruck p) l) = map Obstacle.x l.
Proof.
  rewrite map_map. apply map_ext. intros o. unfold markStruck.
  now destruct (struck p o).
Qed.

(** ** The other phases, one by one *)

Lemma spawnObstacle_run canvasHeight state rnd k :
  calls (spawnObstacle canvasHeight state rnd k) = []
  /\ (result (spawnObstacle canvasHeight state rnd k) = state
      \/ result (spawnObstacle canvasHeight state rnd k) =
           set_obstacles (obstacles state ++ [newObstacle canvasHeight state])
             state
         /\ forall lastObstacle,
              last (map Some (obstacles state)) None = Some lastObstacle ->
              600 + rnd k * 500 <
              Player.worldX (player state) + spawnDistance
              - Obstacle.x lastObstacle).
Proof.
  unfold spawnObstacle, gapMet.
  destruct (last (map Some (obstacles state)) None) as [lastObstacle|].
  - unfold bind, random, ret; cbn [fst snd].
    destruct (Qgtb _ _) eqn:Hgap; [|simpl; auto].
    destruct (Qltb (rnd (S k)) 0.02); simpl; [|auto].
    split; [reflexivity|]. right. split; [reflexivity|].
    intros o [= <-]. now apply Qgtb_gt.
  - unfold bind, random, ret; cbn [fst snd].
    destruct (Qltb (rnd k) 0.02); simpl; [|auto].
    split; [reflexivity|]. right. split; [reflexivity|]. discriminate.
Qed.

Lemma enemyCatchCheck_run state rnd k :
  enemyCatchCheck state rnd k =
  if Qleb (Enemy.distance (enemy state)) ENEMY_CATCH_DISTANCE
  then (set_particles (particles state ++ deathBurst state rnd k)
          (set_isRunning false state),
        (k + 20)%nat, [SetGameState GAME_OVER; SetHighScore])
  else (state, k, []).
Proof.
  unfold enemyCatchCheck. destruct (Qleb _ _); [apply gameOver_run|reflexivity].
Qed.

Lemma accrueScore_run state rnd k :
  accrueScore state rnd k =
  if (renderedScore state <? Qfloor (score state + 0.1))%Z
  then (set_renderedScore (Qfloor (score state + 0.1))
          (set_score (score state + 0.1) state),
        k, [SetScore (Qfloor (score state + 0.1))])
  else (set_score (score state + 0.1) state, k, []).
Proof.
  unfold accrueScore. cbn [renderedScore score set_score].
  destruct (_ <? _)%Z; reflexivity.
Qed.

Lemma loopBody_run canvasHeight state rnd k :
  loopBody canvasHeight state rnd k =
  (countFrame (result (afterScore canvasHeight state rnd k)),
   cursor (afterScore canvasHeight state rnd k),
   calls (afterSpawn canvasHeight state rnd k)
   ++ calls (afterCollision canvasHeight state rnd k)
   ++ calls (afterCatch canvasHeight state rnd k)
   ++ calls (afterScore canvasHeight state rnd k)).
Proof.
  unfold loopBody, afterScore, afterCatch, afterCollision, afterSpawn,
    beforeSpawn.
  cbv zeta. unfold bind, ret.
  destruct (spawnObstacle canvasHeight _ rnd k) as [[s5 k5] c5].
  cbn [result cursor calls fst snd].
  destruct (collisionDetection _ rnd k5) as [[s7 k7] c7].
  cbn [result cursor calls fst snd].
  destruct (enemyCatchCheck s7 rnd k7) as [[s8 k8] c8].
  cbn [result cursor calls fst snd].
  destruct (accrueScore _ rnd k8) as [[s10 k10] c10].
  cbn [result cursor calls fst snd].
  now rewrite app_nil_r.
Qed.

Lemma loopBody_result canvasHeight state rnd k :
  result (loopBody canvasHeight state rnd k) =
  countFrame (result (afterScore canvasHeight state rnd k)).
Proof. now rewrite loopBody_run. Qed.

(** Where each phase leaves the player's [worldX]. *)
Lemma difficultyScaling_player state :
  player (difficultyScaling state) = player state.
Proof. unfold difficultyScaling. now destruct (_ =? _)%Z. Qed.

Lemma playerPhysics_worldX canvasHeight state :
  Player.worldX (player (playerPhysics canvasHeight state)) =
  Player.worldX (player state).
Proof. unfold playerPhysics. cbv zeta. now destruct (Qgeb _ _). Qed.

Lemma enemyDrift_player state : player (enemyDrift state) = player state.
Proof. unfold enemyDrift. now destruct (Qltb _ _). Qed.

Lemma spawnObstacle_player canvasHeight state rnd k :
  player (result (spawnObstacle canvasHeight state rnd k)) = player state.
Proof.
  destruct (spawnObstacle_run canvasHeight state rnd k) as [_ [-> | [-> _]]];
    reflexivity.
Qed.

Lemma removeOldObstacle_player state :
  player (removeOldObstacle state) = player state.
Proof. unfold removeOldObstacle. now destruct (_ <? _)%nat. Qed.

Lemma collisionDetection_player state rnd k :
  player (result (collisionDetection state rnd k)) = player state.
Proof.
  rewrite collisionDetection_run. unfold result; cbn [fst player set_obstacles].
  apply strikes_frame.
Qed.

Lemma enemyCatchCheck_player state rnd k :
  player (result (enemyCatchCheck state rnd k)) = player state.
Proof. rewrite enemyCatchCheck_run. now destruct (Qleb _ _). Qed.

Lemma updateParticles_player state :
  player (updateParticles state) = player state.
Proof. reflexivity. Qed.

Lemma accrueScore_player state rnd k :
  player (result (accrueScore state rnd k)) = player state.
Proof. rewrite accrueScore_run. now destruct (_ <? _)%Z. Qed.

Lemma countFrame_player state : player (countFrame state) = player state.
Proof. reflexivity. Qed.

(** Where each phase leaves [gameSpeed]. *)
Lemma spawnObstacle_gameSpeed canvasHeight state rnd k :
  gameSpeed (result (spawnObstacle canvasHeight state rnd k)) = gameSpeed state.
Proof.
  destruct (spawnObstacle_run canvasHeight state rnd k) as [_ [-> | [-> _]]];
    reflexivity.
Qed.

Lemma removeOldObstacle_gameSpeed state :
  gameSpeed (removeOldObstacle state) = gameSpeed state.
Proof. unfold removeOldObstacle. now destruct (_ <? _)%nat. Qed.

Lemma collisionDetection_gameSpeed state rnd k :
  gameSpeed (result (collisionDetection state rnd k)) = gameSpeed state.
Proof.
  rewrite collisionDetection_run.
  unfold result; cbn [fst gameSpeed set_obstacles]. apply strikes_frame.
Qed.

Lemma enemyCatchCheck_gameSpeed state rnd k :
  gameSpeed (result (enemyCatchCheck state rnd k)) = gameSpeed state.
Proof. rewrite enemyCatchCheck_run. now destruct (Qleb _ _). Qed.

Lemma accrueScore_gameSpeed state rnd k :
  gameSpeed (result (accrueScore state rnd k)) = gameSpeed state.
Proof. rewrite accrueScore_run. now destruct (_ <? _)%Z. Qed.

Lemma beforeSpawn_gameSpeed canvasHeight state :
  gameSpeed (beforeSpawn canvasHeight state) =
  gameSpeed (difficultyScaling state).
Proof. unfold beforeSpawn, enemyDrift. now destruct (Qltb _ _). Qed.

Lemma updateParticles_gameSpeed state :
  gameSpeed (updateParticles state) = gameSpeed state.
Proof. reflexivity. Qed.

Lemma countFrame_gameSpeed state : gameSpeed (countFrame state) = gameSpeed state.
Proof. reflexivity. Qed.

Lemma afterScore_gameSpeed canvasHeight state rnd k :
  gameSpeed (result (afterScore canvasHeight state rnd k)) =
  gameSpeed (difficultyScaling state).
Proof.
  unfold afterScore; cbv zeta.
  rewrite accrueScore_gameSpeed, updateParticles_gameSpeed.
  unfold afterCatch; cbv zeta. rewrite enemyCatchCheck_gameSpeed.
  unfold afterCollision; cbv zeta.
  rewrite collisionDetection_gameSpeed, removeOldObstacle_gameSpeed.
  unfold afterSpawn. rewrite spawnObstacle_gameSpeed.
  apply beforeSpawn_gameSpeed.
Qed.

Lemma loopBody_gameSpeed canvasHeight state rnd k :
  gameSpeed (result (loopBody canvasHeight state rnd k)) =
  gameSpeed (difficultyScaling state).
Proof.
  rewrite loopBody_result, countFrame_gameSpeed. apply afterScore_gameSpeed.
Qed.

Lemma beforeSpawn_worldX canvasHeight state :
  Player.worldX (player (beforeSpawn canvasHeight state)) =
  Player.worldX (player state) + gameSpeed (difficultyScaling state).
Proof.
  unfold beforeSpawn. rewrite enemyDrift_player, playerPhysics_worldX.
  unfold movePlayer. cbn [player set_player Player.worldX Player.set_worldX].
  now rewrite difficultyScaling_player.
Qed.

Lemma afterSpawn_player canvasHeight state rnd k :
  player (result (afterSpawn canvasHeight state rnd k)) =
  player (beforeSpawn canvasHeight state).
Proof. unfold afterSpawn. apply spawnObstacle_player. Qed.

Lemma afterCollision_player canvasHeight state rnd k :
  player (result (afterCollision canvasHeight state rnd k)) =
  player (beforeSpawn canvasHeight state).
Proof.
  unfold afterCollision; cbv zeta.
  rewrite collisionDetection_player, removeOldObstacle_player.
  apply afterSpawn_player.
Qed.

Lemma afterCatch_player canvasHeight state rnd k :
  player (result (afterCatch canvasHeight state rnd k)) =
  player (beforeSpawn canvasHeight state).
Proof.
  unfold afterCatch; cbv zeta. rewrite enemyCatchCheck_player.
  apply afterCollision_player.
Qed.

Lemma loopBody_player canvasHeight state rnd k :
  player (result (loopBody canvasHeight state rnd k)) =
  player (beforeSpawn canvasHeight state).
Proof.
  rewrite loopBody_result, countFrame_player. unfold afterScore; cbv zeta.
  rewrite accrueScore_player, updateParticles_player.
  apply afterCatch_player.
Qed.

Lemma loopBody_worldX canvasHeight state rnd k :
  Player.worldX (player (result (loopBody canvasHeight state rnd k))) =
  Player.worldX (player state) + gameSpeed (difficultyScaling state).
Proof. rewrite loopBody_player. apply beforeSpawn_worldX. Qed.

Lemma loop_running canvasHeight state :
  isRunning state = true -> loop canvasHeight state = loopBody canvasHeight state.
Proof. unfold loop. now intros ->. Qed.

(** ** C1: the world advance *)

(** C1. In a tick run while [isRunning] is true, [player.worldX] grows by
    the [gameSpeed] of that tick, which is the speed after the tick's
    difficulty step and the speed the tick leaves behind.  The advance is
    made by [movePlayer]; every other phase returns [worldX] as it found
    it. *)
Theorem C1_worldX_advances_by_gameSpeed canvasHeight state rnd k :
  isRunning state = true ->
  let state' := result (loop canvasHeight state rnd k) in
  Player.worldX (player state') =
    Player.worldX (player state) + gameSpeed state'
  /\ gameSpeed state' = gameSpeed (difficultyScaling state)
  /\ Player.worldX (player (movePlayer (difficultyScaling state))) =
       Player.worldX (player state) + gameSpeed (difficultyScaling state)
  /\ (forall s r c,
        Player.worldX (player (difficultyScaling s)) = Player.worldX (player s)
        /\ Player.worldX (player (playerPhysics canvasHeight s)) =
             Player.worldX (player s)
        /\ Player.worldX (player (enemyDrift s)) = Player.worldX (player s)
        /\ Player.worldX (player (result (spawnObstacle canvasHeight s r c))) =
             Player.worldX (player s)
        /\ Player.worldX (player (removeOldObstacle s)) =
             Player.worldX (player s)
        /\ Player.worldX (player (result (collisionDetection s r c))) =
             Player.worldX (player s)
        /\ Player.worldX (player (result (enemyCatchCheck s r c))) =
             Player.worldX (player s)
        /\ Player.worldX (player (updateParticles s)) =
             Player.worldX (player s)
        /\ Player.worldX (player (result (accrueScore s r c))) =
             Player.worldX (player s)
        /\ Player.worldX (player (countFrame s)) = Player.worldX (player s)).
Proof.
  intros Hrun state'. subst state'. rewrite (loop_running _ _ Hrun).
  rewrite loopBody_gameSpeed, loopBody_worldX.
  split; [reflexivity|]. split; [reflexivity|]. split.
  - unfold movePlayer.
    cbn [player set_player Player.worldX Player.set_worldX].
    now rewrite difficultyScaling_player.
  - intros s r c.
    rewrite difficultyScaling_player, playerPhysics_worldX, enemyDrift_player,
      spawnObstacle_player, removeOldObstacle_player,
      collisionDetection_player, enemyCatchCheck_player, accrueScore_player.
    repeat split.
Qed.

Lemma C1_witness :
  let state' := result (loop 800 (resetState 800) (always 0.5) 0%nat) in
  Player.worldX (player state') =
    Player.worldX (player (resetState 800)) + gameSpeed state'.
Proof.
  exact (proj1 (C1_worldX_advances_by_gameSpeed 800 (resetState 800)
                  (always 0.5) 0%nat eq_refl)).
Defined.

(** ** C2: a tick while not running *)

Lemma set_stateRef_same c :
  RunnerGame.set_stateRef (RunnerGame.stateRef c) c = c.
Proof. now destruct c. Qed.

Lemma frame_not_running rnd c :
  isRunning (RunnerGame.stateRef c) = false -> frame rnd c = c.
Proof.
  intros H. unfold frame, loop. rewrite H. cbn. apply set_stateRef_same.
Qed.

(** C2. While [isRunning] is false, [loop] returns the state it was given,
    draws no random number and calls no setter; so no sequence of animation
    frames changes anything in the component: score, worldX, gameSpeed,
    frameCount, obstacles and particles all stay as they are. *)
Theorem C2_loop_noop_when_not_running canvasHeight state rnd k :
  isRunning state = false ->
  loop canvasHeight state rnd k = (state, k, [])
  /\ forall c rnds,
       RunnerGame.stateRef c = state ->
       fold_left (fun c r => frame r c) rnds c = c.
Proof.
  intros H. split.
  - unfold loop. now rewrite H.
  - intros c rnds <-. induction rnds as [|r rnds IH]; [reflexivity|].
    simpl. now rewrite frame_not_running.
Qed.

Lemma C2_witness :
  let state := RunnerGame.stateRef (session 0 111) in
  loop 800 state (always 0) 0%nat = (state, 0%nat, []).
Proof.
  refine (proj1 (C2_loop_noop_when_not_running 800
                   (RunnerGame.stateRef (session 0 111)) (always 0) 0%nat _)).
  vm_compute. reflexivity.
Defined.

(** ** C3: the obstacles stay sorted *)

Lemma Sorted_snoc (l : list Q) (a : Q) :
  Sorted Qlt l ->
  (forall x, last (map Some l) None = Some x -> x < a) ->
  Sorted Qlt (l ++ [a]).
Proof.
  induction l as [|x l IH]; intros Hs Hlast; simpl.
  - repeat constructor.
  - inversion Hs as [|? ? Hs' Hhd]; subst. constructor.
    + apply IH; [assumption|]. intros y Hy. apply Hlast.
      destruct l; [discriminate | exact Hy].
    + destruct l as [|z l]; simpl.
      * constructor. now apply Hlast.
      * constructor. now inversion Hhd.
Qed.

Lemma last_map_x (l : list Obstacle.t) :
  last (map Some (map Obstacle.x l)) None =
  option_map Obstacle.x (last (map Some l) None).
Proof.
  induction l as [|o l IH]; [reflexivity|].
  destruct l; [reflexivity | exact IH].
Qed.

Lemma beforeSpawn_obstacles canvasHeight state :
  obstacles (beforeSpawn canvasHeight state) = obstacles state.
Proof.
  unfold beforeSpawn, enemyDrift, playerPhysics, movePlayer, difficultyScaling.
  destruct (Qltb _ _); cbn [obstacles set_enemy set_player];
    destruct (_ =? _)%Z; reflexivity.
Qed.

Lemma updateParticles_obstacles state :
  obstacles (updateParticles state) = obstacles state.
Proof. reflexivity. Qed.

Lemma countFrame_obstacles state : obstacles (countFrame state) = obstacles state.
Proof. reflexivity. Qed.

Lemma accrueScore_obstacles state rnd k :
  obstacles (result (accrueScore state rnd k)) = obstacles state.
Proof. rewrite accrueScore_run. now destruct (_ <? _)%Z. Qed.

Lemma enemyCatchCheck_obstacles state rnd k :
  obstacles (result (enemyCatchCheck state rnd k)) = obstacles state.
Proof. rewrite enemyCatchCheck_run. now destruct (Qleb _ _). Qed.

Lemma afterCollision_obstacles canvasHeight state rnd k :
  obstacles (result (afterCollision canvasHeight state rnd k)) =
  map (markStruck (player (beforeSpawn canvasHeight state)))
    (obstacles (removeOldObstacle (result (afterSpawn canvasHeight state rnd k)))).
Proof.
  unfold afterCollision; cbv zeta. rewrite collisionDetection_run.
  unfold result at 1. cbn [fst obstacles set_obstacles].
  now rewrite removeOldObstacle_player, afterSpawn_player.
Qed.

Lemma loopBody_obstacles canvasHeight state rnd k :
  obstacles (result (loopBody canvasHeight state rnd k)) =
  map (markStruck (player (beforeSpawn canvasHeight state)))
    (obstacles (removeOldObstacle (result (afterSpawn canvasHeight state rnd k)))).
Proof.
  rewrite loopBody_result, countFrame_obstacles.
  unfold afterScore; cbv zeta.
  rewrite accrueScore_obstacles, updateParticles_obstacles.
  unfold afterCatch; cbv zeta. rewrite enemyCatchCheck_obstacles.
  apply afterCollision_obstacles.
Qed.

(** A spawn appends one obstacle, strictly right of the previous tail. *)
Lemma spawnObstacle_sorted canvasHeight state rnd k :
  0 <= rnd k ->
  Sorted Qlt (obstacleXs state) ->
  Sorted Qlt (obstacleXs (result (spawnObstacle canvasHeight state rnd k))).
Proof.
  intros Hr Hs.
  destruct (spawnObstacle_run canvasHeight state rnd k)
    as [_ [-> | [-> Hgap]]]; [assumption|].
  unfold obstacleXs. cbn [obstacles set_obstacles]. rewrite map_app.
  apply Sorted_snoc; [assumption|].
  intros x. rewrite last_map_x.
  destruct (last (map Some (obstacles state)) None) as [o|] eqn:E;
    [|discriminate].
  intros [= <-]. specialize (Hgap o eq_refl).
  unfold newObstacle; cbn [Obstacle.x]. nra.
Qed.

(** The eviction drops the front element or nothing. *)
Lemma removeOldObstacle_sorted state :
  Sorted Qlt (obstacleXs state) ->
  Sorted Qlt (obstacleXs (removeOldObstacle state)).
Proof.
  unfold removeOldObstacle, obstacleXs. destruct (_ <? _)%nat; [|auto].
  cbn [obstacles set_obstacles].
  destruct (obstacles state); [auto | now inversion 1].
Qed.

Lemma loop_sorted canvasHeight state rnd k :
  unitInterval rnd ->
  Sorted Qlt (obstacleXs state) ->
  Sorted Qlt (obstacleXs (result (loop canvasHeight state rnd k))).
Proof.
  intros Hrnd Hs. unfold loop.
  destruct (isRunning state); cbn [negb]; [|exact Hs].
  unfold obstacleXs. rewrite loopBody_obstacles, markStruck_x.
  apply removeOldObstacle_sorted. unfold afterSpawn.
  apply spawnObstacle_sorted; [apply Hrnd|].
  unfold obstacleXs. now rewrite beforeSpawn_obstacles.
Qed.

(** The setters touch React state, never [stateRef]. *)
Lemma applyCalls_stateRef state cs c :
  RunnerGame.stateRef (fold_left (applyCall state) cs c) = RunnerGame.stateRef c.
Proof.
  revert c; induction cs as [|u cs IH]; intros c; [reflexivity|].
  simpl. rewrite IH. now destruct u.
Qed.

Lemma frame_stateRef rnd c :
  RunnerGame.stateRef (frame rnd c) =
  result (loop (snd (RunnerGame.canvasSizeRef c)) (RunnerGame.stateRef c)
            rnd 0%nat).
Proof. unfold frame. now rewrite applyCalls_stateRef. Qed.

Lemma handleKeyDown_obstacles key snd state :
  obstacles (fst (handleKeyDown key snd state)) = obstacles state.
Proof.
  unfold handleKeyDown. destruct (isJumpKey key); [|reflexivity].
  now destruct (_ && _).
Qed.

Lemma resize_obstacles iw ih c :
  obstacles (RunnerGame.stateRef (resize iw ih c)) =
  obstacles (RunnerGame.stateRef c).
Proof. unfold resize, resizeListener. cbv zeta. now destruct (_ && _). Qed.

Lemma reachable_sorted c :
  reachable c -> Sorted Qlt (obstacleXs (RunnerGame.stateRef c)).
Proof.
  induction 1 as [saved iw ih | e c Hc IH Hen].
  - unfold mount, obstacleXs. rewrite resize_obstacles. constructor.
  - destruct e; cbn [handle enabled] in *.
    + constructor.
    + rewrite frame_stateRef. now apply loop_sorted.
    + unfold keyDown, obstacleXs in *.
      cbn [RunnerGame.stateRef RunnerGame.set_stateRef].
      now rewrite handleKeyDown_obstacles.
    + unfold obstacleXs in *. now rewrite resize_obstacles.
    + unfold onAnimationStart.
      destruct (negb _); [destruct (_ <? _)%Z|]; exact IH.
    + exact IH.
    + exact IH.
    + unfold requestWithdrawal. destruct (jsnum_geb _ _); exact IH.
    + exact IH.
    + exact IH.
    + exact IH.
Qed.

Lemma StronglySorted_snoc_lt (l : list Q) (a : Q) :
  StronglySorted Qlt (l ++ [a]) -> forall x, In x l -> x < a.
Proof.
  induction l as [|y l IH]; intros Hs x Hin; [contradiction|].
  simpl in Hs. inversion Hs as [|? ? Hs' Hall]; subst.
  destruct Hin as [<- | Hin]; [|now apply IH].
  apply Forall_app in Hall. destruct Hall as [_ Ha]. now inversion Ha.
Qed.

Lemma Sorted_strongly (l : list Q) : Sorted Qlt l -> StronglySorted Qlt l.
Proof.
  apply Sorted_StronglySorted. intros x y z. apply Qlt_trans.
Qed.

Lemma always_unit q : 0 <= q -> q < 1 -> unitInterval (always q).
Proof. intros H0 H1 k. now split. Qed.

Lemma session_reachable q n : 0 <= q -> q < 1 -> reachable (session q n).
Proof.
  intros H0 H1. unfold session. induction n as [|n IH]; cbn [Nat.iter nat_rect].
  - apply (reach_step Reset); [apply reach_mount | exact I].
  - apply (reach_step (AnimationFrame (always q)));
      [exact IH | now apply always_unit].
Qed.

(** C3. In every state a session can reach — through resets, animation
    frames with random numbers in [0,1), key presses and resizes — the
    obstacles are sorted by strictly ascending world-X.  In a frame, the
    spawn phase either leaves the array alone or appends one obstacle at
    [player.worldX + spawnDistance], strictly right of every obstacle already
    there, and the eviction removes the front element or nothing. *)
Theorem C3_obstacles_sorted c :
  reachable c ->
  StronglySorted Qlt (obstacleXs (RunnerGame.stateRef c))
  /\ (forall canvasHeight rnd k,
        unitInterval rnd ->
        let state := beforeSpawn canvasHeight (RunnerGame.stateRef c) in
        let spawned := result (spawnObstacle canvasHeight state rnd k) in
        (obstacles spawned = obstacles state
         \/ obstacles spawned = obstacles state ++ [newObstacle canvasHeight state]
            /\ Obstacle.x (newObstacle canvasHeight state) =
                 Player.worldX (player state) + spawnDistance
            /\ forall obs, In obs (obstacles state) ->
                 Obstacle.x obs < Obstacle.x (newObstacle canvasHeight state))
        /\ (obstacles (removeOldObstacle spawned) = obstacles spawned
            \/ exists front,
                 obstacles spawned = front :: obstacles (removeOldObstacle spawned))
        /\ StronglySorted Qlt (obstacleXs (removeOldObstacle spawned))).
Proof.
  intros Hc. pose proof (reachable_sorted c Hc) as Hs.
  split; [now apply Sorted_strongly|].
  intros canvasHeight rnd k Hrnd state spawned.
  assert (Hs4 : Sorted Qlt (obstacleXs state)).
  { unfold obstacleXs, state. now rewrite beforeSpawn_obstacles. }
  assert (Hs5 : Sorted Qlt (obstacleXs spawned)).
  { apply spawnObstacle_sorted; [apply Hrnd | exact Hs4]. }
  split; [|split].
  - destruct (spawnObstacle_run canvasHeight state rnd k)
      as [_ [E | [E _]]]; fold spawned in E.
    + left. now rewrite E.
    + right. split; [now rewrite E|]. split; [reflexivity|].
      intros obs Hin. apply Sorted_strongly in Hs5.
      unfold obstacleXs in Hs5. rewrite E in Hs5.
      cbn [obstacles set_obstacles] in Hs5. rewrite map_app in Hs5.
      apply (StronglySorted_snoc_lt _ _ Hs5). now apply in_map.
  - unfold removeOldObstacle. destruct (_ <? _)%nat eqn:Hlen; [|now left].
    right. cbn [obstacles set_obstacles].
    destruct (obstacles spawned) as [|front rest]; [discriminate|].
    now exists front.
  - now apply Sorted_strongly, removeOldObstacle_sorted.
Qed.

Lemma C3_witness :
  StronglySorted Qlt (obstacleXs (RunnerGame.stateRef (session 0 60))).
Proof.
  refine (proj1 (C3_obstacles_sorted (session 0 60) _)).
  apply session_reachable; [discriminate | reflexivity].
Defined.

(** ** C4: hitting a trap *)

Lemma beforeSpawn_particles canvasHeight state :
  particles (beforeSpawn canvasHeight state) = particles state.
Proof.
  unfold beforeSpawn, enemyDrift, playerPhysics, movePlayer, difficultyScaling.
  destruct (Qltb _ _); cbn [particles set_enemy set_player];
    destruct (_ =? _)%Z; reflexivity.
Qed.

Lemma beforeSpawn_isRunning canvasHeight state :
  isRunning (beforeSpawn canvasHeight state) = isRunning state.
Proof.
  unfold beforeSpawn, enemyDrift, playerPhysics, movePlayer, difficultyScaling.
  destruct (Qltb _ _); cbn [isRunning set_enemy set_player];
    destruct (_ =? _)%Z; reflexivity.
Qed.

Lemma atCollision_particles canvasHeight state rnd k :
  particles (result (atCollision canvasHeight state rnd k)) = particles state.
Proof.
  unfold atCollision, afterSpawn; cbv zeta. unfold result at 1; cbn [fst].
  unfold removeOldObstacle.
  destruct (_ <? _)%nat; cbn [particles set_obstacles];
    (destruct (spawnObstacle_run canvasHeight (beforeSpawn canvasHeight state)
                 rnd k) as [_ [-> | [-> _]]];
     cbn [particles set_obstacles]; apply beforeSpawn_particles).
Qed.

Lemma afterCollision_run canvasHeight state rnd k :
  afterCollision canvasHeight state rnd k =
  let r := atCollision canvasHeight state rnd k in
  let n := trapsHit canvasHeight state rnd k in
  (set_obstacles (map (markStruck (player (result r))) (obstacles (result r)))
     (strikes n (result r) rnd (cursor r)),
   (cursor r + 20 * n)%nat, gameOverCalls n).
Proof.
  unfold trapsHit. cbv zeta. rewrite <- collisionDetection_run.
  unfold afterCollision, atCollision. cbv zeta.
  destruct (afterSpawn canvasHeight state rnd k) as [[s5 k5] c5]. reflexivity.
Qed.

Lemma updateParticles_fresh old new :
  (forall p, In p new -> Particle.life p = 1.0) ->
  List.length
    (filter (fun p => negb (Qleb (Particle.life p) 0))
       (map moveParticle (old ++ new))) =
  (List.length
     (filter (fun p => negb (Qleb (Particle.life p) 0)) (map moveParticle old))
   + List.length new)%nat.
Proof.
  intros Hnew. rewrite map_app, filter_app, length_app. f_equal.
  induction new as [|p new IH]; [reflexivity|]. cbn [map filter].
  unfold moveParticle at 1. cbn [Particle.life].
  rewrite (Hnew p (or_introl eq_refl)). cbn [negb Qleb].
  change (negb (Qleb (1.0 - 0.05) 0)) with true. cbn [List.length]. f_equal.
  apply IH. intros q Hq. apply Hnew. now right.
Qed.

(** What a frame does when the collision loop finds [n > 0] untriggered
    traps under the player: they are marked, the run ends, the enemy is on
    the player, and both the collision branch (once per trap) and the catch
    check that follows append a burst of ten particles. *)
Lemma trap_hit_run canvasHeight state rnd k :
  isRunning state = true ->
  particles state = [] ->
  let r := atCollision canvasHeight state rnd k in
  let n := trapsHit canvasHeight state rnd k in
  (0 < n)%nat ->
  let state' := result (loop canvasHeight state rnd k) in
  obstacles state' = map (markStruck (player (result r))) (obstacles (result r))
  /\ isRunning state' = false
  /\ Enemy.distance (enemy state') = 0
  /\ List.length (particles state') = (10 * n + 10)%nat.
Proof.
  intros Hrun Hnil. cbv zeta. intros Hn.
  rewrite (loop_running _ _ Hrun), loopBody_result.
  unfold afterScore, afterCatch; cbv zeta.
  rewrite afterCollision_run; cbv zeta.
  pose proof (atCollision_particles canvasHeight state rnd k) as Hpart.
  rewrite Hnil in Hpart. revert Hn.
  generalize (trapsHit canvasHeight state rnd k) as n. intros n Hn.
  destruct (atCollision canvasHeight state rnd k) as [[s6 k6] c6].
  unfold result, cursor in *. cbn [fst snd] in *.
  destruct (strikes_some n s6 rnd k6 Hn) as [Hrun7 Hen7].
  destruct (strikes_particles n s6 rnd k6) as (new & Hp7 & Hlen7 & Hat7).
  rewrite Hpart in Hp7. cbn [app] in Hp7.
  rewrite enemyCatchCheck_run. cbn [enemy particles set_obstacles].
  rewrite Hen7, Hp7.
  change (Qleb (Enemy.distance (Enemy.mk 0)) ENEMY_CATCH_DISTANCE) with true.
  cbv iota. cbn [fst snd]. rewrite accrueScore_run.
  case_if;
    cbn [fst countFrame obstacles isRunning enemy particles set_frameCount
         set_renderedScore set_score updateParticles set_particles
         set_isRunning set_obstacles];
    rewrite Hen7;
    (repeat split;
     rewrite <- (app_nil_l (new ++ _)), updateParticles_fresh;
     [ cbn [map filter List.length]; rewrite length_app; unfold deathBurst;
       rewrite burst_length; lia
     | intros p [Hp | Hp]%in_app_or;
       [now apply Hat7 | now apply burst_at in Hp] ]).
Qed.

Lemma onAnimationStart_again c :
  onAnimationStart (onAnimationStart c) = onAnimationStart c.
Proof.
  unfold onAnimationStart.
  destruct (RunnerGame.pointsAddedRef c) eqn:E; cbn [negb].
  - now rewrite E.
  - destruct (_ <? _)%Z; reflexivity.
Qed.

(** The credit: however often the overlay's animation starts, the balance
    takes the score of the run once, and nothing when the score is zero. *)
Lemma onAnimationStart_settles_once c n :
  RunnerGame.pointsAddedRef c = false ->
  RunnerGame.balance (Nat.iter (S n) onAnimationStart c) =
  jsnum_add (RunnerGame.balance c) (Z.max 0 (RunnerGame.score c)).
Proof.
  intros Hno. induction n as [|n IH].
  - cbn [Nat.iter nat_rect]. unfold onAnimationStart. rewrite Hno. cbn [negb].
    destruct (0 <? RunnerGame.score c)%Z eqn:E.
    + apply Z.ltb_lt in E. now rewrite Z.max_r by lia.
    + apply Z.ltb_ge in E. rewrite Z.max_l by lia.
      cbn [RunnerGame.balance RunnerGame.set_pointsAddedRef].
      destruct (RunnerGame.balance c); cbn [jsnum_add]; [reflexivity|].
      now rewrite Z.add_0_r.
  - change (Nat.iter (S (S n)) onAnimationStart c)
      with (onAnimationStart (Nat.iter (S n) onAnimationStart c)).
    change (Nat.iter (S n) onAnimationStart c)
      with (onAnimationStart (Nat.iter n onAnimationStart c)) in *.
    now rewrite onAnimationStart_again.
Qed.

(** C4, at a state the game reaches by itself: START on a 1200 by 800
    canvas, then 110 frames in which [Math.random()] returns 0 and no key is
    pressed.  In the next frame the player runs into the first trap: the
    trap's [collided] flag flips, [isRunning] flips, the game-over overlay
    credits the score of 11 once however often it animates — but the frame
    leaves 20 particles, not 10: the collision branch sets the enemy
    distance to 0 and the catch check right after it fires too, so
    [createExplosion] runs twice. *)
Theorem C4_trap_hit_bursts_twice :
  let c := session 0 110 in
  let c' := handle (AnimationFrame (always 0)) c in
  isRunning (RunnerGame.stateRef c) = true
  /\ particles (RunnerGame.stateRef c) = []
  /\ map Obstacle.collided (obstacles (RunnerGame.stateRef c)) = [false; false]
  /\ map Obstacle.collided (obstacles (RunnerGame.stateRef c')) = [true; false]
  /\ isRunning (RunnerGame.stateRef c') = false
  /\ RunnerGame.gameState c' = GAME_OVER
  /\ List.length (particles (RunnerGame.stateRef c')) = 20%nat
  /\ List.length (particles (RunnerGame.stateRef c')) <> 10%nat
  /\ RunnerGame.balance c' = Num 0
  /\ RunnerGame.balance (onAnimationStart c') = Num 11
  /\ RunnerGame.balance (onAnimationStart (onAnimationStart c')) = Num 11.
Proof. vm_compute. repeat split; discriminate. Qed.

(** ** Gravity and the ground clamp *)

Lemma loop_player canvasHeight state rnd k :
  isRunning state = true ->
  player (result (loop canvasHeight state rnd k)) =
  player (playerPhysics canvasHeight (movePlayer (difficultyScaling state))).
Proof.
  intros Hrun. rewrite (loop_running _ _ Hrun), loopBody_player.
  unfold beforeSpawn. apply enemyDrift_player.
Qed.

Lemma movePlayer_vertical state :
  let p := player (movePlayer (difficultyScaling state)) in
  Player.y p = Player.y (player state)
  /\ Player.vy p = Player.vy (player state)
  /\ Player.h p = Player.h (player state).
Proof.
  cbv zeta. unfold movePlayer.
  cbn [player set_player Player.y Player.vy Player.h Player.set_worldX].
  now rewrite difficultyScaling_player.
Qed.

Lemma playerPhysics_lands canvasHeight state :
  let p := player state in
  let groundY := inject_Z canvasHeight - PLAYER_GROUND_OFFSET in
  groundY <= Player.y p + (Player.vy p + GRAVITY) + Player.h p ->
  let p' := player (playerPhysics canvasHeight state) in
  Player.vy p' = 0 /\ Player.grounded p' = true
  /\ Player.y p' = groundY - Player.h p.
Proof.
  intros p groundY H p'. subst p'. unfold playerPhysics. cbv zeta.
  cbn [Player.y Player.vy Player.h Player.set_y Player.set_vy].
  fold p. fold groundY. apply Qgeb_ge in H. rewrite H.
  cbn [player set_player]. repeat split.
Qed.

Lemma playerPhysics_airborne canvasHeight state :
  let p := player state in
  let groundY := inject_Z canvasHeight - PLAYER_GROUND_OFFSET in
  Player.y p + (Player.vy p + GRAVITY) + Player.h p < groundY ->
  let p' := player (playerPhysics canvasHeight state) in
  Player.vy p' = Player.vy p + GRAVITY /\ Player.grounded p' = false
  /\ Player.y p' = Player.y p + (Player.vy p + GRAVITY).
Proof.
  intros p groundY H p'. subst p'. unfold playerPhysics. cbv zeta.
  cbn [Player.y Player.vy Player.h Player.set_y Player.set_vy].
  fold p. fold groundY. apply Qgeb_lt in H. rewrite H.
  cbn [player set_player]. repeat split.
Qed.

(** ** How a frame ends: enemy distance, [isRunning] and the game state *)

Lemma beforeSpawn_enemy canvasHeight state :
  enemy (beforeSpawn canvasHeight state) =
  if Qltb (Enemy.distance (enemy state)) MAX_ENEMY_DISTANCE
  then Enemy.mk (Enemy.distance (enemy state) + ENEMY_RECOVERY_RATE * 0.5)
  else enemy state.
Proof.
  unfold beforeSpawn, enemyDrift, playerPhysics, movePlayer, difficultyScaling.
  cbv zeta. cbn [enemy set_player].
  destruct (_ =? _)%Z; cbn [enemy set_gameSpeed];
    destruct (Qltb _ _); reflexivity.
Qed.

Lemma atCollision_enemy canvasHeight state rnd k :
  enemy (result (atCollision canvasHeight state rnd k)) =
  enemy (beforeSpawn canvasHeight state).
Proof.
  unfold atCollision, afterSpawn; cbv zeta. unfold result at 1; cbn [fst].
  unfold removeOldObstacle.
  destruct (_ <? _)%nat; cbn [enemy set_obstacles];
    (destruct (spawnObstacle_run canvasHeight (beforeSpawn canvasHeight state)
                 rnd k) as [_ [-> | [-> _]]]; reflexivity).
Qed.

Lemma atCollision_isRunning canvasHeight state rnd k :
  isRunning (result (atCollision canvasHeight state rnd k)) = isRunning state.
Proof.
  unfold atCollision, afterSpawn; cbv zeta. unfold result at 1; cbn [fst].
  unfold removeOldObstacle.
  destruct (_ <? _)%nat; cbn [isRunning set_obstacles];
    (destruct (spawnObstacle_run canvasHeight (beforeSpawn canvasHeight state)
                 rnd k) as [_ [-> | [-> _]]];
     cbn [isRunning set_obstacles]; apply beforeSpawn_isRunning).
Qed.

Lemma afterSpawn_calls canvasHeight state rnd k :
  calls (afterSpawn canvasHeight state rnd k) = [].
Proof. unfold afterSpawn. apply spawnObstacle_run. Qed.

(** After the collision loop: untouched without a hit, ended with one. *)
Lemma lastGameState_app cs1 cs2 g :
  lastGameState (cs1 ++ cs2) g = lastGameState cs2 (lastGameState cs1 g).
Proof. apply fold_left_app. Qed.

Lemma lastGameState_gameOverCalls n g :
  lastGameState (gameOverCalls n) g =
  match n with O => g | S _ => GAME_OVER end.
Proof.
  revert g; induction n as [|n IH]; intros g; [reflexivity|].
  change (gameOverCalls (S n))
    with ([SetGameState GAME_OVER; SetHighScore] ++ gameOverCalls n).
  rewrite lastGameState_app, IH. now destruct n.
Qed.

Lemma afterCollision_outcome canvasHeight state rnd k :
  let r := afterCollision canvasHeight state rnd k in
  match trapsHit canvasHeight state rnd k with
  | O => enemy (result r) = enemy (beforeSpawn canvasHeight state)
         /\ isRunning (result r) = isRunning state
         /\ calls r = []
  | S _ => enemy (result r) = Enemy.mk 0
           /\ isRunning (result r) = false
           /\ forall g, lastGameState (calls r) g = GAME_OVER
  end.
Proof.
  cbv zeta. rewrite afterCollision_run. cbv zeta.
  pose proof (atCollision_enemy canvasHeight state rnd k) as He.
  pose proof (atCollision_isRunning canvasHeight state rnd k) as Hr.
  destruct (atCollision canvasHeight state rnd k) as [[s6 k6] c6].
  unfold result, calls in *. cbn [fst snd] in *.
  destruct (trapsHit canvasHeight state rnd k) as [|n] eqn:En.
  - cbn [strikes enemy isRunning set_obstacles]. now rewrite He, Hr.
  - destruct (strikes_some (S n) s6 rnd k6) as [Hrun7 Hen7]; [lia|].
    split; [exact Hen7|]. split; [exact Hrun7|].
    intros g. now rewrite lastGameState_gameOverCalls.
Qed.

Lemma loopBody_outcome canvasHeight state rnd k :
  let r := loopBody canvasHeight state rnd k in
  match trapsHit canvasHeight state rnd k with
  | O =>
      enemy (result r) = enemy (beforeSpawn canvasHeight state)
      /\ if Qleb (Enemy.distance (enemy (beforeSpawn canvasHeight state)))
              ENEMY_CATCH_DISTANCE
         then isRunning (result r) = false
              /\ forall g, lastGameState (calls r) g = GAME_OVER
         else isRunning (result r) = isRunning state
              /\ forall g, lastGameState (calls r) g = g
  | S _ =>
      enemy (result r) = Enemy.mk 0
      /\ isRunning (result r) = false
      /\ forall g, lastGameState (calls r) g = GAME_OVER
  end.
Proof.
  cbv zeta. rewrite loopBody_run.
  pose proof (afterCollision_outcome canvasHeight state rnd k) as H7.
  cbv zeta in H7. rewrite afterSpawn_calls.
  unfold afterScore, afterCatch; cbv zeta.
  destruct (afterCollision canvasHeight state rnd k) as [[s7 k7] c7].
  unfold result, cursor, calls in *. cbn [fst snd app] in *.
  rewrite enemyCatchCheck_run, accrueScore_run.
  destruct (trapsHit canvasHeight state rnd k) as [|n].
  - destruct H7 as (He & Hr & ->). rewrite He. cbn [app].
    destruct (Qleb _ _);
      cbn [fst snd updateParticles particles set_particles set_isRunning
           score renderedScore];
      case_if;
      unfold updateParticles;
      cbn [fst snd countFrame enemy isRunning set_frameCount set_score
           set_renderedScore set_particles set_isRunning];
      rewrite ?He, ?Hr; repeat split.
  - destruct H7 as (He & Hr & Hg).
    destruct (Qleb _ _);
      cbn [fst snd updateParticles particles set_particles set_isRunning
           score renderedScore];
      case_if;
      unfold updateParticles;
      cbn [fst snd countFrame enemy isRunning set_frameCount set_score
           set_renderedScore set_particles set_isRunning];
      rewrite ?He, ?Hr; repeat split;
      intros g; rewrite lastGameState_app, Hg; reflexivity.
Qed.

(** The setters leave the game state their last [SetGameState] names. *)
Lemma applyCalls_gameState state cs c :
  RunnerGame.gameState (fold_left (applyCall state) cs c) =
  lastGameState cs (RunnerGame.gameState c).
Proof.
  revert c; induction cs as [|u cs IH]; intros c; [reflexivity|].
  cbn [fold_left]. rewrite IH. unfold lastGameState. cbn [fold_left].
  now destruct u.
Qed.

Lemma keyDown_frame key snd c :
  isRunning (RunnerGame.stateRef (keyDown key snd c)) =
    isRunning (RunnerGame.stateRef c)
  /\ enemy (RunnerGame.stateRef (keyDown key snd c)) =
       enemy (RunnerGame.stateRef c)
  /\ RunnerGame.gameState (keyDown key snd c) = RunnerGame.gameState c.
Proof.
  unfold keyDown, handleKeyDown. destruct (isJumpKey key); [|repeat split].
  destruct (_ && _); repeat split.
Qed.

(** After the listener of the first render, the listener of a later
    render changes nothing more. *)
Lemma resizeListener_later gameState iw ih c :
  gameState <> START ->
  resizeListener gameState iw ih (resize iw ih c) = resize iw ih c.
Proof.
  intros Hg.
  assert (E : GameState_eqb gameState START = false)
    by (destruct gameState; [now contradiction Hg | reflexivity | reflexivity]).
  unfold resize, resizeListener. cbv zeta. rewrite E, andb_false_r.
  destruct c. cbn. now destruct (negb _ && _).
Qed.

Lemma resize_frame iw ih c :
  isRunning (RunnerGame.stateRef (resize iw ih c)) =
    isRunning (RunnerGame.stateRef c)
  /\ enemy (RunnerGame.stateRef (resize iw ih c)) =
       enemy (RunnerGame.stateRef c)
  /\ RunnerGame.gameState (resize iw ih c) = RunnerGame.gameState c.
Proof. unfold resize, resizeListener. cbv zeta. destruct (_ && _); repeat split. Qed.

Lemma onAnimationStart_frame c :
  RunnerGame.stateRef (onAnimationStart c) = RunnerGame.stateRef c
  /\ RunnerGame.gameState (onAnimationStart c) = RunnerGame.gameState c.
Proof.
  unfold onAnimationStart.
  destruct (negb _); [destruct (_ <? _)%Z|]; repeat split.
Qed.

Lemma requestWithdrawal_frame c :
  RunnerGame.stateRef (requestWithdrawal c) = RunnerGame.stateRef c
  /\ RunnerGame.gameState (requestWithdrawal c) = RunnerGame.gameState c.
Proof. unfold requestWithdrawal. destruct (jsnum_geb _ _); repeat split. Qed.

(** The flag and the React state agree: the loop runs exactly in PLAYING. *)
Lemma reachable_running_playing c :
  reachable c ->
  (isRunning (RunnerGame.stateRef c) = true <->
   RunnerGame.gameState c = PLAYING).
Proof.
  induction 1 as [saved iw ih | e c Hc IH Hen].
  - unfold mount.
    destruct (resize_frame iw ih
                (RunnerGame.setBalance
                   (loadBalance saved (RunnerGame.balance firstRender))
                   firstRender)) as (-> & _ & ->).
    cbn. split; discriminate.
  - destruct e; cbn [handle enabled] in *; try exact IH.
    + cbn. tauto.
    + destruct (isRunning (RunnerGame.stateRef c)) eqn:Hrun.
      * rewrite frame_stateRef. unfold frame.
        rewrite applyCalls_gameState.
        cbn [RunnerGame.gameState RunnerGame.set_stateRef].
        rewrite (loop_running _ _ Hrun).
        pose proof (loopBody_outcome (snd (RunnerGame.canvasSizeRef c))
                      (RunnerGame.stateRef c) rnd 0%nat) as Hout.
        cbv zeta in Hout.
        destruct (trapsHit _ _ _ _).
        -- destruct Hout as (_ & Hout). destruct (Qleb _ _).
           ++ destruct Hout as (-> & ->). split; discriminate.
           ++ destruct Hout as (-> & ->). now rewrite Hrun.
        -- destruct Hout as (_ & -> & ->). split; discriminate.
      * now rewrite frame_not_running, Hrun.
    + destruct (keyDown_frame k soundLoaded c) as (-> & _ & ->). exact IH.
    + destruct (resize_frame innerWidth innerHeight c) as (-> & _ & ->).
      exact IH.
    + destruct (onAnimationStart_frame c) as (-> & ->). exact IH.
    + destruct (requestWithdrawal_frame c) as (-> & ->). exact IH.
Qed.

(** ** C6: the jump *)

(** C6. A jump key is honoured exactly when the session is PLAYING and the
    player is grounded: then [vy] becomes [JUMP_FORCE] and [grounded] false at
    once, nothing else changes, and the same key pressed again before the
    next frame does nothing.  In every other case — in particular whenever
    [grounded] is false — the press changes nothing at all and requests no
    sound; the handler keeps no queue. *)
Theorem C6_jump_only_when_playing_and_grounded c key soundLoaded :
  reachable c ->
  isJumpKey key = true ->
  let state := RunnerGame.stateRef c in
  let c' := keyDown key soundLoaded c in
  (RunnerGame.gameState c = PLAYING ->
   Player.grounded (player state) = true ->
   c' = RunnerGame.set_stateRef
          (set_player
             (Player.set_grounded false
                (Player.set_vy JUMP_FORCE (player state)))
             state)
          c
   /\ Player.vy (player (RunnerGame.stateRef c')) = JUMP_FORCE
   /\ Player.grounded (player (RunnerGame.stateRef c')) = false
   /\ keyDown key soundLoaded c' = c')
  /\ (RunnerGame.gameState c <> PLAYING
      \/ Player.grounded (player state) = false ->
      c' = c /\ snd (handleKeyDown key soundLoaded state) = false).
Proof.
  intros Hc Hkey state c'. subst state c'.
  pose proof (reachable_running_playing c Hc) as Hinv.
  unfold keyDown, handleKeyDown. rewrite Hkey. split.
  - intros Hplay Hg. apply Hinv in Hplay. rewrite Hg, Hplay.
    cbn [andb fst RunnerGame.stateRef RunnerGame.set_stateRef player
         set_player Player.vy Player.grounded Player.set_grounded
         Player.set_vy isRunning].
    repeat split.
  - intros [Hno | Hair].
    + destruct (isRunning (RunnerGame.stateRef c)) eqn:Hrun.
      * exfalso. apply Hno. now apply Hinv.
        (* the flag is true only in PLAYING *)
      * rewrite andb_false_r. cbn [fst snd].
        split; [apply set_stateRef_same | reflexivity].
    + rewrite Hair. cbn [andb fst snd].
      split; [apply set_stateRef_same | reflexivity].
Qed.

Lemma C6_witness :
  Player.vy (player (RunnerGame.stateRef (keyDown Space true (session 0 1)))) =
  JUMP_FORCE.
Proof.
  refine (proj1 (proj2 (proj1 (C6_jump_only_when_playing_and_grounded
                                 (session 0 1) Space true _ eq_refl) _ _))).
  - apply session_reachable; [discriminate | reflexivity].
  - vm_compute. reflexivity.
  - vm_compute. reflexivity.
Defined.

(** ** C7: the withdrawal *)

(** C7. The withdrawal button succeeds exactly when the balance is a number
    [>= MIN_WITHDRAWAL_POINTS] = 1000: the balance becomes 0, the success
    overlay is shown, the modal is closed.  Below the threshold (999, say)
    and on [NaN] the click changes nothing. *)
Theorem C7_withdraw_threshold c :
  MIN_WITHDRAWAL_POINTS = 1000%Z
  /\ (forall z, RunnerGame.balance c = Num z ->
        (1000 <= z)%Z ->
        requestWithdrawal c =
          RunnerGame.setBalance (Num 0)
            (RunnerGame.setShowWithdraw false
               (RunnerGame.setWithdrawSuccess true c))
        /\ RunnerGame.balance (requestWithdrawal c) = Num 0
        /\ RunnerGame.withdrawSuccess (requestWithdrawal c) = true)
  /\ (forall z, RunnerGame.balance c = Num z ->
        (z < 1000)%Z -> requestWithdrawal c = c)
  /\ (RunnerGame.balance c = NaN -> requestWithdrawal c = c)
  /\ (RunnerGame.balance c = Num 1000 ->
      RunnerGame.balance (requestWithdrawal c) = Num 0)
  /\ (RunnerGame.balance c = Num 999 -> requestWithdrawal c = c).
Proof.
  assert (Hok : forall z, RunnerGame.balance c = Num z -> (1000 <= z)%Z ->
                  requestWithdrawal c =
                  RunnerGame.setBalance (Num 0)
                    (RunnerGame.setShowWithdraw false
                       (RunnerGame.setWithdrawSuccess true c))).
  { intros z Hb Hz. unfold requestWithdrawal. rewrite Hb.
    cbn [jsnum_geb]. unfold MIN_WITHDRAWAL_POINTS.
    now rewrite (proj2 (Z.leb_le 1000 z) Hz). }
  assert (Hno : forall z, RunnerGame.balance c = Num z -> (z < 1000)%Z ->
                  requestWithdrawal c = c).
  { intros z Hb Hz. unfold requestWithdrawal. rewrite Hb.
    cbn [jsnum_geb]. unfold MIN_WITHDRAWAL_POINTS.
    now rewrite (proj2 (Z.leb_gt 1000 z) Hz). }
  split; [reflexivity|]. split; [|split; [exact Hno|split; [|split]]].
  - intros z Hb Hz. rewrite (Hok z Hb Hz). repeat split.
  - intros Hb. unfold requestWithdrawal. now rewrite Hb.
  - intros Hb. rewrite (Hok 1000%Z Hb); [reflexivity | lia].
  - intros Hb. apply (Hno 999%Z Hb). lia.
Qed.

Lemma C7_witness :
  RunnerGame.balance (requestWithdrawal (withBalance 1000)) = Num 0
  /\ requestWithdrawal (withBalance 999) = withBalance 999.
Proof.
  split.
  - exact (proj1 (proj2 (proj2 (proj2 (proj2 (C7_withdraw_threshold
             (withBalance 1000)))))) eq_refl).
  - exact (proj2 (proj2 (proj2 (proj2 (proj2 (C7_withdraw_threshold
             (withBalance 999)))))) eq_refl).
Defined.

(** ** C8: the collision test *)

Lemma overlaps_spec a b :
  overlaps a b = true <->
  minX a < maxX b /\ minX b < maxX a /\ minY a < maxY b /\ minY b < maxY a.
Proof.
  unfold overlaps. rewrite !andb_true_iff, !Qltb_lt, !Qgtb_gt. tauto.
Qed.

(** C8, as the code has it.  The collision loop tests every untriggered
    obstacle, and its test is the overlap of the player's whole hitbox with
    the obstacle's box shrunk inward by the padding on all four sides: only
    the obstacle's box is shrunk.  Shrinking both boxes gives a stricter
    test, which implies the code's. *)
Theorem C8_collision_test_shrinks_obstacle_only :
  (forall p obs,
     hits p obs = overlaps (playerBox p) (shrink hitboxPadding (obstacleBox obs)))
  /\ (forall p obs, hitsBothShrunk p obs = true -> hits p obs = true)
  /\ (forall todo state rnd k,
        fst (result (collisionLoop todo state rnd k)) =
        map (fun obs =>
               if negb (Obstacle.collided obs) && hits (player state) obs
               then Obstacle.set_collided true obs else obs)
          todo).
Proof.
  assert (H1 : forall p obs,
             hits p obs =
             overlaps (playerBox p) (shrink hitboxPadding (obstacleBox obs)))
    by reflexivity.
  split; [exact H1|]. split.
  - intros p obs H. rewrite H1. unfold hitsBothShrunk in H.
    apply overlaps_spec in H. apply overlaps_spec.
    unfold shrink, playerBox, obstacleBox, hitboxPadding in *.
    cbn [minX minY maxX maxY] in *. repeat split; lra.
  - intros todo state rnd k. now rewrite collisionLoop_run.
Qed.

Lemma C8_witness :
  hits (Player.mk 0 620 0 60 60 true 0) (Obstacle.mk 20 635 60 45 false) = true.
Proof.
  refine (proj1 (proj2 C8_collision_test_shrinks_obstacle_only)
            (Player.mk 0 620 0 60 60 true 0)
            (Obstacle.mk 20 635 60 45 false) _).
  reflexivity.
Defined.

(** C8 as stated fails: a player whose hitbox reaches 15 into a trap's box
    is hit by the code's test, but the two boxes shrunk by 10 each are
    disjoint. *)
Lemma C8_counterexample :
  let p := Player.mk 0 620 0 60 60 true 0 in
  let obs := Obstacle.mk 45 635 60 45 false in
  hits p obs = true /\ hitsBothShrunk p obs = false.
Proof. split; reflexivity. Qed.

(** ** C9: loading the persisted balance *)

Lemma parseInt10_run s :
  parseInt10 s =
  match leadingDigits s with
  | [] => NaN
  | digits => Num (signOf (trimStart s) * digitsValue digits)
  end.
Proof.
  unfold parseInt10, leadingDigits, unsignedPart, signOf.
  destruct (trimStart s) as [|c r]; [reflexivity|].
  destruct c as [|c]; [reflexivity|].
  do 6 (destruct c as [c|c|]; try reflexivity).
Qed.

Lemma isDigit_not_space c : isDigit c = true -> isWhiteSpace c = false.
Proof.
  unfold isDigit, isWhiteSpace.
  rewrite andb_true_iff, !N.leb_le.
  intros [H1 H2].
  repeat match goal with
         | |- context [(c =? ?n)%N] =>
             destruct (N.eqb_spec c n); [lia|]
         end.
  cbn [orb]. destruct (N.leb_spec 8192 c); [lia | reflexivity].
Qed.

Lemma trimStart_digit c r : isDigit c = true -> trimStart (c :: r) = c :: r.
Proof. intros H. cbn [trimStart]. now rewrite (isDigit_not_space c H). Qed.

Lemma digitPrefix_digit c r :
  isDigit c = true -> digitPrefix (c :: r) = c :: digitPrefix r.
Proof. intros H. cbn [digitPrefix]. now rewrite H. Qed.

Lemma digitPrefix_all l : forallb isDigit l = true -> digitPrefix l = l.
Proof.
  induction l as [|c l IH]; [reflexivity|]. cbn [forallb digitPrefix].
  intros [-> Hl]%andb_true_iff. now rewrite IH.
Qed.

(** On the encoding of an integer [parseInt] skips nothing and reads
    everything behind the sign. *)
Lemma encoded_parts s :
  encodesInteger s = true ->
  trimStart s = s /\ leadingDigits s = unsignedPart s /\ unsignedPart s <> [].
Proof.
  unfold encodesInteger, leadingDigits, unsignedPart.
  destruct s as [|c r]; [discriminate|].
  destruct (N.eqb_spec c 45) as [-> | Hc].
  - destruct r as [|d r]; [discriminate|]. intros Hd.
    cbn [trimStart]. change (isWhiteSpace 45) with false. cbv iota.
    cbn [N.eqb Pos.eqb orb]. rewrite (digitPrefix_all _ Hd).
    repeat split. discriminate.
  - intros Hd. pose proof Hd as [Hc0 _]%andb_true_iff.
    rewrite (trimStart_digit c r Hc0).
    destruct (N.eqb_spec c 43) as [-> | Hc']; [discriminate Hc0|].
    destruct (N.eqb_spec c 45) as [-> | _]; [now contradiction Hc|].
    cbn [orb]. rewrite (digitPrefix_all _ Hd). repeat split. discriminate.
Qed.

(** C9, as the code has it.  An absent or empty stored value leaves the
    balance at its initial 0.  A stored string in which decimal digits
    follow optional leading white space and an optional sign sets the
    balance to the integer these digits write, with that sign, whatever
    comes after the digits; this is stated for digits that write at most
    2^53, which a JavaScript number holds exactly.  So every base-10
    encoding of such an integer is accepted as it stands. *)
Theorem C9_load_balance :
  loadBalance None (Num 0) = Num 0
  /\ loadBalance (Some []) (Num 0) = Num 0
  /\ (forall saved iw ih,
        RunnerGame.balance (mount saved iw ih) = loadBalance saved (Num 0))
  /\ (forall s,
        leadingDigits s <> [] ->
        (digitsValue (leadingDigits s) <= 2 ^ 53)%Z ->
        loadBalance (Some s) (Num 0) =
        Num (signOf (trimStart s) * digitsValue (leadingDigits s)))
  /\ (forall s,
        encodesInteger s = true ->
        (digitsValue (unsignedPart s) <= 2 ^ 53)%Z ->
        loadBalance (Some s) (Num 0) =
        Num (signOf s * digitsValue (unsignedPart s))).
Proof.
  assert (Hne : forall s, s <> [] ->
                  loadBalance (Some s) (Num 0) = parseInt10 s).
  { intros [|c r] H; [contradiction | reflexivity]. }
  split; [reflexivity|]. split; [reflexivity|]. split; [|split].
  - intros saved iw ih. unfold mount, resize, resizeListener. cbv zeta.
    now destruct (_ && _).
  - intros s Hd _. rewrite Hne by (intros ->; now apply Hd).
    rewrite parseInt10_run.
    destruct (leadingDigits s); [contradiction | reflexivity].
  - intros s H _. rewrite Hne by (destruct s; [discriminate | discriminate]).
    rewrite parseInt10_run.
    destruct (encoded_parts s H) as (-> & -> & Hbody).
    destruct (unsignedPart s); [contradiction | reflexivity].
Qed.

Lemma C9_witness :
  loadBalance (Some (jsstring_of "  -12px")) (Num 0) = Num (-12).
Proof.
  refine (proj1 (proj2 (proj2 (proj2 C9_load_balance)))
            (jsstring_of "  -12px") _ _).
  - discriminate.
  - vm_compute. discriminate.
Defined.

(** C9 as stated fails: "abc" encodes no integer and the balance becomes
    [NaN]; "12abc" encodes none either and the balance becomes 12. *)
Lemma C9_counterexample :
  encodesInteger (jsstring_of "abc") = false
  /\ loadBalance (Some (jsstring_of "abc")) (Num 0) = NaN
  /\ loadBalance (Some (jsstring_of "abc")) (Num 0) <> Num 0
  /\ encodesInteger (jsstring_of "12abc") = false
  /\ loadBalance (Some (jsstring_of "12abc")) (Num 0) = Num 12.
Proof. repeat split. discriminate. Qed.

(** ** C10: the pursuer's distance *)

Lemma beforeSpawn_distance canvasHeight state :
  Enemy.distance (enemy state) <=
  Enemy.distance (enemy (beforeSpawn canvasHeight state)).
Proof.
  rewrite beforeSpawn_enemy. destruct (Qltb _ _); cbn [Enemy.distance].
  - unfold ENEMY_RECOVERY_RATE. lra.
  - lra.
Qed.

Lemma caught_far d :
  300 <= d -> Qleb d ENEMY_CATCH_DISTANCE = false.
Proof. intros H. apply Qleb_gt. unfold ENEMY_CATCH_DISTANCE. lra. Qed.

(** A frame from a state with the enemy at 300 or more: without a trap hit
    the distance does not shrink and the run goes on; with one the distance
    is 0 and the run is over. *)
Lemma frame_distance rnd c :
  let state := RunnerGame.stateRef c in
  let state' := RunnerGame.stateRef (frame rnd c) in
  isRunning state = true ->
  300 <= Enemy.distance (enemy state) ->
  match trapsHit (snd (RunnerGame.canvasSizeRef c)) state rnd 0 with
  | O => Enemy.distance (enemy state) <= Enemy.distance (enemy state')
         /\ isRunning state' = true
  | S _ => enemy state' = Enemy.mk 0 /\ isRunning state' = false
  end.
Proof.
  cbv zeta. intros Hrun Hd. rewrite frame_stateRef, (loop_running _ _ Hrun).
  pose proof (loopBody_outcome (snd (RunnerGame.canvasSizeRef c))
                (RunnerGame.stateRef c) rnd 0%nat) as Hout.
  cbv zeta in Hout.
  pose proof (beforeSpawn_distance (snd (RunnerGame.canvasSizeRef c))
                (RunnerGame.stateRef c)) as Hge.
  destruct (trapsHit _ _ _ _).
  - destruct Hout as (-> & Hout).
    rewrite caught_far in Hout by lra. destruct Hout as (-> & _).
    now split.
  - destruct Hout as (-> & -> & _). now split.
Qed.

Lemma reachable_distance c :
  reachable c ->
  isRunning (RunnerGame.stateRef c) = true ->
  300 <= Enemy.distance (enemy (RunnerGame.stateRef c)).
Proof.
  induction 1 as [saved iw ih | e c Hc IH Hen].
  - unfold mount.
    destruct (resize_frame iw ih
                (RunnerGame.setBalance
                   (loadBalance saved (RunnerGame.balance firstRender))
                   firstRender)) as (-> & _ & _).
    discriminate.
  - destruct e; cbn [handle enabled] in *; try exact IH.
    + intros _. cbn. lra.
    + destruct (isRunning (RunnerGame.stateRef c)) eqn:Hrun.
      * pose proof (frame_distance rnd c) as Hf. cbv zeta in Hf.
        specialize (Hf Hrun (IH eq_refl)).
        destruct (trapsHit _ _ _ _).
        -- intros _. specialize (IH eq_refl). lra.
        -- destruct Hf as (_ & ->). discriminate.
      * now rewrite frame_not_running, Hrun.
    + destruct (keyDown_frame k soundLoaded c) as (-> & -> & _). exact IH.
    + destruct (resize_frame innerWidth innerHeight c) as (-> & -> & _).
      exact IH.
    + destruct (onAnimationStart_frame c) as (-> & _). exact IH.
    + destruct (requestWithdrawal_frame c) as (-> & _). exact IH.
Qed.

(** C10. In a session, while the loop runs the enemy is at 300 or more.
    No event other than a reset makes the distance smaller, except an
    animation frame whose collision loop finds an untriggered trap under the
    player: that frame sets the distance to 0 and ends the run.  And the
    catch check of a frame ([distance <= 30]) can fire only after the
    collision loop of the same frame has hit a trap and set the distance
    to 0. *)
Theorem C10_pursuer_distance c :
  reachable c ->
  let state := RunnerGame.stateRef c in
  let canvasHeight := snd (RunnerGame.canvasSizeRef c) in
  (isRunning state = true -> 300 <= Enemy.distance (enemy state))
  /\ (forall e,
        enabled e c -> e <> Reset ->
        Enemy.distance (enemy state) <=
          Enemy.distance (enemy (RunnerGame.stateRef (handle e c)))
        \/ exists rnd,
             e = AnimationFrame rnd
             /\ isRunning state = true
             /\ (0 < trapsHit canvasHeight state rnd 0)%nat
             /\ enemy (RunnerGame.stateRef (handle e c)) = Enemy.mk 0
             /\ isRunning (RunnerGame.stateRef (handle e c)) = false)
  /\ (forall rnd k,
        isRunning state = true ->
        let r := afterCollision canvasHeight state rnd k in
        Qleb (Enemy.distance (enemy (result r))) ENEMY_CATCH_DISTANCE = true ->
        (0 < trapsHit canvasHeight state rnd k)%nat
        /\ enemy (result r) = Enemy.mk 0).
Proof.
  intros Hc. cbv zeta.
  pose proof (reachable_distance c Hc) as Hd.
  split; [exact Hd|]. split.
  - intros e Hen Hne. destruct e; cbn [handle enabled] in *;
      try (left; apply Qle_refl).
    + contradiction.
    + destruct (isRunning (RunnerGame.stateRef c)) eqn:Hrun.
      * pose proof (frame_distance rnd c) as Hf. cbv zeta in Hf.
        specialize (Hf Hrun (Hd eq_refl)).
        destruct (trapsHit _ _ _ _) eqn:En.
        -- left. apply Hf.
        -- right. exists rnd. rewrite En. destruct Hf as (He & Hr).
           repeat split; [lia | exact He | exact Hr].
      * left. rewrite frame_not_running by assumption. apply Qle_refl.
    + left. destruct (keyDown_frame k soundLoaded c) as (_ & -> & _).
      apply Qle_refl.
    + left. destruct (resize_frame innerWidth innerHeight c) as (_ & -> & _).
      apply Qle_refl.
    + left. destruct (onAnimationStart_frame c) as (-> & _). apply Qle_refl.
    + left. destruct (requestWithdrawal_frame c) as (-> & _). apply Qle_refl.
  - intros rnd k Hrun.
    pose proof (afterCollision_outcome (snd (RunnerGame.canvasSizeRef c))
                  (RunnerGame.stateRef c) rnd k) as Hout.
    cbv zeta in Hout.
    pose proof (beforeSpawn_distance (snd (RunnerGame.canvasSizeRef c))
                  (RunnerGame.stateRef c)) as Hge.
    specialize (Hd Hrun).
    destruct (trapsHit _ _ _ _).
    + destruct Hout as (-> & _). rewrite caught_far by lra. discriminate.
    + destruct Hout as (-> & _). intros _. split; [lia | reflexivity].
Qed.

Lemma C10_witness :
  300 <= Enemy.distance (enemy (RunnerGame.stateRef (session 0 50))).
Proof.
  refine (proj1 (C10_pursuer_distance (session 0 50) _) _).
  - apply session_reachable; [discriminate | reflexivity].
  - vm_compute. reflexivity.
Defined.

(** * Further properties of the simulation *)

(** ** Invariants of [stateRef.current], in general *)

(** A property of the simulation record holds in every reachable state as
    soon as the initial record and every reset record have it and a running
    frame, a key press and a repositioning of the player keep it. *)
Lemma reachable_state_invariant (P : State -> Prop) :
  P initialState ->
  (forall canvasH, P (resetState canvasH)) ->
  (forall canvasHeight state rnd,
     unitInterval rnd -> isRunning state = true -> P state ->
     P (result (loopBody canvasHeight state rnd 0%nat))) ->
  (forall key soundLoaded state,
     P state -> P (fst (handleKeyDown key soundLoaded state))) ->
  (forall y state, P state -> P (set_player (Player.set_y y (player state)) state)) ->
  forall c, reachable c -> P (RunnerGame.stateRef c).
Proof.
  intros Hinit Hreset Hloop Hkey Hy.
  assert (Hresize : forall iw ih c,
             P (RunnerGame.stateRef c) ->
             P (RunnerGame.stateRef (resize iw ih c))).
  { intros iw ih c Hc. unfold resize, resizeListener. cbv zeta.
    destruct (_ && _); [|exact Hc].
    cbn [RunnerGame.stateRef RunnerGame.set_stateRef RunnerGame.set_canvasSizeRef].
    now apply Hy. }
  induction 1 as [saved iw ih | e c Hc IH Hen].
  - unfold mount. apply Hresize. exact Hinit.
  - destruct e; cbn [handle enabled] in *; try exact IH.
    + apply Hreset.
    + rewrite frame_stateRef.
      destruct (isRunning (RunnerGame.stateRef c)) eqn:Hrun.
      * rewrite (loop_running _ _ Hrun). now apply Hloop.
      * unfold loop. rewrite Hrun. exact IH.
    + now apply Hkey.
    + now apply Hresize.
    + now rewrite (proj1 (onAnimationStart_frame c)).
    + now rewrite (proj1 (requestWithdrawal_frame c)).
Qed.

(** ** The counters through a frame *)

Lemma beforeSpawn_counters canvasHeight state :
  score (beforeSpawn canvasHeight state) = score state
  /\ renderedScore (beforeSpawn canvasHeight state) = renderedScore state
  /\ frameCount (beforeSpawn canvasHeight state) = frameCount state.
Proof.
  unfold beforeSpawn, enemyDrift, playerPhysics, movePlayer, difficultyScaling.
  destruct (Qltb _ _); cbn [score renderedScore frameCount set_enemy set_player];
    destruct (_ =? _)%Z; repeat split.
Qed.

Lemma spawnObstacle_counters canvasHeight state rnd k :
  counters (result (spawnObstacle canvasHeight state rnd k)) = counters state.
Proof.
  destruct (spawnObstacle_run canvasHeight state rnd k) as [_ [-> | [-> _]]];
    reflexivity.
Qed.

Lemma removeOldObstacle_counters state :
  counters (removeOldObstacle state) = counters state.
Proof. unfold removeOldObstacle. now destruct (_ <? _)%nat. Qed.

Lemma collisionDetection_counters state rnd k :
  counters (result (collisionDetection state rnd k)) = counters state.
Proof.
  rewrite collisionDetection_run. unfold result, counters.
  cbn [fst score renderedScore frameCount set_obstacles].
  destruct (strikes_frame (strikeCount (player state) (obstacles state))
              state rnd k) as (_ & _ & _ & -> & -> & ->).
  reflexivity.
Qed.

Lemma enemyCatchCheck_counters state rnd k :
  counters (result (enemyCatchCheck state rnd k)) = counters state.
Proof. rewrite enemyCatchCheck_run. now destruct (Qleb _ _). Qed.

Lemma afterCatch_counters canvasHeight state rnd k :
  counters (result (afterCatch canvasHeight state rnd k)) = counters state.
Proof.
  unfold afterCatch; cbv zeta. rewrite enemyCatchCheck_counters.
  unfold afterCollision; cbv zeta.
  rewrite collisionDetection_counters, removeOldObstacle_counters.
  unfold afterSpawn. rewrite spawnObstacle_counters.
  unfold counters.
  destruct (beforeSpawn_counters canvasHeight state) as (-> & -> & ->).
  reflexivity.
Qed.

Lemma accrueScore_counters state rnd k :
  counters (result (accrueScore state rnd k)) =
  (score state + 0.1,
   Z.max (renderedScore state) (Qfloor (score state + 0.1)),
   frameCount state).
Proof.
  rewrite accrueScore_run. unfold counters.
  destruct (Z.ltb_spec (renderedScore state) (Qfloor (score state + 0.1)));
    unfold result; cbn [fst score renderedScore frameCount set_score
                        set_renderedScore]; f_equal; f_equal; lia.
Qed.

Lemma loopBody_counters canvasHeight state rnd k :
  counters (result (loopBody canvasHeight state rnd k)) =
  (score state + 0.1,
   Z.max (renderedScore state) (Qfloor (score state + 0.1)),
   (frameCount state + 1)%Z).
Proof.
  rewrite loopBody_result. unfold afterScore; cbv zeta.
  pose proof (accrueScore_counters
                (updateParticles (result (afterCatch canvasHeight state rnd k)))
                rnd (cursor (afterCatch canvasHeight state rnd k))) as H.
  pose proof (afterCatch_counters canvasHeight state rnd k) as H8.
  destruct (accrueScore _ rnd _) as [[s10 k10] c10].
  destruct (afterCatch canvasHeight state rnd k) as [[s8 k8] c8].
  unfold result, counters in *. cbn [fst] in *.
  cbn [updateParticles score renderedScore frameCount set_particles] in H.
  cbn [countFrame score renderedScore frameCount set_frameCount].
  congruence.
Qed.

Lemma loopBody_score canvasHeight state rnd k :
  score (result (loopBody canvasHeight state rnd k)) = score state + 0.1.
Proof.
  pose proof (loopBody_counters canvasHeight state rnd k) as H.
  unfold counters in H. congruence.
Qed.

Lemma loopBody_renderedScore canvasHeight state rnd k :
  renderedScore (result (loopBody canvasHeight state rnd k)) =
  Z.max (renderedScore state) (Qfloor (score state + 0.1)).
Proof.
  pose proof (loopBody_counters canvasHeight state rnd k) as H.
  unfold counters in H. congruence.
Qed.

Lemma loopBody_frameCount canvasHeight state rnd k :
  frameCount (result (loopBody canvasHeight state rnd k)) =
  (frameCount state + 1)%Z.
Proof.
  pose proof (loopBody_counters canvasHeight state rnd k) as H.
  unfold counters in H. congruence.
Qed.

Lemma loopBody_calls canvasHeight state rnd k :
  calls (loopBody canvasHeight state rnd k) =
  calls (afterSpawn canvasHeight state rnd k)
  ++ calls (afterCollision canvasHeight state rnd k)
  ++ calls (afterCatch canvasHeight state rnd k)
  ++ calls (afterScore canvasHeight state rnd k).
Proof. now rewrite loopBody_run. Qed.

(** ** The score shown in the HUD *)

Lemma applyCalls_score state cs c :
  RunnerGame.score (fold_left (applyCall state) cs c) =
  lastScore cs (RunnerGame.score c).
Proof.
  revert c; induction cs as [|u cs IH]; intros c; [reflexivity|].
  cbn [fold_left]. rewrite IH. unfold lastScore. cbn [fold_left].
  now destruct u.
Qed.

Lemma lastScore_app cs1 cs2 n :
  lastScore (cs1 ++ cs2) n = lastScore cs2 (lastScore cs1 n).
Proof. apply fold_left_app. Qed.

Lemma lastScore_gameOverCalls k n : lastScore (gameOverCalls k) n = n.
Proof.
  induction k as [|k IH]; [reflexivity|].
  change (gameOverCalls (S k))
    with ([SetGameState GAME_OVER; SetHighScore] ++ gameOverCalls k).
  now rewrite lastScore_app.
Qed.

Lemma afterCollision_calls canvasHeight state rnd k :
  calls (afterCollision canvasHeight state rnd k) =
  gameOverCalls (trapsHit canvasHeight state rnd k).
Proof. now rewrite afterCollision_run. Qed.

Lemma afterCatch_calls canvasHeight state rnd k :
  calls (afterCatch canvasHeight state rnd k) = []
  \/ calls (afterCatch canvasHeight state rnd k) = gameOverCalls 1.
Proof.
  unfold afterCatch; cbv zeta. rewrite enemyCatchCheck_run.
  destruct (Qleb _ _); [now right | now left].
Qed.

Lemma afterScore_calls canvasHeight state rnd k :
  calls (afterScore canvasHeight state rnd k) =
  if (renderedScore state <? Qfloor (score state + 0.1))%Z
  then [SetScore (Qfloor (score state + 0.1))] else [].
Proof.
  unfold afterScore; cbv zeta. rewrite accrueScore_run.
  pose proof (afterCatch_counters canvasHeight state rnd k) as H8.
  destruct (afterCatch canvasHeight state rnd k) as [[s8 k8] c8].
  unfold result, cursor, calls, counters in *. cbn [fst snd] in *.
  unfold updateParticles. cbn [score renderedScore set_particles].
  assert (Hs : score s8 = score state) by congruence.
  assert (Hr : renderedScore s8 = renderedScore state) by congruence.
  rewrite Hs, Hr. now destruct (_ <? _)%Z.
Qed.

Lemma lastScore_set m n : lastScore [SetScore m] n = m.
Proof. reflexivity. Qed.

Lemma lastScore_nil n : lastScore [] n = n.
Proof. reflexivity. Qed.

Lemma loopBody_lastScore canvasHeight state rnd k n :
  lastScore (calls (loopBody canvasHeight state rnd k)) n =
  if (renderedScore state <? Qfloor (score state + 0.1))%Z
  then Qfloor (score state + 0.1) else n.
Proof.
  rewrite loopBody_calls.
  rewrite afterSpawn_calls, afterCollision_calls, afterScore_calls.
  rewrite app_nil_l, !lastScore_app, lastScore_gameOverCalls.
  destruct (afterCatch_calls canvasHeight state rnd k) as [-> | ->];
    rewrite ?lastScore_gameOverCalls, ?lastScore_nil;
    destruct (_ <? _)%Z;
    first [apply lastScore_set | apply lastScore_nil].
Qed.

Lemma Qfloor_step q : (Qfloor q <= Qfloor (q + 0.1))%Z.
Proof. apply Qfloor_resp_le. lra. Qed.

Lemma reachable_hud_score c :
  reachable c ->
  RunnerGame.score c = Qfloor (score (RunnerGame.stateRef c))
  /\ renderedScore (RunnerGame.stateRef c) = Qfloor (score (RunnerGame.stateRef c))
  /\ 0 <= score (RunnerGame.stateRef c).
Proof.
  induction 1 as [saved iw ih | e c Hc IH Hen].
  - unfold mount, resize, resizeListener. cbv zeta. destruct (_ && _); cbn; repeat split;
      discriminate.
  - destruct e; cbn [handle enabled] in *; try exact IH.
    + cbn. repeat split. discriminate.
    + destruct (isRunning (RunnerGame.stateRef c)) eqn:Hrun;
        [|now rewrite frame_not_running].
      destruct IH as (Hui & Hrs & Hpos).
      rewrite frame_stateRef. unfold frame. rewrite applyCalls_score.
      cbn [RunnerGame.score RunnerGame.set_stateRef].
      rewrite (loop_running _ _ Hrun), loopBody_lastScore.
      rewrite loopBody_score, loopBody_renderedScore.
      pose proof (Qfloor_step (score (RunnerGame.stateRef c))) as Hfl.
      rewrite Hrs, Hui.
      destruct (Z.ltb_spec (Qfloor (score (RunnerGame.stateRef c)))
                  (Qfloor (score (RunnerGame.stateRef c) + 0.1)));
        repeat split; try lia; lra.
    + unfold keyDown, handleKeyDown.
      destruct (isJumpKey k); [destruct (_ && _)|]; exact IH.
    + unfold resize, resizeListener. cbv zeta. destruct (_ && _); exact IH.
    + unfold onAnimationStart.
      destruct (negb _); [destruct (_ <? _)%Z|]; exact IH.
    + unfold requestWithdrawal. destruct (jsnum_geb _ _); exact IH.
Qed.

(** X1. The score of the HUD is the floor of the simulation's score, in
    every reachable state; so is [renderedScore], and the score is never
    negative. *)
Theorem X1_hud_score_is_floor c :
  reachable c ->
  RunnerGame.score c = Qfloor (score (RunnerGame.stateRef c))
  /\ renderedScore (RunnerGame.stateRef c) = Qfloor (score (RunnerGame.stateRef c))
  /\ 0 <= score (RunnerGame.stateRef c).
Proof. apply reachable_hud_score. Qed.

Lemma X1_witness :
  RunnerGame.score (session 0 60) =
  Qfloor (score (RunnerGame.stateRef (session 0 60))).
Proof.
  refine (proj1 (X1_hud_score_is_floor (session 0 60) _)).
  apply session_reachable; [discriminate | reflexivity].
Defined.

(** ** The difficulty curve *)

Lemma difficultySteps_succ f :
  (0 <= f)%Z ->
  difficultySteps (f + 1) =
  if (Z.rem f 600 =? 0)%Z then (difficultySteps f + 1)%Z else difficultySteps f.
Proof.
  intros Hf. unfold difficultySteps. rewrite Z.rem_mod_nonneg by lia.
  destruct (Z.eqb_spec (f mod 600) 0) as [E | E];
    Z.div_mod_to_equations; lia.
Qed.

Lemma handleKeyDown_speed key soundLoaded state :
  gameSpeed (fst (handleKeyDown key soundLoaded state)) = gameSpeed state
  /\ frameCount (fst (handleKeyDown key soundLoaded state)) = frameCount state.
Proof.
  unfold handleKeyDown. destruct (isJumpKey key); [|now split].
  destruct (_ && _); now split.
Qed.

Lemma reachable_game_speed c :
  reachable c ->
  (0 <= frameCount (RunnerGame.stateRef c))%Z
  /\ gameSpeed (RunnerGame.stateRef c) ==
     INITIAL_GAME_SPEED
     + 0.5 * inject_Z (difficultySteps (frameCount (RunnerGame.stateRef c))).
Proof.
  revert c.
  apply (reachable_state_invariant
           (fun state =>
              (0 <= frameCount state)%Z
              /\ gameSpeed state ==
                 INITIAL_GAME_SPEED
                 + 0.5 * inject_Z (difficultySteps (frameCount state)))).
  - split; [discriminate | reflexivity].
  - intros canvasH. split; [discriminate | reflexivity].
  - intros canvasHeight state rnd _ _ [Hf Hg].
    rewrite loopBody_frameCount, loopBody_gameSpeed. split; [lia|].
    rewrite (difficultySteps_succ _ Hf). unfold difficultyScaling.
    destruct (_ =? _)%Z; cbn [gameSpeed set_gameSpeed];
      [rewrite inject_Z_plus | idtac]; rewrite Hg;
      unfold INITIAL_GAME_SPEED; [|reflexivity].
    change (inject_Z 1) with 1. ring.
  - intros key soundLoaded state H.
    now destruct (handleKeyDown_speed key soundLoaded state) as [-> ->].
  - intros y state H. exact H.
Qed.

(** A reachable state with the initial game speed has run no frame: the
    first frame of a run already takes a difficulty step. *)
Lemma initial_speed_no_frame c :
  reachable c ->
  gameSpeed (RunnerGame.stateRef c) == INITIAL_GAME_SPEED ->
  frameCount (RunnerGame.stateRef c) = 0%Z.
Proof.
  intros Hc Hg. destruct (reachable_game_speed c Hc) as [Hf Hs].
  rewrite Hg in Hs.
  assert (E : difficultySteps (frameCount (RunnerGame.stateRef c)) = 0%Z).
  { apply inject_Z_injective. change (inject_Z 0) with 0. lra. }
  unfold difficultySteps in E. Z.div_mod_to_equations. lia.
Qed.

(** ** C5: one tick from the start *)

(** C5, as the code has it.  A running state with [gameSpeed] 10 is the
    start of a run: in every state a session can reach it has run no frame
    ([frameCount] is 0, as [resetGame] leaves it).  One tick from it, with
    [worldX] 0, takes the difficulty step of frame 0 first and moves the
    player by the new speed: [gameSpeed] and [worldX] are 10.5 after the
    tick, whatever is spawned.  Gravity is added to [vy] and the new [vy] to
    [y]; then the ground clamp applies.  A player whose bottom edge reaches
    the ground line of the canvas — in particular one standing on it with
    [vy + GRAVITY >= 0] — ends the tick on the line with [vy = 0] and
    [grounded = true]; a player that stays above the line ends with [vy]
    increased by [GRAVITY], [y] increased by the new [vy], and
    [grounded = false]. *)
Theorem C5_one_tick_from_start rnd c :
  reachable c ->
  let state := RunnerGame.stateRef c in
  isRunning state = true ->
  gameSpeed state == 10 ->
  Player.worldX (player state) == 0 ->
  let p := player state in
  let state' := RunnerGame.stateRef (frame rnd c) in
  let p' := player state' in
  let groundY :=
    inject_Z (snd (RunnerGame.canvasSizeRef c)) - PLAYER_GROUND_OFFSET in
  frameCount state = 0%Z
  /\ gameSpeed state' == 10.5
  /\ Player.worldX p' == 10.5
  /\ (groundY <= Player.y p + (Player.vy p + GRAVITY) + Player.h p ->
      Player.vy p' = 0 /\ Player.grounded p' = true
      /\ Player.y p' = groundY - Player.h p)
  /\ (Player.y p + Player.h p == groundY -> 0 <= Player.vy p + GRAVITY ->
      Player.vy p' = 0 /\ Player.grounded p' = true
      /\ Player.y p' == Player.y p)
  /\ (Player.y p + (Player.vy p + GRAVITY) + Player.h p < groundY ->
      Player.vy p' = Player.vy p + GRAVITY /\ Player.grounded p' = false
      /\ Player.y p' = Player.y p + (Player.vy p + GRAVITY)).
Proof.
  intros Hc state Hrun Hspeed Hx p state' p' groundY.
  assert (Hf : frameCount state = 0%Z)
    by (apply initial_speed_no_frame; assumption).
  assert (Hs : gameSpeed (difficultyScaling state) == 10.5).
  { unfold difficultyScaling. rewrite Hf. cbn [Z.rem Z.eqb Z.quotrem snd].
    cbn [gameSpeed set_gameSpeed]. lra. }
  assert (Est : state' =
                result (loop (snd (RunnerGame.canvasSizeRef c)) state
                          rnd 0%nat)) by apply frame_stateRef.
  assert (Hg' : gameSpeed state' = gameSpeed (difficultyScaling state)).
  { rewrite Est, (loop_running _ _ Hrun). apply loopBody_gameSpeed. }
  assert (Hw : Player.worldX p' =
               Player.worldX p + gameSpeed (difficultyScaling state)).
  { subst p'. rewrite Est, (loop_running _ _ Hrun). apply loopBody_worldX. }
  assert (Hp : p' = player (playerPhysics (snd (RunnerGame.canvasSizeRef c))
                              (movePlayer (difficultyScaling state)))).
  { subst p'. rewrite Est. now apply loop_player. }
  destruct (movePlayer_vertical state) as (Hy & Hvy & Hh).
  assert (Hland : groundY <= Player.y p + (Player.vy p + GRAVITY) + Player.h p ->
                  Player.vy p' = 0 /\ Player.grounded p' = true
                  /\ Player.y p' = groundY - Player.h p).
  { intros H. rewrite Hp. subst p. rewrite <- Hh.
    apply playerPhysics_lands. now rewrite Hy, Hvy, Hh. }
  split; [exact Hf|]. split; [now rewrite Hg'|].
  split; [rewrite Hw, Hs; subst p; lra|].
  split; [exact Hland|]. split.
  - intros Hon Hv. destruct Hland as (Hv' & Hg1 & Hy'); [subst p groundY; lra|].
    split; [exact Hv'|]. split; [exact Hg1|]. rewrite Hy'. lra.
  - intros Hair. rewrite Hp. subst p.
    destruct (playerPhysics_airborne (snd (RunnerGame.canvasSizeRef c))
                (movePlayer (difficultyScaling state))) as (Hv' & Hg1 & Hy').
    + now rewrite Hy, Hvy, Hh.
    + rewrite Hv', Hg1, Hy', Hy, Hvy. repeat split.
Qed.

Lemma C5_witness :
  let c := session 0.5 0 in
  let p' := player (RunnerGame.stateRef (frame (always 0.5) c)) in
  Player.worldX p' == 10.5
  /\ Player.vy p' = 0 /\ Player.grounded p' = true
  /\ Player.y p' ==
     Player.y (player (RunnerGame.stateRef c)).
Proof.
  pose proof (C5_one_tick_from_start (always 0.5) (session 0.5 0)) as H.
  cbv zeta in H.
  destruct H as (_ & _ & Hw & _ & Hon & _).
  - apply session_reachable; [discriminate | reflexivity].
  - reflexivity.
  - reflexivity.
  - reflexivity.
  - split; [exact Hw|]. apply Hon; [reflexivity | discriminate].
Defined.

(** C5 as stated fails at the state [resetGame] stores (canvas height 800),
    with random numbers that spawn nothing: [worldX] is 10.5 after the tick,
    and [vy] is 0, not 0 + GRAVITY. *)
Lemma C5_counterexample :
  let state := resetState 800 in
  let state' := result (loop 800 state (always 0.5) 0%nat) in
  isRunning state = true
  /\ gameSpeed state == 10
  /\ Player.worldX (player state) == 0
  /\ Player.grounded (player state) = true
  /\ obstacles state' = obstacles state
  /\ ~ Player.worldX (player state') == 10
  /\ ~ Player.vy (player state') == Player.vy (player state) + GRAVITY.
Proof. vm_compute. repeat split; discriminate. Qed.

(** X2. In every reachable state the frame counter [n] is not negative and
    the game speed is [INITIAL_GAME_SPEED + 0.5 * ceil(n / 600)]: a step of
    0.5 in the first frame of a run and in every 600th frame after it. *)
Theorem X2_game_speed_closed_form c :
  reachable c ->
  let state := RunnerGame.stateRef c in
  (0 <= frameCount state)%Z
  /\ gameSpeed state ==
     INITIAL_GAME_SPEED + 0.5 * inject_Z (difficultySteps (frameCount state)).
Proof. intros Hc. cbv zeta. now apply reachable_game_speed. Qed.

Lemma X2_witness :
  gameSpeed (RunnerGame.stateRef (session 0 60)) ==
  INITIAL_GAME_SPEED
  + 0.5 * inject_Z (difficultySteps (frameCount (RunnerGame.stateRef (session 0 60)))).
Proof.
  refine (proj2 (X2_game_speed_closed_form (session 0 60) _)).
  apply session_reachable; [discriminate | reflexivity].
Defined.

(** ** The obstacles: how many, how far apart, how large *)

Lemma Sorted_snoc_rel (R : Q -> Q -> Prop) (l : list Q) (a : Q) :
  Sorted R l ->
  (forall x, last (map Some l) None = Some x -> R x a) ->
  Sorted R (l ++ [a]).
Proof.
  induction l as [|x l IH]; intros Hs Hlast; simpl.
  - repeat constructor.
  - inversion Hs as [|? ? Hs' Hhd]; subst. constructor.
    + apply IH; [assumption|]. intros y Hy. apply Hlast.
      destruct l; [discriminate | exact Hy].
    + destruct l as [|z l]; simpl.
      * constructor. now apply Hlast.
      * constructor. now inversion Hhd.
Qed.

Lemma spawnObstacle_obstacles canvasHeight state rnd k :
  0 <= rnd k ->
  obstacles (result (spawnObstacle canvasHeight state rnd k)) = obstacles state
  \/ obstacles (result (spawnObstacle canvasHeight state rnd k)) =
       obstacles state ++ [newObstacle canvasHeight state]
     /\ forall lastObstacle,
          last (map Some (obstacles state)) None = Some lastObstacle ->
          spaced (Obstacle.x lastObstacle)
            (Obstacle.x (newObstacle canvasHeight state)).
Proof.
  intros Hr.
  destruct (spawnObstacle_run canvasHeight state rnd k) as [_ [-> | [-> Hgap]]];
    [now left|].
  right. split; [reflexivity|]. intros o Ho. specialize (Hgap o Ho).
  unfold spaced, newObstacle; cbn [Obstacle.x]. nra.
Qed.

Lemma removeOldObstacle_obstacles state :
  obstacles (removeOldObstacle state) =
  if (20 <? List.length (obstacles state))%nat
  then tl (obstacles state) else obstacles state.
Proof. unfold removeOldObstacle. now destruct (_ <? _)%nat. Qed.

(** The obstacles with which the collision loop of a frame runs. *)
Lemma atCollision_obstacles canvasHeight state rnd k :
  0 <= rnd k ->
  let l := obstacles state in
  let l' := obstacles (result (atCollision canvasHeight state rnd k)) in
  let new := newObstacle canvasHeight (beforeSpawn canvasHeight state) in
  (l' = l \/ l' = tl l
   \/ (l' = l ++ [new] \/ l' = tl (l ++ [new]))
      /\ forall lastObstacle,
           last (map Some l) None = Some lastObstacle ->
           spaced (Obstacle.x lastObstacle) (Obstacle.x new))
  /\ ((List.length l <= 20)%nat -> (List.length l' <= 20)%nat).
Proof.
  intros Hr. cbv zeta.
  assert (E0 : obstacles (result (atCollision canvasHeight state rnd k)) =
               obstacles (removeOldObstacle
                            (result (spawnObstacle canvasHeight
                                       (beforeSpawn canvasHeight state) rnd k))))
    by reflexivity.
  rewrite E0, removeOldObstacle_obstacles. clear E0.
  destruct (spawnObstacle_obstacles canvasHeight
              (beforeSpawn canvasHeight state) rnd k Hr) as [E | [E Hgap]];
    rewrite E; rewrite beforeSpawn_obstacles in *.
  - destruct (Nat.ltb_spec 20 (List.length (obstacles state))).
    + split; [now right; left|]. intros Hlen. lia.
    + split; [now left|]. auto.
  - destruct (Nat.ltb_spec 20 (List.length
                                 (obstacles state
                                  ++ [newObstacle canvasHeight
                                        (beforeSpawn canvasHeight state)]))).
    + split; [right; right; split; [now right | exact Hgap]|].
      intros Hlen. destruct (obstacles state) as [|o l];
        cbn [app tl List.length] in *; [lia|].
      rewrite length_app; cbn [List.length]. lia.
    + split; [right; right; split; [now left | exact Hgap]|].
      intros _. assumption.
Qed.

Lemma markStruck_length p l : List.length (map (markStruck p) l) = List.length l.
Proof. apply length_map. Qed.

Lemma markStruck_sized p l :
  Forall trapSized l -> Forall trapSized (map (markStruck p) l).
Proof.
  intros H. apply Forall_map. eapply Forall_impl; [|exact H].
  intros o Ho. unfold markStruck. now destruct (struck p o).
Qed.

Lemma loopBody_obstacles_at canvasHeight state rnd k :
  obstacles (result (loopBody canvasHeight state rnd k)) =
  map (markStruck (player (beforeSpawn canvasHeight state)))
    (obstacles (result (atCollision canvasHeight state rnd k))).
Proof. rewrite loopBody_obstacles. reflexivity. Qed.

Lemma map_x_tl (l : list Obstacle.t) :
  map Obstacle.x (tl l) = tl (map Obstacle.x l).
Proof. now destruct l. Qed.

Lemma Sorted_tl_rel (R : Q -> Q -> Prop) (l : list Q) :
  Sorted R l -> Sorted R (tl l).
Proof. intros H. destruct l; [assumption | now inversion H]. Qed.

Lemma atCollision_spaced canvasHeight state rnd k :
  0 <= rnd k ->
  Sorted spaced (obstacleXs state) ->
  Sorted spaced (obstacleXs (result (atCollision canvasHeight state rnd k))).
Proof.
  intros Hr Hs.
  destruct (atCollision_obstacles canvasHeight state rnd k Hr) as [Hl _].
  cbv zeta in Hl. unfold obstacleXs in *.
  assert (Hsn : (forall lastObstacle,
                   last (map Some (obstacles state)) None = Some lastObstacle ->
                   spaced (Obstacle.x lastObstacle)
                     (Obstacle.x (newObstacle canvasHeight
                                    (beforeSpawn canvasHeight state)))) ->
                Sorted spaced
                  (map Obstacle.x
                     (obstacles state
                      ++ [newObstacle canvasHeight
                            (beforeSpawn canvasHeight state)]))).
  { intros Hgap. rewrite map_app. apply Sorted_snoc_rel; [assumption|].
    intros x. rewrite last_map_x.
    destruct (last (map Some (obstacles state)) None) as [o|] eqn:E;
      [|discriminate].
    intros [= <-]. now apply Hgap. }
  destruct Hl as [-> | [-> | [[-> | ->] Hgap]]].
  - assumption.
  - rewrite map_x_tl. now apply Sorted_tl_rel.
  - now apply Hsn.
  - rewrite map_x_tl. now apply Sorted_tl_rel, Hsn.
Qed.

Lemma atCollision_sized canvasHeight state rnd k :
  0 <= rnd k ->
  Forall trapSized (obstacles state) ->
  Forall trapSized (obstacles (result (atCollision canvasHeight state rnd k))).
Proof.
  intros Hr Hs.
  destruct (atCollision_obstacles canvasHeight state rnd k Hr) as [Hl _].
  cbv zeta in Hl.
  assert (Hnew : Forall trapSized
                   (obstacles state
                    ++ [newObstacle canvasHeight
                          (beforeSpawn canvasHeight state)])).
  { apply Forall_app. split; [assumption|]. repeat constructor. }
  assert (Htl : forall l, Forall trapSized l -> Forall trapSized (tl l)).
  { intros [|o l] H; [assumption | now inversion H]. }
  destruct Hl as [-> | [-> | [[-> | ->] _]]]; auto.
Qed.

(** X3. There are never more than 20 obstacles: in every reachable state
    the array holds at most 20 (a frame pushes at most one and then shifts
    when it counts more than 20). *)
Theorem X3_at_most_twenty_obstacles c :
  reachable c ->
  (List.length (obstacles (RunnerGame.stateRef c)) <= 20)%nat.
Proof.
  revert c.
  apply (reachable_state_invariant
           (fun state => (List.length (obstacles state) <= 20)%nat)).
  - cbn. lia.
  - intros canvasH. cbn. lia.
  - intros canvasHeight state rnd Hrnd _ Hlen.
    rewrite loopBody_obstacles_at, markStruck_length.
    now apply (atCollision_obstacles canvasHeight state rnd 0%nat
                 (proj1 (Hrnd 0%nat))).
  - intros key soundLoaded state H. now rewrite handleKeyDown_obstacles.
  - intros y state H. exact H.
Qed.

Lemma X3_witness :
  (List.length (obstacles (RunnerGame.stateRef (session 0 60))) <= 20)%nat.
Proof.
  refine (X3_at_most_twenty_obstacles (session 0 60) _).
  apply session_reachable; [discriminate | reflexivity].
Defined.

Lemma reachable_spaced_sized c :
  reachable c ->
  Sorted spaced (obstacleXs (RunnerGame.stateRef c))
  /\ Forall trapSized (obstacles (RunnerGame.stateRef c)).
Proof.
  revert c.
  apply (reachable_state_invariant
           (fun state =>
              Sorted spaced (obstacleXs state)
              /\ Forall trapSized (obstacles state))).
  - split; constructor.
  - intros canvasH. split; constructor.
  - intros canvasHeight state rnd Hrnd _ [Hs Hz].
    unfold obstacleXs. rewrite loopBody_obstacles_at, markStruck_x. split.
    + now apply atCollision_spaced; [apply Hrnd|].
    + now apply markStruck_sized, atCollision_sized; [apply Hrnd|].
  - intros key soundLoaded state H. unfold obstacleXs.
    now rewrite handleKeyDown_obstacles.
  - intros y state H. exact H.
Qed.

Lemma spaced_strongly (l : list Q) : Sorted spaced l -> StronglySorted spaced l.
Proof.
  apply Sorted_StronglySorted. intros x y z. unfold spaced. lra.
Qed.

(** X4. Traps keep their distance and their size: in every reachable state
    any obstacle lies more than 600 to the right of every obstacle before it
    in the array, and every obstacle is 60 wide and 45 high. *)
Theorem X4_traps_spaced_and_sized c :
  reachable c ->
  StronglySorted spaced (obstacleXs (RunnerGame.stateRef c))
  /\ Forall (fun obs => Obstacle.w obs = 60 /\ Obstacle.h obs = 45)
       (obstacles (RunnerGame.stateRef c)).
Proof.
  intros Hc. destruct (reachable_spaced_sized c Hc) as [Hs Hz].
  split; [now apply spaced_strongly | exact Hz].
Qed.

Lemma X4_witness :
  StronglySorted spaced (obstacleXs (RunnerGame.stateRef (session 0 60))).
Proof.
  refine (proj1 (X4_traps_spaced_and_sized (session 0 60) _)).
  apply session_reachable; [discriminate | reflexivity].
Defined.

(** ** One trap per frame *)

Lemma hits_window p obs :
  hits p obs = true ->
  Player.w p = PLAYER_SIZE -> Obstacle.w obs = obstacleW ->
  Player.worldX p - 50 < Obstacle.x obs /\ Obstacle.x obs < Player.worldX p + 50.
Proof.
  unfold hits. rewrite !andb_true_iff, !Qltb_lt, !Qgtb_gt.
  intros [[[H1 H2] _] _] Hp Ho. rewrite Hp in H2. rewrite Ho in H1.
  unfold PLAYER_SIZE, obstacleW, hitboxPadding in *. split; lra.
Qed.

Lemma strikeCount_cons p obs l :
  strikeCount p (obs :: l) =
  if struck p obs then S (strikeCount p l) else strikeCount p l.
Proof. unfold strikeCount. cbn [filter]. now destruct (struck p obs). Qed.

Lemma strikeCount_far p obs l :
  Player.w p = PLAYER_SIZE ->
  hits p obs = true -> Obstacle.w obs = obstacleW ->
  Forall (spaced (Obstacle.x obs)) (map Obstacle.x l) ->
  Forall trapSized l ->
  strikeCount p l = 0%nat.
Proof.
  intros Hp Hhit Hw. apply (hits_window _ _ Hhit Hp) in Hw as Hwin.
  induction l as [|o l IH]; intros Hall Hz; [reflexivity|].
  cbn [map] in Hall.
  inversion Hall as [|? ? Hgap Hall']; subst.
  inversion Hz as [|? ? [Hw' _] Hz']; subst.
  rewrite strikeCount_cons. destruct (struck p o) eqn:E; [|now apply IH].
  exfalso. unfold struck in E. apply andb_true_iff in E as [_ E].
  apply (hits_window _ _ E Hp) in Hw'. unfold spaced in Hgap. lra.
Qed.

Lemma strikeCount_spaced p l :
  Player.w p = PLAYER_SIZE ->
  StronglySorted spaced (map Obstacle.x l) ->
  Forall trapSized l ->
  (strikeCount p l <= 1)%nat.
Proof.
  intros Hp. induction l as [|obs l IH]; intros Hs Hz; [cbn; lia|].
  cbn [map] in Hs.
  inversion Hs as [|? ? Hs' Hall]; subst.
  inversion Hz as [|? ? [Hw _] Hz']; subst.
  rewrite strikeCount_cons. specialize (IH Hs' Hz').
  destruct (struck p obs) eqn:E; [|lia].
  unfold struck in E. apply andb_true_iff in E as [_ E].
  rewrite (strikeCount_far p obs l Hp E Hw Hall Hz'). lia.
Qed.

Lemma beforeSpawn_sized canvasHeight state :
  playerSized state -> playerSized (beforeSpawn canvasHeight state).
Proof.
  unfold playerSized, beforeSpawn. rewrite enemyDrift_player.
  unfold playerPhysics, movePlayer. cbv zeta.
  rewrite difficultyScaling_player.
  cbn [player set_player Player.w Player.h Player.y Player.vy Player.set_y
       Player.set_vy Player.set_worldX].
  destruct (Qgeb _ _); cbn [Player.w Player.h Player.set_grounded
                            Player.set_vy Player.set_y]; auto.
Qed.

Lemma atCollision_player canvasHeight state rnd k :
  player (result (atCollision canvasHeight state rnd k)) =
  player (beforeSpawn canvasHeight state).
Proof.
  change (player (result (atCollision canvasHeight state rnd k)))
    with (player (removeOldObstacle
                    (result (afterSpawn canvasHeight state rnd k)))).
  rewrite removeOldObstacle_player. apply afterSpawn_player.
Qed.

Lemma trapsHit_at_most_one canvasHeight state rnd k :
  0 <= rnd k ->
  playerSized state ->
  Sorted spaced (obstacleXs state) ->
  Forall trapSized (obstacles state) ->
  (trapsHit canvasHeight state rnd k <= 1)%nat.
Proof.
  intros Hr Hp Hs Hz. unfold trapsHit; cbv zeta.
  apply strikeCount_spaced.
  - rewrite atCollision_player. now apply beforeSpawn_sized.
  - apply spaced_strongly. now apply atCollision_spaced.
  - now apply atCollision_sized.
Qed.

Lemma reachable_playerSized c :
  reachable c -> playerSized (RunnerGame.stateRef c).
Proof.
  revert c. apply (reachable_state_invariant playerSized).
  - split; reflexivity.
  - intros canvasH. split; reflexivity.
  - intros canvasHeight state rnd' _ _ H. unfold playerSized.
    rewrite loopBody_player. now apply beforeSpawn_sized.
  - intros key soundLoaded state H. unfold playerSized, handleKeyDown.
    destruct (isJumpKey key); [destruct (_ && _)|]; exact H.
  - intros y state H. exact H.
Qed.

Lemma reachable_one_trap c rnd :
  reachable c ->
  unitInterval rnd ->
  (trapsHit (snd (RunnerGame.canvasSizeRef c)) (RunnerGame.stateRef c) rnd 0
   <= 1)%nat.
Proof.
  intros Hc Hrnd.
  destruct (reachable_spaced_sized c Hc) as [Hs Hz].
  apply trapsHit_at_most_one; [apply Hrnd | | assumption | assumption].
  now apply reachable_playerSized.
Qed.

(** X5. A frame never runs into more than one trap: from every reachable
    state, with random numbers in [0,1), the collision loop finds at most
    one untriggered obstacle under the player. *)
Theorem X5_one_trap_per_frame c rnd :
  reachable c ->
  unitInterval rnd ->
  (trapsHit (snd (RunnerGame.canvasSizeRef c)) (RunnerGame.stateRef c) rnd 0
   <= 1)%nat.
Proof. apply reachable_one_trap. Qed.

Lemma X5_witness :
  (trapsHit (snd (RunnerGame.canvasSizeRef (session 0 110)))
     (RunnerGame.stateRef (session 0 110)) (always 0) 0 <= 1)%nat.
Proof.
  refine (X5_one_trap_per_frame (session 0 110) (always 0) _ _).
  - apply session_reachable; [discriminate | reflexivity].
  - apply always_unit; [discriminate | reflexivity].
Defined.

(** ** The shape of a session *)

Lemma reachable_state_invariant_at (P : State -> Prop) :
  P initialState ->
  (forall canvasH, P (resetState canvasH)) ->
  (forall c rnd,
     reachable c -> unitInterval rnd ->
     isRunning (RunnerGame.stateRef c) = true -> P (RunnerGame.stateRef c) ->
     P (result (loopBody (snd (RunnerGame.canvasSizeRef c))
                  (RunnerGame.stateRef c) rnd 0%nat))) ->
  (forall key soundLoaded state,
     P state -> P (fst (handleKeyDown key soundLoaded state))) ->
  (forall y state, P state -> P (set_player (Player.set_y y (player state)) state)) ->
  forall c, reachable c -> P (RunnerGame.stateRef c).
Proof.
  intros Hinit Hreset Hloop Hkey Hy.
  assert (Hresize : forall iw ih c,
             P (RunnerGame.stateRef c) ->
             P (RunnerGame.stateRef (resize iw ih c))).
  { intros iw ih c Hc. unfold resize, resizeListener. cbv zeta.
    destruct (_ && _); [|exact Hc].
    cbn [RunnerGame.stateRef RunnerGame.set_stateRef RunnerGame.set_canvasSizeRef].
    now apply Hy. }
  induction 1 as [saved iw ih | e c Hc IH Hen].
  - unfold mount. apply Hresize. exact Hinit.
  - destruct e; cbn [handle enabled] in *; try exact IH.
    + apply Hreset.
    + rewrite frame_stateRef.
      destruct (isRunning (RunnerGame.stateRef c)) eqn:Hrun.
      * rewrite (loop_running _ _ Hrun). now apply Hloop.
      * unfold loop. rewrite Hrun. exact IH.
    + now apply Hkey.
    + now apply Hresize.
    + now rewrite (proj1 (onAnimationStart_frame c)).
    + now rewrite (proj1 (requestWithdrawal_frame c)).
Qed.

(** A frame without a trap hit and with the enemy out of reach only moves
    and ages the particles. *)
Lemma quiet_frame_particles canvasHeight state rnd k :
  trapsHit canvasHeight state rnd k = 0%nat ->
  Qleb (Enemy.distance (enemy (beforeSpawn canvasHeight state)))
    ENEMY_CATCH_DISTANCE = false ->
  particles (result (loopBody canvasHeight state rnd k)) =
  particles (updateParticles state).
Proof.
  intros Hn Hfar. rewrite loopBody_result.
  unfold afterScore, afterCatch; cbv zeta.
  rewrite afterCollision_run; cbv zeta. rewrite Hn.
  pose proof (atCollision_particles canvasHeight state rnd k) as Hp.
  pose proof (atCollision_enemy canvasHeight state rnd k) as He.
  destruct (atCollision canvasHeight state rnd k) as [[s6 k6] c6].
  unfold result, cursor in *. cbn [fst snd strikes] in *.
  rewrite enemyCatchCheck_run. cbn [enemy set_obstacles]. rewrite He, Hfar.
  cbn [fst snd]. rewrite accrueScore_run.
  case_if; cbn [fst]; unfold updateParticles;
    cbn [countFrame particles set_frameCount set_renderedScore set_score
         set_particles set_obstacles]; now rewrite Hp.
Qed.

Lemma drift_closed_form f d :
  (0 <= f)%Z ->
  d == 300 + 0.5 * inject_Z (Z.min f 100) ->
  (if Qltb d MAX_ENEMY_DISTANCE then d + ENEMY_RECOVERY_RATE * 0.5 else d) ==
  300 + 0.5 * inject_Z (Z.min (f + 1) 100).
Proof.
  intros Hf Hd. unfold MAX_ENEMY_DISTANCE, ENEMY_RECOVERY_RATE.
  destruct (Z_lt_le_dec f 100) as [Hlt | Hge].
  - rewrite Z.min_l in Hd by lia. rewrite Z.min_l by lia.
    rewrite inject_Z_plus. change (inject_Z 1) with 1.
    assert (Hq : inject_Z f < 100).
    { change 100 with (inject_Z 100). rewrite <- Zlt_Qlt. exact Hlt. }
    destruct (Qltb d 350) eqn:E.
    + lra.
    + apply Qltb_ge in E. lra.
  - rewrite Z.min_r in Hd by lia. rewrite Z.min_r by lia.
    change (inject_Z 100) with 100 in *.
    destruct (Qltb d 350) eqn:E.
    + apply Qltb_lt in E. lra.
    + lra.
Qed.

Lemma reachable_sessionShape c :
  reachable c -> sessionShape (RunnerGame.stateRef c).
Proof.
  revert c. apply (reachable_state_invariant_at sessionShape).
  - split; [discriminate|]. split; [discriminate|].
    intros _. left. split; reflexivity.
  - intros canvasH. split; [discriminate|]. split; [|discriminate].
    intros _. split; reflexivity.
  - intros c rnd Hc Hrnd Hrun (Hf & Hon & _).
    destruct (Hon Hrun) as [Hd Hp].
    pose proof (reachable_one_trap c rnd Hc Hrnd) as Hone.
    set (h := snd (RunnerGame.canvasSizeRef c)) in *.
    set (state := RunnerGame.stateRef c) in *.
    assert (Hd4 : Enemy.distance (enemy (beforeSpawn h state)) ==
                  300 + 0.5 * inject_Z (Z.min (frameCount state + 1) 100)).
    { rewrite beforeSpawn_enemy.
      rewrite <- (drift_closed_form (frameCount state)
                    (Enemy.distance (enemy state)) Hf Hd).
      now destruct (Qltb _ _). }
    assert (Hmin : 0 <= inject_Z (Z.min (frameCount state + 1) 100)).
    { change 0 with (inject_Z 0). rewrite <- Zle_Qle. lia. }
    unfold sessionShape. rewrite loopBody_frameCount.
    split; [lia|].
    pose proof (loopBody_outcome h state rnd 0%nat) as Hout. cbv zeta in Hout.
    destruct (trapsHit h state rnd 0) as [|n] eqn:En.
    + destruct Hout as (He & Hout).
      assert (Hfar : Qleb (Enemy.distance (enemy (beforeSpawn h state)))
                       ENEMY_CATCH_DISTANCE = false).
      { apply caught_far. lra. }
      rewrite Hfar in Hout. destruct Hout as (Hr & _).
      rewrite Hr, He, Hrun. split; [|discriminate].
      intros _. split; [exact Hd4|].
      rewrite (quiet_frame_particles h state rnd 0%nat En Hfar).
      unfold updateParticles. cbn [particles set_particles]. now rewrite Hp.
    + assert (n = 0%nat) by lia. subst n.
      pose proof (trap_hit_run h state rnd 0%nat Hrun Hp) as Hhit.
      cbv zeta in Hhit. rewrite En in Hhit.
      rewrite (loop_running _ _ Hrun) in Hhit.
      destruct (Hhit ltac:(lia)) as (_ & Hr & Hd' & Hlen).
      rewrite Hr. split; [discriminate|].
      intros _. right. rewrite Hd'. split; [reflexivity | exact Hlen].
  - intros key soundLoaded state H. unfold handleKeyDown.
    destruct (isJumpKey key); [destruct (_ && _)|]; exact H.
  - intros y state H. exact H.
Qed.

(** X6. The enemy's distance in closed form.  While a run goes on it is
    [300 + 0.5 * min(n, 100)] for the frame counter [n]: the enemy falls
    back for the first 100 frames and then stays at [MAX_ENEMY_DISTANCE].
    In every reachable state it lies between 0 and [MAX_ENEMY_DISTANCE]; the
    drift never overshoots. *)
Theorem X6_enemy_distance_closed_form c :
  reachable c ->
  let state := RunnerGame.stateRef c in
  (isRunning state = true ->
   Enemy.distance (enemy state) ==
     300 + 0.5 * inject_Z (Z.min (frameCount state) 100))
  /\ 0 <= Enemy.distance (enemy state)
  /\ Enemy.distance (enemy state) <= MAX_ENEMY_DISTANCE.
Proof.
  intros Hc. cbv zeta.
  destruct (reachable_sessionShape c Hc) as (Hf & Hon & Hoff).
  assert (H0 : 0 <= inject_Z (Z.min (frameCount (RunnerGame.stateRef c)) 100)).
  { change 0 with (inject_Z 0). rewrite <- Zle_Qle. lia. }
  assert (H1 : inject_Z (Z.min (frameCount (RunnerGame.stateRef c)) 100) <= 100).
  { change 100 with (inject_Z 100). rewrite <- Zle_Qle. lia. }
  split; [intros Hrun; now apply Hon|].
  unfold MAX_ENEMY_DISTANCE in *.
  destruct (isRunning (RunnerGame.stateRef c)).
  - destruct (Hon eq_refl) as [Hd _]. split; lra.
  - destruct (Hoff eq_refl) as [[Hd _] | [Hd _]]; split; lra.
Qed.

Lemma X6_witness :
  Enemy.distance (enemy (RunnerGame.stateRef (session 0 60))) ==
  300 + 0.5 * inject_Z (Z.min (frameCount (RunnerGame.stateRef (session 0 60))) 100).
Proof.
  refine (proj1 (X6_enemy_distance_closed_form (session 0 60) _) _).
  - apply session_reachable; [discriminate | reflexivity].
  - vm_compute. reflexivity.
Defined.

Lemma keyDown_particles key soundLoaded c :
  particles (RunnerGame.stateRef (keyDown key soundLoaded c)) =
  particles (RunnerGame.stateRef c).
Proof.
  unfold keyDown, handleKeyDown. destruct (isJumpKey key); [|reflexivity].
  now destruct (_ && _).
Qed.

Lemma resize_particles iw ih c :
  particles (RunnerGame.stateRef (resize iw ih c)) =
  particles (RunnerGame.stateRef c).
Proof. unfold resize, resizeListener. cbv zeta. now destruct (_ && _). Qed.

(** X7. Particles exist only after a game over, and then there are exactly
    20 of them: in every reachable state the particle array is empty while
    the loop runs, and in [GAME_OVER] it holds 20 particles and the enemy's
    distance is 0. *)
Theorem X7_particles_only_after_game_over c :
  reachable c ->
  let state := RunnerGame.stateRef c in
  (isRunning state = true -> particles state = [])
  /\ (RunnerGame.gameState c = GAME_OVER ->
      List.length (particles state) = 20%nat
      /\ Enemy.distance (enemy state) == 0).
Proof.
  intros Hc. cbv zeta. split.
  { intros Hrun. now apply (reachable_sessionShape c Hc). }
  induction Hc as [saved iw ih | e c Hc IH Hen].
  - unfold mount.
    destruct (resize_frame iw ih
                (RunnerGame.setBalance
                   (loadBalance saved (RunnerGame.balance firstRender))
                   firstRender)) as (_ & _ & ->).
    discriminate.
  - destruct e; cbn [handle enabled] in *; try exact IH.
    + discriminate.
    + destruct (isRunning (RunnerGame.stateRef c)) eqn:Hrun;
        [|now rewrite frame_not_running].
      intros Hover.
      assert (Hc' : reachable (frame rnd c))
        by exact (reach_step (AnimationFrame rnd) c Hc Hen).
      pose proof (reachable_distance c Hc Hrun) as Hd.
      pose proof (frame_distance rnd c) as Hf. cbv zeta in Hf.
      specialize (Hf Hrun Hd).
      destruct (trapsHit _ _ _ _).
      * destruct Hf as [_ Hr].
        apply (reachable_running_playing _ Hc') in Hr. congruence.
      * destruct Hf as [He Hr].
        destruct (reachable_sessionShape _ Hc') as (_ & _ & Hoff).
        rewrite He. destruct (Hoff Hr) as [[Hd' _] | [_ Hlen]].
        -- rewrite He in Hd'. discriminate.
        -- split; [exact Hlen | reflexivity].
    + destruct (keyDown_frame k soundLoaded c) as (_ & -> & ->).
      now rewrite keyDown_particles.
    + destruct (resize_frame innerWidth innerHeight c) as (_ & -> & ->).
      now rewrite resize_particles.
    + destruct (onAnimationStart_frame c) as (-> & ->). exact IH.
    + destruct (requestWithdrawal_frame c) as (-> & ->). exact IH.
Qed.

Lemma X7_witness :
  List.length (particles (RunnerGame.stateRef (session 0 111))) = 20%nat
  /\ Enemy.distance (enemy (RunnerGame.stateRef (session 0 111))) == 0.
Proof.
  refine (proj2 (X7_particles_only_after_game_over (session 0 111) _) _).
  - apply session_reachable; [discriminate | reflexivity].
  - vm_compute. reflexivity.
Defined.

(** ** Obstacles within a frame *)

Lemma atCollision_incl canvasHeight state rnd k :
  incl (obstacles (result (atCollision canvasHeight state rnd k)))
    (obstacles state
     ++ [newObstacle canvasHeight (beforeSpawn canvasHeight state)]).
Proof.
  assert (E0 : obstacles (result (atCollision canvasHeight state rnd k)) =
               obstacles (removeOldObstacle
                            (result (spawnObstacle canvasHeight
                                       (beforeSpawn canvasHeight state) rnd k))))
    by reflexivity.
  rewrite E0, removeOldObstacle_obstacles. clear E0.
  assert (Htl : forall (l m : list Obstacle.t), incl l m -> incl (tl l) m).
  { intros [|o l] m H; [exact H|]. intros x Hx. apply H. now right. }
  destruct (spawnObstacle_run canvasHeight (beforeSpawn canvasHeight state)
              rnd k) as [_ [-> | [-> _]]];
    cbn [obstacles set_obstacles]; rewrite beforeSpawn_obstacles;
    destruct (_ <? _)%nat; try apply Htl;
    first [apply incl_refl | apply incl_appl, incl_refl].
Qed.

Lemma markStruck_geometry p obs :
  Obstacle.x (markStruck p obs) = Obstacle.x obs
  /\ Obstacle.y (markStruck p obs) = Obstacle.y obs
  /\ Obstacle.w (markStruck p obs) = Obstacle.w obs
  /\ Obstacle.h (markStruck p obs) = Obstacle.h obs
  /\ Obstacle.collided (markStruck p obs) =
       Obstacle.collided obs || hits p obs.
Proof.
  unfold markStruck, struck.
  destruct (Obstacle.collided obs) eqn:E; cbn [negb andb orb];
    [now rewrite E|].
  destruct (hits p obs); cbn [Obstacle.set_collided Obstacle.x Obstacle.y
                              Obstacle.w Obstacle.h Obstacle.collided];
    now rewrite ?E.
Qed.

(** X8. A frame never moves or resizes an obstacle and never resets a
    [collided] flag.  Every obstacle after a running frame is an obstacle
    from before the frame, or the one just spawned, with the same [x], [y],
    [w] and [h]; its flag is set exactly if it was set before or the player
    overlaps it in this frame. *)
Theorem X8_obstacles_immutable_flag_one_way canvasHeight state rnd k :
  isRunning state = true ->
  let state' := result (loop canvasHeight state rnd k) in
  forall obs',
    In obs' (obstacles state') ->
    exists obs,
      In obs (obstacles state
              ++ [newObstacle canvasHeight (beforeSpawn canvasHeight state)])
      /\ Obstacle.x obs' = Obstacle.x obs
      /\ Obstacle.y obs' = Obstacle.y obs
      /\ Obstacle.w obs' = Obstacle.w obs
      /\ Obstacle.h obs' = Obstacle.h obs
      /\ Obstacle.collided obs' =
           Obstacle.collided obs || hits (player state') obs.
Proof.
  intros Hrun. cbv zeta. rewrite (loop_running _ _ Hrun).
  rewrite loopBody_obstacles_at, loopBody_player.
  intros obs' Hin. apply in_map_iff in Hin as (obs & <- & Hin).
  exists obs. split; [now apply (atCollision_incl canvasHeight state rnd k)|].
  apply markStruck_geometry.
Qed.

Lemma X8_witness :
  let state := RunnerGame.stateRef (session 0 110) in
  let state' := result (loop 800 state (always 0) 0%nat) in
  let obs' := hd (newObstacle 800 state) (obstacles state') in
  exists obs,
    In obs (obstacles state ++ [newObstacle 800 (beforeSpawn 800 state)])
    /\ Obstacle.x obs' = Obstacle.x obs
    /\ Obstacle.y obs' = Obstacle.y obs
    /\ Obstacle.w obs' = Obstacle.w obs
    /\ Obstacle.h obs' = Obstacle.h obs
    /\ Obstacle.collided obs' =
         Obstacle.collided obs || hits (player state') obs.
Proof.
  refine (X8_obstacles_immutable_flag_one_way 800
            (RunnerGame.stateRef (session 0 110)) (always 0) 0%nat _
            (hd (newObstacle 800 (RunnerGame.stateRef (session 0 110)))
               (obstacles
                  (result (loop 800 (RunnerGame.stateRef (session 0 110))
                             (always 0) 0%nat)))) _).
  - vm_compute. reflexivity.
  - vm_compute. left. reflexivity.
Defined.

(** ** The player and the ground *)

Lemma playerPhysics_h canvasHeight state :
  Player.h (player (playerPhysics canvasHeight state)) = Player.h (player state).
Proof. unfold playerPhysics. cbv zeta. now destruct (Qgeb _ _). Qed.

(** X9. After every running frame the player stands on or above the ground
    line of that frame's canvas, never below it; [grounded] is true exactly
    when the bottom edge of the hitbox is on the line, and then the vertical
    velocity is 0. *)
Theorem X9_player_never_below_ground canvasHeight state rnd k :
  isRunning state = true ->
  let p' := player (result (loop canvasHeight state rnd k)) in
  let groundY := inject_Z canvasHeight - PLAYER_GROUND_OFFSET in
  Player.y p' + Player.h p' <= groundY
  /\ (Player.grounded p' = true <-> Player.y p' + Player.h p' == groundY)
  /\ (Player.grounded p' = true -> Player.vy p' = 0).
Proof.
  intros Hrun. cbv zeta. rewrite (loop_player _ _ _ _ Hrun).
  set (s2 := movePlayer (difficultyScaling state)).
  rewrite playerPhysics_h.
  destruct (Qlt_le_dec
              (Player.y (player s2) + (Player.vy (player s2) + GRAVITY)
               + Player.h (player s2))
              (inject_Z canvasHeight - PLAYER_GROUND_OFFSET)) as [Hair | Hland].
  - destruct (playerPhysics_airborne canvasHeight s2 Hair) as (Hv & Hg & Hy).
    rewrite Hg, Hy. split; [lra|]. split; [|discriminate].
    split; [discriminate|]. intros E. lra.
  - destruct (playerPhysics_lands canvasHeight s2 Hland) as (Hv & Hg & Hy).
    rewrite Hg, Hy, Hv. split; [lra|]. split; [|reflexivity].
    split; [intros _; lra | reflexivity].
Qed.

Lemma X9_witness :
  let p' := player (result (loop 800 (resetState 800) (always 0.5) 0%nat)) in
  Player.y p' + Player.h p' <= inject_Z 800 - PLAYER_GROUND_OFFSET.
Proof.
  exact (proj1 (X9_player_never_below_ground 800 (resetState 800)
                  (always 0.5) 0%nat eq_refl)).
Defined.

(** ** The arc of a jump *)

Lemma loop_was_running canvasHeight state rnd k :
  isRunning (result (loop canvasHeight state rnd k)) = true ->
  isRunning state = true.
Proof.
  unfold loop. destruct (isRunning state) eqn:E; [reflexivity|].
  cbn [negb]. unfold ret, result. cbn [fst]. congruence.
Qed.

Lemma run_cons canvasHeight rnd rnds state :
  run canvasHeight (rnd :: rnds) state =
  run canvasHeight rnds (result (loop canvasHeight state rnd 0%nat)).
Proof. reflexivity. Qed.

Lemma run_snoc canvasHeight rnds rnd state :
  run canvasHeight (rnds ++ [rnd]) state =
  result (loop canvasHeight (run canvasHeight rnds state) rnd 0%nat).
Proof. unfold run. now rewrite fold_left_app. Qed.

Lemma run_was_running canvasHeight rnds state :
  isRunning (run canvasHeight rnds state) = true -> isRunning state = true.
Proof.
  revert state; induction rnds as [|rnd rnds IH]; intros state H; [exact H|].
  rewrite run_cons in H. apply IH in H. now apply loop_was_running in H.
Qed.

Lemma jump_step canvasHeight state rnd n :
  isRunning state = true ->
  (0 <= n <= 31)%Z ->
  midJump canvasHeight n state ->
  let state' := result (loop canvasHeight state rnd 0%nat) in
  midJump canvasHeight (n + 1) state'
  /\ Player.grounded (player state') = false.
Proof.
  intros Hrun Hn [Hv Hy]. cbv zeta. unfold midJump.
  rewrite (loop_player _ _ _ _ Hrun).
  set (s2 := movePlayer (difficultyScaling state)).
  destruct (movePlayer_vertical state) as (Ey & Ev & Eh). fold s2 in Ey, Ev, Eh.
  rewrite playerPhysics_h.
  assert (H0 : 0 <= inject_Z n).
  { change 0 with (inject_Z 0). rewrite <- Zle_Qle. lia. }
  assert (H1 : inject_Z n <= 31).
  { change 31 with (inject_Z 31). rewrite <- Zle_Qle. lia. }
  unfold jumpHeight, JUMP_FORCE, GRAVITY in *.
  rewrite inject_Z_plus. change (inject_Z 1) with 1.
  destruct (playerPhysics_airborne canvasHeight s2) as (Hv' & Hg' & Hy').
  { rewrite Ey, Ev, Eh. unfold GRAVITY. nra. }
  rewrite Hv', Hg', Hy', Ey, Ev, Eh. unfold GRAVITY.
  repeat split; nra.
Qed.

Lemma jump_lands canvasHeight state rnd :
  isRunning state = true ->
  midJump canvasHeight 32 state ->
  let p' := player (result (loop canvasHeight state rnd 0%nat)) in
  Player.grounded p' = true /\ Player.vy p' = 0
  /\ Player.y p' + Player.h p' == inject_Z canvasHeight - PLAYER_GROUND_OFFSET.
Proof.
  intros Hrun [Hv Hy]. cbv zeta.
  rewrite (loop_player _ _ _ _ Hrun).
  set (s2 := movePlayer (difficultyScaling state)).
  destruct (movePlayer_vertical state) as (Ey & Ev & Eh). fold s2 in Ey, Ev, Eh.
  rewrite playerPhysics_h.
  unfold jumpHeight, JUMP_FORCE, GRAVITY in *.
  change (inject_Z 32) with 32 in *.
  destruct (playerPhysics_lands canvasHeight s2) as (Hv' & Hg' & Hy').
  { rewrite Ey, Ev, Eh. unfold GRAVITY. lra. }
  rewrite Hv', Hg', Hy'. repeat split. lra.
Qed.

Lemma jump_arc canvasHeight rnds :
  forall state n,
    (0 <= n)%Z ->
    (n + Z.of_nat (List.length rnds) <= 32)%Z ->
    midJump canvasHeight n state ->
    isRunning (run canvasHeight rnds state) = true ->
    midJump canvasHeight (n + Z.of_nat (List.length rnds))
      (run canvasHeight rnds state)
    /\ (rnds <> [] ->
        Player.grounded (player (run canvasHeight rnds state)) = false).
Proof.
  induction rnds as [|rnd rnds IH]; intros state n Hn Hlen Hmid Hrun.
  - cbn [List.length Z.of_nat]. rewrite Z.add_0_r. split; [exact Hmid|].
    intros H; now contradiction H.
  - rewrite run_cons in *.
    change (List.length (rnd :: rnds)) with (S (List.length rnds)) in *.
    rewrite Nat2Z.inj_succ in *.
    pose proof (run_was_running _ _ _ Hrun) as Hrun1.
    pose proof (loop_was_running _ _ _ _ Hrun1) as Hrun0.
    destruct (jump_step canvasHeight state rnd n Hrun0 ltac:(lia) Hmid)
      as [Hmid1 Hg1].
    destruct (IH _ (n + 1)%Z ltac:(lia) ltac:(lia) Hmid1 Hrun) as [Hmid' Hg'].
    replace (n + Z.succ (Z.of_nat (List.length rnds)))%Z
      with (n + 1 + Z.of_nat (List.length rnds))%Z by lia.
    split; [exact Hmid'|]. intros _.
    destruct rnds as [|r rnds]; [exact Hg1|]. apply Hg'. discriminate.
Qed.

Lemma jumpHeight_bounds n :
  (1 <= n <= 32)%Z -> 0 < jumpHeight n /\ jumpHeight n <= 157.
Proof.
  intros Hn. unfold jumpHeight.
  assert (H0 : 1 <= inject_Z n).
  { change 1 with (inject_Z 1). rewrite <- Zle_Qle. lia. }
  assert (H1 : inject_Z n <= 32).
  { change 32 with (inject_Z 32). rewrite <- Zle_Qle. lia. }
  split; [nra|].
  assert (Hsq : 0 <= (6 * inject_Z n - 97) * (6 * inject_Z n - 97)).
  { destruct (Qlt_le_dec (6 * inject_Z n - 97) 0) as [Hneg | Hpos].
    - setoid_replace ((6 * inject_Z n - 97) * (6 * inject_Z n - 97))
        with ((97 - 6 * inject_Z n) * (97 - 6 * inject_Z n)) by ring.
      apply Qmult_le_0_compat; lra.
    - apply Qmult_le_0_compat; exact Hpos. }
  lra.
Qed.

(** X10. A jump takes 33 frames.  Take a running state with the player
    grounded on the ground line, press a jump key, and let [n] frames follow
    on the same canvas while the run goes on.  For [n] from 1 to 32 the
    player is airborne: [grounded] is false and the bottom edge of the
    hitbox is above the ground line, by no more than 157; frames 1 to 16
    have moved the player up ([vy < 0]), frames 17 to 32 down ([vy > 0]).
    The 33rd frame puts the player back on the line, grounded and at
    rest. *)
Theorem X10_jump_arc canvasHeight state key soundLoaded rnds :
  let groundY := inject_Z canvasHeight - PLAYER_GROUND_OFFSET in
  isJumpKey key = true ->
  isRunning state = true ->
  Player.grounded (player state) = true ->
  Player.y (player state) + Player.h (player state) == groundY ->
  let jumped := fst (handleKeyDown key soundLoaded state) in
  isRunning (run canvasHeight rnds jumped) = true ->
  let n := Z.of_nat (List.length rnds) in
  let p' := player (run canvasHeight rnds jumped) in
  ((1 <= n <= 32)%Z ->
   Player.grounded p' = false
   /\ Player.y p' + Player.h p' < groundY
   /\ groundY - 157 <= Player.y p' + Player.h p'
   /\ ((n <= 16)%Z -> Player.vy p' < 0)
   /\ ((17 <= n)%Z -> 0 < Player.vy p'))
  /\ (n = 33%Z ->
      Player.grounded p' = true /\ Player.vy p' = 0
      /\ Player.y p' + Player.h p' == groundY).
Proof.
  cbv zeta. intros Hkey Hrun Hg Hy.
  assert (Hmid : midJump canvasHeight 0
                   (fst (handleKeyDown key soundLoaded state))).
  { unfold handleKeyDown. rewrite Hkey, Hg, Hrun. cbn [andb fst].
    unfold midJump, jumpHeight.
    cbn [player set_player Player.vy Player.y Player.h Player.set_grounded
         Player.set_vy].
    change (inject_Z 0) with 0. unfold JUMP_FORCE, GRAVITY. split; lra. }
  set (jumped := fst (handleKeyDown key soundLoaded state)) in *.
  intros Hrun'. split.
  - intros Hn.
    destruct (jump_arc canvasHeight rnds jumped 0 ltac:(lia) ltac:(lia)
                Hmid Hrun') as [[Hv Hh] Hgr].
    rewrite Z.add_0_l in *.
    destruct (jumpHeight_bounds _ Hn) as [Hlo Hhi].
    split; [apply Hgr; destruct rnds; [cbn in Hn; lia | discriminate]|].
    split; [lra|]. split; [lra|].
    unfold JUMP_FORCE, GRAVITY in Hv. split; intros Hn'.
    + assert (H16 : inject_Z (Z.of_nat (List.length rnds)) <= 16).
      { change 16 with (inject_Z 16). rewrite <- Zle_Qle. exact Hn'. }
      lra.
    + assert (H17 : 17 <= inject_Z (Z.of_nat (List.length rnds))).
      { change 17 with (inject_Z 17). rewrite <- Zle_Qle. exact Hn'. }
      lra.
  - intros Hn.
    destruct (exists_last (l := rnds)) as (l & r & ->);
      [destruct rnds; [discriminate Hn | discriminate]|].
    rewrite length_app in Hn. cbn [List.length] in Hn.
    rewrite run_snoc in *.
    pose proof (loop_was_running _ _ _ _ Hrun') as Hrun32.
    destruct (jump_arc canvasHeight l jumped 0 ltac:(lia) ltac:(lia)
                Hmid Hrun32) as [Hmid32 _].
    replace (0 + Z.of_nat (List.length l))%Z with 32%Z in Hmid32 by lia.
    now apply jump_lands.
Qed.

Lemma X10_witness :
  let jumped := fst (handleKeyDown Space true (resetState 800)) in
  let p' := player (run 800 (repeat (always 0.5) 33) jumped) in
  Player.grounded p' = true /\ Player.vy p' = 0
  /\ Player.y p' + Player.h p' == inject_Z 800 - PLAYER_GROUND_OFFSET.
Proof.
  refine (proj2 (X10_jump_arc 800 (resetState 800) Space true
                   (repeat (always 0.5) 33) eq_refl eq_refl eq_refl _ _) _).
  - vm_compute. reflexivity.
  - vm_compute. reflexivity.
  - reflexivity.
Defined.

(** ** The balance and the high score *)

Lemma applyCalls_balance state cs c :
  RunnerGame.balance (fold_left (applyCall state) cs c) = RunnerGame.balance c.
Proof.
  revert c; induction cs as [|u cs IH]; intros c; [reflexivity|].
  cbn [fold_left]. rewrite IH. now destruct u.
Qed.

Lemma frame_balance rnd c :
  RunnerGame.balance (frame rnd c) = RunnerGame.balance c.
Proof. unfold frame. now rewrite applyCalls_balance. Qed.

(** X11. The balance is touched by two handlers only.  The game-over
    overlay never lowers it, a successful withdrawal sets it to 0, and no
    other event (frame, key, resize, reset, modal) changes it.  A balance
    that is [NaN] stays [NaN] under every event. *)
Theorem X11_balance_changes c e :
  (RunnerGame.balance c = NaN -> RunnerGame.balance (handle e c) = NaN)
  /\ (forall z,
        RunnerGame.balance c = Num z ->
        exists z',
          RunnerGame.balance (handle e c) = Num z'
          /\ ((z <= z')%Z
              \/ e = RequestWithdrawal /\ (1000 <= z)%Z /\ z' = 0%Z))
  /\ (e <> GameOverShown -> e <> RequestWithdrawal ->
      RunnerGame.balance (handle e c) = RunnerGame.balance c).
Proof.
  assert (Hsame : e <> GameOverShown -> e <> RequestWithdrawal ->
                  RunnerGame.balance (handle e c) = RunnerGame.balance c).
  { intros H1 H2. destruct e; cbn [handle]; try reflexivity;
      try (now contradiction H1); try (now contradiction H2).
    - apply frame_balance.
    - unfold resize, resizeListener. cbv zeta. now destruct (_ && _). }
  split; [|split; [|exact Hsame]].
  - intros Hb. destruct e;
      try (rewrite Hsame by discriminate; exact Hb); cbn [handle].
    + unfold onAnimationStart. destruct (negb _); [|exact Hb].
      destruct (_ <? _)%Z; cbn [RunnerGame.balance RunnerGame.set_pointsAddedRef
                                 RunnerGame.setBalance]; now rewrite Hb.
    + unfold requestWithdrawal. now rewrite Hb.
  - intros z Hb. destruct e;
      try (rewrite Hsame by discriminate; exists z; split; [exact Hb | left; lia]);
      cbn [handle].
    + unfold onAnimationStart. destruct (negb _);
        [|exists z; split; [exact Hb | left; lia]].
      destruct (Z.ltb_spec 0 (RunnerGame.score c));
        cbn [RunnerGame.balance RunnerGame.set_pointsAddedRef
             RunnerGame.setBalance]; rewrite Hb; cbn [jsnum_add].
      * eexists; split; [reflexivity | left; lia].
      * exists z; split; [reflexivity | left; lia].
    + unfold requestWithdrawal. rewrite Hb. cbn [jsnum_geb].
      unfold MIN_WITHDRAWAL_POINTS.
      destruct (Z.leb_spec 1000 z); cbn [RunnerGame.balance RunnerGame.setBalance].
      * exists 0%Z. split; [reflexivity|]. right. repeat split. exact H.
      * exists z. split; [exact Hb | left; lia].
Qed.

Lemma applyCalls_highScore state cs c :
  RunnerGame.highScore (fold_left (applyCall state) cs c) =
  lastHighScore (Qfloor (score state)) cs (RunnerGame.highScore c).
Proof.
  revert c; induction cs as [|u cs IH]; intros c; [reflexivity|].
  cbn [fold_left]. rewrite IH. unfold lastHighScore. cbn [fold_left].
  now destruct u.
Qed.

Lemma lastHighScore_ge fl cs n : (n <= lastHighScore fl cs n)%Z.
Proof.
  revert n; induction cs as [|u cs IH]; intros n; [cbn; lia|].
  unfold lastHighScore in *. cbn [fold_left].
  destruct u; try apply IH. etransitivity; [|apply IH]. lia.
Qed.

Lemma lastHighScore_in fl cs n :
  In SetHighScore cs -> (fl <= lastHighScore fl cs n)%Z.
Proof.
  revert n; induction cs as [|u cs IH]; intros n Hin; [contradiction|].
  unfold lastHighScore in *. cbn [fold_left].
  destruct Hin as [-> | Hin]; [|now apply IH].
  etransitivity; [|apply (lastHighScore_ge fl cs)]. lia.
Qed.

Lemma loopBody_calls_highScore canvasHeight state rnd k :
  (0 < trapsHit canvasHeight state rnd k)%nat ->
  In SetHighScore (calls (loopBody canvasHeight state rnd k)).
Proof.
  intros Hn. rewrite loopBody_calls, afterCollision_calls.
  apply in_or_app. right. apply in_or_app. left.
  destruct (trapsHit canvasHeight state rnd k) as [|n]; [lia|].
  change (gameOverCalls (S n))
    with ([SetGameState GAME_OVER; SetHighScore] ++ gameOverCalls n).
  cbn. auto.
Qed.

Lemma handle_highScore_ge e c :
  (RunnerGame.highScore c <= RunnerGame.highScore (handle e c))%Z.
Proof.
  destruct e; cbn [handle]; try (cbn; lia).
  - unfold frame. rewrite applyCalls_highScore. apply lastHighScore_ge.
  - unfold resize, resizeListener. cbv zeta. destruct (_ && _); cbn; lia.
  - unfold onAnimationStart.
    destruct (negb _); [destruct (_ <? _)%Z|]; cbn; lia.
  - unfold requestWithdrawal. destruct (jsnum_geb _ _); cbn; lia.
Qed.

(** X12. The high score never goes down, whatever happens, and once a run
    has ended it is at least the score of that run: in every reachable
    state with game state [GAME_OVER] the HUD score is at most the high
    score. *)
Theorem X12_high_score c :
  reachable c ->
  (forall e, (RunnerGame.highScore c <= RunnerGame.highScore (handle e c))%Z)
  /\ (RunnerGame.gameState c = GAME_OVER ->
      (RunnerGame.score c <= RunnerGame.highScore c)%Z).
Proof.
  intros Hc. split; [intros e; apply handle_highScore_ge|].
  induction Hc as [saved iw ih | e c Hc IH Hen].
  - unfold mount, resize, resizeListener. cbv zeta. destruct (_ && _); discriminate.
  - destruct e; cbn [handle enabled] in *; try exact IH.
    + discriminate.
    + destruct (isRunning (RunnerGame.stateRef c)) eqn:Hrun;
        [|now rewrite frame_not_running].
      intros Hover.
      assert (Hc' : reachable (frame rnd c))
        by exact (reach_step (AnimationFrame rnd) c Hc Hen).
      destruct (reachable_hud_score _ Hc') as (-> & _ & _).
      pose proof (reachable_distance c Hc Hrun) as Hd.
      pose proof (frame_distance rnd c) as Hf. cbv zeta in Hf.
      specialize (Hf Hrun Hd).
      destruct (trapsHit _ _ _ _) eqn:En.
      * destruct Hf as [_ Hr].
        apply (reachable_running_playing _ Hc') in Hr. congruence.
      * rewrite frame_stateRef. unfold frame. rewrite applyCalls_highScore.
        apply lastHighScore_in. rewrite (loop_running _ _ Hrun).
        apply loopBody_calls_highScore. rewrite En. lia.
    + unfold resize, resizeListener. cbv zeta. destruct (_ && _); exact IH.
    + unfold onAnimationStart.
      destruct (negb _); [destruct (_ <? _)%Z|]; exact IH.
    + unfold requestWithdrawal. destruct (jsnum_geb _ _); exact IH.
Qed.

Lemma X12_witness :
  (RunnerGame.score (session 0 111) <= RunnerGame.highScore (session 0 111))%Z.
Proof.
  refine (proj2 (X12_high_score (session 0 111) _) _).
  - apply session_reachable; [discriminate | reflexivity].
  - vm_compute. reflexivity.
Defined.

Lemma X11_witness :
  RunnerGame.balance (handle (KeyDown Space true) (withBalance 5)) =
  RunnerGame.balance (withBalance 5).
Proof.
  refine (proj2 (proj2 (X11_balance_changes (withBalance 5)
                          (KeyDown Space true))) _ _);
    discriminate.
Defined.

(** ** What is drawn *)

Lemma enemyCatchCheck_enemy state rnd k :
  enemy (result (enemyCatchCheck state rnd k)) = enemy state.
Proof. rewrite enemyCatchCheck_run. now destruct (Qleb _ _). Qed.

(** X13. The danger display (the hue-rotated player and the "DANGER!"
    text, shown when the enemy is closer than 200) never warns: from a
    reachable running state a frame draws it exactly when that frame has
    run into a trap, that is, in the frame that ends the run. *)
Theorem X13_danger_only_in_the_last_frame c rnd :
  reachable c ->
  isRunning (RunnerGame.stateRef c) = true ->
  let canvasHeight := snd (RunnerGame.canvasSizeRef c) in
  let drawn :=
    result (afterCatch canvasHeight (RunnerGame.stateRef c) rnd 0%nat) in
  isDanger drawn = true <->
  (0 < trapsHit canvasHeight (RunnerGame.stateRef c) rnd 0)%nat.
Proof.
  intros Hc Hrun. cbv zeta. unfold isDanger, afterCatch; cbv zeta.
  rewrite enemyCatchCheck_enemy.
  pose proof (afterCollision_outcome (snd (RunnerGame.canvasSizeRef c))
                (RunnerGame.stateRef c) rnd 0%nat) as Hout.
  cbv zeta in Hout.
  pose proof (beforeSpawn_distance (snd (RunnerGame.canvasSizeRef c))
                (RunnerGame.stateRef c)) as Hge.
  pose proof (reachable_distance c Hc Hrun) as Hd.
  destruct (trapsHit _ _ _ _).
  - destruct Hout as (-> & _). split; [|lia].
    intros H. apply Qltb_lt in H. lra.
  - destruct Hout as (-> & _). split; [lia | reflexivity].
Qed.

Lemma X13_witness :
  isDanger (result (afterCatch (snd (RunnerGame.canvasSizeRef (session 0 110)))
                      (RunnerGame.stateRef (session 0 110)) (always 0) 0%nat)) = true
  <-> (0 < trapsHit (snd (RunnerGame.canvasSizeRef (session 0 110)))
             (RunnerGame.stateRef (session 0 110)) (always 0) 0)%nat.
Proof.
  refine (X13_danger_only_in_the_last_frame (session 0 110) (always 0) _ _).
  - apply session_reachable; [discriminate | reflexivity].
  - vm_compute. reflexivity.
Defined.

Lemma isDrawn_spec canvasWidth state obs :
  isDrawn canvasWidth state obs = true <->
  Player.worldX (player state) - 550 < Obstacle.x obs
  /\ Obstacle.x obs < Player.worldX (player state) + inject_Z canvasWidth - 350.
Proof.
  unfold isDrawn, screenX, cameraX, PLAYER_X, PLAYER_SCREEN_X.
  rewrite andb_true_iff, Qgtb_gt, Qltb_lt. split; intros [H1 H2]; split; lra.
Qed.

(** X14. Where traps appear.  A trap is drawn exactly while it lies less
    than 550 behind the player and less than [canvas.width - 350] ahead.
    The trap a frame spawns is 1200 ahead, so the same frame draws it only
    on a canvas wider than 1550; on a narrower canvas traps are spawned off
    screen. *)
Theorem X14_trap_visibility canvasWidth canvasHeight state :
  (forall obs,
     isDrawn canvasWidth state obs = true <->
     Player.worldX (player state) - 550 < Obstacle.x obs
     /\ Obstacle.x obs <
        Player.worldX (player state) + inject_Z canvasWidth - 350)
  /\ (isDrawn canvasWidth state (newObstacle canvasHeight state) = true <->
      (1550 < canvasWidth)%Z).
Proof.
  split; [intros obs; apply isDrawn_spec|].
  rewrite isDrawn_spec. unfold newObstacle, spawnDistance. cbn [Obstacle.x].
  rewrite Zlt_Qlt. change (inject_Z 1550) with 1550.
  split; [intros [_ H]; lra | intros H; split; lra].
Qed.

(** * Pixel processing *)

Lemma list_ind4 (P : list Z -> Prop) :
  P [] -> (forall a, P [a]) -> (forall a b, P [a; b]) ->
  (forall a b c, P [a; b; c]) ->
  (forall r g b a rest, P rest -> P (r :: g :: b :: a :: rest)) ->
  forall l, P l.
Proof.
  intros H0 H1 H2 H3 H4. fix IH 1.
  intros [|r [|g [|b [|a rest]]]];
    [exact H0 | apply H1 | apply H2 | apply H3 | apply H4, IH].
Qed.

Lemma mod4_step i : Nat.modulo (S (S (S (S i)))) 4 = Nat.modulo i 4.
Proof.
  replace (S (S (S (S i)))) with (i + 1 * 4)%nat by lia.
  apply Nat.Div0.mod_add.
Qed.

Lemma removeBackgroundLoop_clear bgR bgG bgB data :
  removeBackgroundLoop bgR bgG bgB data =
  clearAlphaWhere (isBgColor bgR bgG bgB) data.
Proof.
  induction data using list_ind4; try reflexivity.
  cbn [removeBackgroundLoop clearAlphaWhere]. now rewrite IHdata.
Qed.

Lemma chromaKeyLoop_clear bgR bgG bgB data :
  chromaKeyLoop bgR bgG bgB data =
  clearAlphaWhere (matchesBackground bgR bgG bgB) data.
Proof.
  induction data using list_ind4; try reflexivity.
  cbn [chromaKeyLoop clearAlphaWhere]. now rewrite IHdata.
Qed.

Lemma clearAlphaWhere_length test data :
  List.length (clearAlphaWhere test data) = List.length data.
Proof.
  induction data using list_ind4; try reflexivity.
  cbn [clearAlphaWhere List.length]. now rewrite IHdata.
Qed.

(** Entry by entry: a colour byte is never written, an alpha byte is kept
    or cleared. *)
Lemma clearAlphaWhere_nth test data :
  forall i,
    nth i (clearAlphaWhere test data) 0%Z = nth i data 0%Z
    \/ (Nat.modulo i 4 = 3%nat /\ nth i (clearAlphaWhere test data) 0%Z = 0%Z).
Proof.
  induction data using list_ind4; intros i; try (now left).
  cbn [clearAlphaWhere].
  destruct i as [|[|[|[|i]]]]; try (now left).
  - destruct (test r g b); [right; split; reflexivity | now left].
  - cbn [nth]. destruct (IHdata i) as [H | [Hm H]]; [now left|].
    right. split; [|exact H]. now rewrite mod4_step.
Qed.

Lemma clearAlphaWhere_idem test data :
  clearAlphaWhere test (clearAlphaWhere test data) = clearAlphaWhere test data.
Proof.
  induction data using list_ind4; try reflexivity.
  cbn [clearAlphaWhere]. rewrite IHdata. now destruct (test r g b).
Qed.

Lemma clearAlphaWhere_samples test data :
  nth 0 (clearAlphaWhere test data) 0%Z = nth 0 data 0%Z
  /\ nth 1 (clearAlphaWhere test data) 0%Z = nth 1 data 0%Z
  /\ nth 2 (clearAlphaWhere test data) 0%Z = nth 2 data 0%Z.
Proof. destruct data as [|r [|g [|b [|a rest]]]]; repeat split. Qed.

Lemma isBgColor_self r g b : isBgColor r g b r g b = true.
Proof.
  unfold isBgColor. cbv zeta. now rewrite !Z.sub_diag.
Qed.

Lemma isBgColor_white bgR bgG bgB r g b :
  (240 < r)%Z -> (240 < g)%Z -> (240 < b)%Z ->
  isBgColor bgR bgG bgB r g b = true.
Proof.
  intros Hr Hg Hb. unfold isBgColor. cbv zeta.
  destruct (_ && _ && _)%bool; [reflexivity|].
  apply Z.ltb_lt in Hr, Hg, Hb. now rewrite Hr, Hg, Hb.
Qed.

(** X15. Background removal of [loadAndProcess].  The result has the length
    of the input; no colour byte changes and every alpha byte is kept or set
    to 0; the top-left pixel, which serves as the background sample, always
    becomes transparent; every pixel whose three colour bytes exceed 240
    becomes transparent; and removing the background twice gives the same
    as removing it once. *)
Theorem X15_remove_background data :
  List.length (removeBackground data) = List.length data
  /\ (forall i,
        nth i (removeBackground data) 0%Z = nth i data 0%Z
        \/ (Nat.modulo i 4 = 3%nat /\ nth i (removeBackground data) 0%Z = 0%Z))
  /\ ((4 <= List.length data)%nat -> nth 3 (removeBackground data) 0%Z = 0%Z)
  /\ (forall before r g b a rest,
        data = before ++ r :: g :: b :: a :: rest ->
        Nat.modulo (List.length before) 4 = 0%nat ->
        (240 < r)%Z -> (240 < g)%Z -> (240 < b)%Z ->
        nth (List.length before + 3) (removeBackground data) 0%Z = 0%Z)
  /\ removeBackground (removeBackground data) = removeBackground data.
Proof.
  unfold removeBackground. rewrite !removeBackgroundLoop_clear.
  split; [apply clearAlphaWhere_length|].
  split; [apply clearAlphaWhere_nth|]. split; [|split].
  - destruct data as [|r [|g [|b [|a rest]]]]; cbn [List.length]; try lia.
    intros _. cbn [nth clearAlphaWhere]. now rewrite isBgColor_self.
  - intros before r g b a rest -> Hm Hr Hg Hb.
    generalize (isBgColor (nth 0 (before ++ r :: g :: b :: a :: rest) 0%Z)
                  (nth 1 (before ++ r :: g :: b :: a :: rest) 0%Z)
                  (nth 2 (before ++ r :: g :: b :: a :: rest) 0%Z))
      (isBgColor_white (nth 0 (before ++ r :: g :: b :: a :: rest) 0%Z)
                  (nth 1 (before ++ r :: g :: b :: a :: rest) 0%Z)
                  (nth 2 (before ++ r :: g :: b :: a :: rest) 0%Z)
                  r g b Hr Hg Hb).
    intros test Htest. revert Hm.
    induction before using list_ind4; cbn [List.length];
      try (cbn; discriminate).
    + intros _. cbn [app clearAlphaWhere nth Nat.add]. now rewrite Htest.
    + intros Hm. cbn [app clearAlphaWhere nth Nat.add]. apply IHbefore.
      now rewrite mod4_step in Hm.
  - destruct (clearAlphaWhere_samples
                (isBgColor (nth 0 data 0%Z) (nth 1 data 0%Z) (nth 2 data 0%Z))
                data) as (-> & -> & ->).
    apply clearAlphaWhere_idem.
Qed.

Lemma X15_witness :
  nth 3 (removeBackground [10; 20; 30; 255; 200; 100; 50; 255]%Z) 0%Z = 0%Z.
Proof.
  refine (proj1 (proj2 (proj2 (X15_remove_background
                                 [10; 20; 30; 255; 200; 100; 50; 255]%Z))) _).
  cbn. lia.
Defined.

Lemma clearAlphaWhere_at test before r g b a rest :
  Nat.modulo (List.length before) 4 = 0%nat ->
  nth (List.length before + 3)
    (clearAlphaWhere test (before ++ r :: g :: b :: a :: rest)) 0%Z =
  if test r g b then 0%Z else a.
Proof.
  induction before using list_ind4; cbn [List.length];
    try (cbn; discriminate).
  - intros _. reflexivity.
  - intros Hm. cbn [app clearAlphaWhere nth Nat.add]. apply IHbefore.
    now rewrite mod4_step in Hm.
Qed.

(** X16. The chroma key of the player's video frame.  The frame keeps its
    length and all colour bytes; the alpha byte of a pixel is set to 0 when
    each of its colour bytes is less than 70 away from the top-left pixel's
    and is kept otherwise, so the top-left pixel itself is always cleared;
    keying twice is keying once. *)
Theorem X16_chroma_key data :
  List.length (chromaKey data) = List.length data
  /\ (forall i,
        Nat.modulo i 4 <> 3%nat -> nth i (chromaKey data) 0%Z = nth i data 0%Z)
  /\ (forall before r g b a rest,
        data = before ++ r :: g :: b :: a :: rest ->
        Nat.modulo (List.length before) 4 = 0%nat ->
        nth (List.length before + 3) (chromaKey data) 0%Z =
        if ((Z.abs (r - nth 0 data 0) <? 70) && (Z.abs (g - nth 1 data 0) <? 70)
            && (Z.abs (b - nth 2 data 0) <? 70))%Z
        then 0%Z else a)
  /\ ((4 <= List.length data)%nat -> nth 3 (chromaKey data) 0%Z = 0%Z)
  /\ chromaKey (chromaKey data) = chromaKey data.
Proof.
  unfold chromaKey. rewrite !chromaKeyLoop_clear.
  split; [apply clearAlphaWhere_length|]. split; [|split; [|split]].
  - intros i Hi.
    destruct (clearAlphaWhere_nth
                (matchesBackground (nth 0 data 0%Z) (nth 1 data 0%Z)
                   (nth 2 data 0%Z)) data i) as [H | [Hm _]];
      [exact H | contradiction].
  - intros before r g b a rest E Hm.
    rewrite E at 4. now rewrite clearAlphaWhere_at.
  - destruct data as [|r [|g [|b [|a rest]]]]; cbn [List.length]; try lia.
    intros _. cbn [nth clearAlphaWhere]. unfold matchesBackground.
    now rewrite !Z.sub_diag.
  - destruct (clearAlphaWhere_samples
                (matchesBackground (nth 0 data 0%Z) (nth 1 data 0%Z)
                   (nth 2 data 0%Z)) data) as (-> & -> & ->).
    apply clearAlphaWhere_idem.
Qed.

Lemma X16_witness :
  nth 3 (chromaKey [10; 20; 30; 255; 200; 100; 50; 255]%Z) 0%Z = 0%Z.
Proof.
  refine (proj1 (proj2 (proj2 (proj2 (X16_chroma_key
                                 [10; 20; 30; 255; 200; 100; 50; 255]%Z)))) _).
  cbn. lia.
Defined.

(** * Further properties of the handlers *)

Lemma burst_velocity n x y color rnd k p :
  unitInterval rnd ->
  In p (burst n x y color rnd k) ->
  -5 <= Particle.vx p /\ Particle.vx p < 5
  /\ -5 <= Particle.vy p /\ Particle.vy p < 5.
Proof.
  intros Hrnd. revert k; induction n as [|n IH]; intros k; cbn [burst In];
    [tauto|].
  intros [<- | H]; [|eauto]. cbn [Particle.vx Particle.vy].
  destruct (Hrnd k), (Hrnd (S k)). repeat split; lra.
Qed.

(** X17. [createExplosion] appends exactly ten particles and changes
    nothing else.  With random numbers in [0,1) each new particle sits at
    the given point with full life and the given colour, and both of its
    velocity components lie in [-5, 5).  It draws 20 random numbers and
    calls no setter. *)
Theorem X17_createExplosion x y color state rnd k :
  unitInterval rnd ->
  let r := createExplosion x y color state rnd k in
  cursor r = (k + 20)%nat
  /\ calls r = []
  /\ exists new,
       result r = set_particles (particles state ++ new) state
       /\ List.length new = 10%nat
       /\ forall p, In p new ->
            Particle.x p = x /\ Particle.y p = y /\ Particle.life p = 1.0
            /\ Particle.color p = color
            /\ -5 <= Particle.vx p /\ Particle.vx p < 5
            /\ -5 <= Particle.vy p /\ Particle.vy p < 5.
Proof.
  intros Hrnd. cbv zeta. rewrite createExplosion_run.
  split; [reflexivity|]. split; [reflexivity|].
  exists (burst 10 x y color rnd k). split; [reflexivity|].
  split; [apply burst_length|]. intros p Hp.
  destruct (burst_at _ _ _ _ _ _ _ Hp) as (Hx & Hy & Hl & Hc).
  destruct (burst_velocity _ _ _ _ _ _ _ Hrnd Hp) as (H1 & H2 & H3 & H4).
  repeat split; assumption.
Qed.

Lemma X17_witness :
  cursor (createExplosion 3 4 "red" (resetState 800) (always 0.5) 0%nat)
  = (0 + 20)%nat.
Proof.
  refine (proj1 (X17_createExplosion 3 4 "red" (resetState 800) (always 0.5)
                   0%nat _)).
  apply always_unit; [discriminate | reflexivity].
Defined.

(** X18. The credit of a run is the floor of its final score.  In a
    reachable state in which the flag [pointsAddedRef] is still clear, the
    game-over overlay, however often its animation starts, adds the floor of
    the simulation's score to the balance, once; and [resetGame] clears the
    flag, so each run is credited on its own. *)
Theorem X18_credit_is_final_score c n :
  reachable c ->
  RunnerGame.pointsAddedRef c = false ->
  RunnerGame.balance (Nat.iter (S n) onAnimationStart c) =
    jsnum_add (RunnerGame.balance c) (Qfloor (score (RunnerGame.stateRef c)))
  /\ RunnerGame.pointsAddedRef (Nat.iter (S n) onAnimationStart c) = true
  /\ RunnerGame.pointsAddedRef (resetGame (Nat.iter (S n) onAnimationStart c))
     = false.
Proof.
  intros Hc Hno. destruct (reachable_hud_score c Hc) as (Hui & _ & Hpos).
  split; [|split; [|reflexivity]].
  - rewrite onAnimationStart_settles_once by assumption.
    rewrite Hui. f_equal. apply Z.max_r.
    change 0%Z with (Qfloor 0). now apply Qfloor_resp_le.
  - induction n as [|n IH].
    + cbn [Nat.iter nat_rect]. unfold onAnimationStart. rewrite Hno.
      cbn [negb]. now destruct (_ <? _)%Z.
    + change (Nat.iter (S (S n)) onAnimationStart c)
        with (onAnimationStart (Nat.iter (S n) onAnimationStart c)).
      unfold onAnimationStart at 1. now rewrite IH.
Qed.

Lemma X18_witness :
  RunnerGame.balance (Nat.iter 3 onAnimationStart (session 0 111)) =
  jsnum_add (RunnerGame.balance (session 0 111))
    (Qfloor (score (RunnerGame.stateRef (session 0 111)))).
Proof.
  refine (proj1 (X18_credit_is_final_score (session 0 111) 2 _ _)).
  - apply session_reachable; [discriminate | reflexivity].
  - vm_compute. reflexivity.
Defined.

(** * The login component *)

Lemma trimStart_blank s : blank s = true -> trimStart s = [].
Proof.
  induction s as [|c s IH]; [reflexivity|]. cbn [blank forallb trimStart].
  intros [-> H]%andb_true_iff. now apply IH.
Qed.

Lemma trimStart_blank_app ws s :
  blank ws = true -> trimStart (ws ++ s) = trimStart s.
Proof.
  induction ws as [|c ws IH]; [reflexivity|]. cbn [blank forallb app trimStart].
  intros [-> H]%andb_true_iff. now apply IH.
Qed.

Lemma trimStart_app s t :
  trimStart s <> [] -> trimStart (s ++ t) = trimStart s ++ t.
Proof.
  induction s as [|c s IH]; [intros H; now contradiction H|].
  cbn [app trimStart]. destruct (isWhiteSpace c); [exact IH | reflexivity].
Qed.

Lemma trimStart_nil_blank s : trimStart s = [] -> blank s = true.
Proof.
  induction s as [|c s IH]; [reflexivity|]. cbn [trimStart blank forallb].
  destruct (isWhiteSpace c); [exact IH | discriminate].
Qed.

Lemma blank_app s t : blank (s ++ t) = blank s && blank t.
Proof. apply forallb_app. Qed.

Lemma blank_rev s : blank (rev s) = blank s.
Proof.
  induction s as [|c s IH]; [reflexivity|]. cbn [rev].
  rewrite blank_app, IH. cbn [blank forallb]. rewrite andb_true_r.
  apply andb_comm.
Qed.

Lemma trimEnd_blank_app s ws : blank ws = true -> trimEnd (s ++ ws) = trimEnd s.
Proof.
  intros H. unfold trimEnd. rewrite rev_app_distr.
  now rewrite trimStart_blank_app by now rewrite blank_rev.
Qed.

Lemma trim_blank s : blank s = true -> trim s = [].
Proof. intros H. unfold trim. now rewrite trimStart_blank. Qed.

(** [trim] does not see white space around its argument. *)
Lemma trim_padded ws1 s ws2 :
  blank ws1 = true -> blank ws2 = true -> trim (ws1 ++ s ++ ws2) = trim s.
Proof.
  intros H1 H2. unfold trim. rewrite trimStart_blank_app by assumption.
  destruct (trimStart s) as [|c t] eqn:E.
  - apply trimStart_nil_blank in E.
    rewrite trimStart_blank by (rewrite blank_app, E, H2; reflexivity).
    reflexivity.
  - rewrite trimStart_app by (rewrite E; discriminate).
    rewrite E. now apply trimEnd_blank_app.
Qed.

(** X19. Logging in with a blank key.  When the input is empty or consists
    of white space only, [handleLogin] sets the error "Please enter a
    private key", does not call [onLogin] and changes nothing else; the
    decoder has no say in it. *)
Theorem X19_blank_key_is_rejected publicKeyOf a :
  blank (Auth.privateKeyInput a) = true ->
  handleLogin publicKeyOf a =
  (Auth.setError "Please enter a private key" a, None).
Proof.
  intros H. unfold handleLogin. now rewrite trim_blank.
Qed.

Lemma X19_witness :
  handleLogin (fun s => Some s)
    (Auth.setPrivateKeyInput (jsstring_of "   ") authStart) =
  (Auth.setError "Please enter a private key"
     (Auth.setPrivateKeyInput (jsstring_of "   ") authStart), None).
Proof.
  refine (X19_blank_key_is_rejected (fun s => Some s)
            (Auth.setPrivateKeyInput (jsstring_of "   ") authStart) _).
  reflexivity.
Defined.

(** X20. White space around the key does not matter: with the same decoder
    [handleLogin] calls [onLogin] with the same argument, or not at all, and
    shows the same error, whether the input is [s] or [s] with white space
    before and after it. *)
Theorem X20_login_ignores_surrounding_space publicKeyOf a ws1 s ws2 :
  blank ws1 = true -> blank ws2 = true ->
  let padded := Auth.setPrivateKeyInput (ws1 ++ s ++ ws2) a in
  let plain := Auth.setPrivateKeyInput s a in
  snd (handleLogin publicKeyOf padded) = snd (handleLogin publicKeyOf plain)
  /\ Auth.error (fst (handleLogin publicKeyOf padded)) =
     Auth.error (fst (handleLogin publicKeyOf plain)).
Proof.
  intros H1 H2. cbv zeta. unfold handleLogin.
  cbn [Auth.privateKeyInput Auth.setPrivateKeyInput].
  rewrite (trim_padded ws1 s ws2 H1 H2).
  destruct (trim s) as [|c t]; [now split|].
  destruct (publicKeyOf (c :: t)); now split.
Qed.

Lemma X20_witness :
  snd (handleLogin (fun s => Some s)
         (Auth.setPrivateKeyInput
            (jsstring_of " " ++ jsstring_of "key" ++ jsstring_of "  ")
            authStart)) =
  snd (handleLogin (fun s => Some s)
         (Auth.setPrivateKeyInput (jsstring_of "key") authStart)).
Proof.
  refine (proj1 (X20_login_ignores_surrounding_space (fun s => Some s)
                   authStart (jsstring_of " ") (jsstring_of "key")
                   (jsstring_of "  ") _ _)); reflexivity.
Defined.

(** X21. [handleLogin] calls [onLogin] exactly when the trimmed input is not
    empty and decodes, and then with the decoded public key; in that case it
    changes nothing in the component, so an error message left by an earlier
    attempt stays.  In every other case [onLogin] is not called and the
    error is set. *)
Theorem X21_login_outcome publicKeyOf a :
  (forall publicKey,
     snd (handleLogin publicKeyOf a) = Some publicKey <->
     trim (Auth.privateKeyInput a) <> []
     /\ publicKeyOf (trim (Auth.privateKeyInput a)) = Some publicKey)
  /\ (snd (handleLogin publicKeyOf a) <> None ->
      fst (handleLogin publicKeyOf a) = a)
  /\ (snd (handleLogin publicKeyOf a) = None ->
      Auth.error (fst (handleLogin publicKeyOf a)) <> ""%string
      /\ Auth.setError (Auth.error a) (fst (handleLogin publicKeyOf a)) = a).
Proof.
  unfold handleLogin.
  destruct (trim (Auth.privateKeyInput a)) as [|c t].
  - cbn [fst snd]. split; [|split].
    + intros pk. split; [discriminate | intros [H _]; now contradiction H].
    + intros H; now contradiction H.
    + intros _. split; [discriminate | now destruct a].
  - destruct (publicKeyOf (c :: t)) as [pk0|]; cbn [fst snd];
      (split; [|split]).
    + intros pk. split; [intros H; split; [discriminate | exact H] | tauto].
    + reflexivity.
    + discriminate.
    + intros pk. split; [discriminate | intros [_ H]; discriminate H].
    + intros H; now contradiction H.
    + intros _. split; [discriminate | now destruct a].
Qed.

Lemma X21_witness :
  fst (handleLogin (fun s => Some s)
         (Auth.setError "Invalid Private Key. Please check your input."
            (Auth.setPrivateKeyInput (jsstring_of "key") authStart))) =
  Auth.setError "Invalid Private Key. Please check your input."
    (Auth.setPrivateKeyInput (jsstring_of "key") authStart).
Proof.
  refine (proj1 (proj2 (X21_login_outcome (fun s => Some s)
            (Auth.setError "Invalid Private Key. Please check your input."
               (Auth.setPrivateKeyInput (jsstring_of "key") authStart)))) _).
  discriminate.
Defined.

(** * Before the first start *)

Lemma loop_lastGameState canvasHeight state rnd k g :
  lastGameState (calls (loop canvasHeight state rnd k)) g = g
  \/ lastGameState (calls (loop canvasHeight state rnd k)) g = GAME_OVER.
Proof.
  unfold loop. destruct (isRunning state); cbn [negb]; [|now left].
  pose proof (loopBody_outcome canvasHeight state rnd k) as H. cbv zeta in H.
  destruct (trapsHit _ _ _ _).
  - destruct H as (_ & H). destruct (Qleb _ _); destruct H as (_ & H);
      rewrite H; auto.
  - destruct H as (_ & _ & H). rewrite H. auto.
Qed.

(** X22. Before the first start nothing moves.  As long as the game state
    is [START], whatever frames are scheduled, keys pressed or windows
    resized, the simulation record is the initial one with the player
    standing on the ground line of the current canvas, and the scores
    are 0. *)
Theorem X22_frozen_before_start c :
  reachable c ->
  RunnerGame.gameState c = START ->
  RunnerGame.stateRef c =
    set_player
      (Player.set_y
         (inject_Z (snd (RunnerGame.canvasSizeRef c)) - PLAYER_GROUND_OFFSET
          - PLAYER_SIZE)
         (player initialState))
      initialState
  /\ RunnerGame.score c = 0%Z
  /\ RunnerGame.highScore c = 0%Z.
Proof.
  induction 1 as [saved iw ih | e c Hc IH Hen].
  - intros _. repeat split.
  - destruct e; cbn [handle enabled] in *; try exact IH.
    + discriminate.
    + intros Hstart.
      assert (Hg : RunnerGame.gameState c = START).
      { unfold frame in Hstart. rewrite applyCalls_gameState in Hstart.
        cbn [RunnerGame.gameState RunnerGame.set_stateRef] in Hstart.
        destruct (loop_lastGameState (snd (RunnerGame.canvasSizeRef c))
                    (RunnerGame.stateRef c) rnd 0%nat (RunnerGame.gameState c))
          as [E | E]; rewrite E in Hstart; [exact Hstart | discriminate]. }
      rewrite frame_not_running; [now apply IH|].
      destruct (IH Hg) as (-> & _). reflexivity.
    + intros Hstart. destruct (IH Hstart) as (Hs & Hsc & Hh).
      unfold keyDown, handleKeyDown. rewrite Hs.
      cbn [isRunning set_player initialState andb]. rewrite andb_false_r.
      destruct (isJumpKey k); cbn [fst]; repeat split; try assumption;
        cbn [RunnerGame.stateRef RunnerGame.set_stateRef
             RunnerGame.canvasSizeRef]; now rewrite <- Hs.
    + intros Hstart.
      assert (Hg : RunnerGame.gameState c = START).
      { now destruct (resize_frame innerWidth innerHeight c) as (_ & _ & <-). }
      destruct (IH Hg) as (Hs & Hsc & Hh).
      unfold resize, resizeListener. cbv zeta.
      cbn [RunnerGame.stateRef RunnerGame.gameState
           RunnerGame.set_canvasSizeRef].
      rewrite Hs. cbn. repeat split; assumption.
    + intros Hstart.
      destruct (onAnimationStart_frame c) as (Es & Eg). rewrite Eg in Hstart.
      destruct (IH Hstart) as (Hs & Hsc & Hh). rewrite Es.
      unfold onAnimationStart.
      destruct (negb _); [destruct (_ <? _)%Z|]; repeat split; assumption.
    + intros Hstart.
      destruct (requestWithdrawal_frame c) as (Es & Eg). rewrite Eg in Hstart.
      destruct (IH Hstart) as (Hs & Hsc & Hh). rewrite Es.
      unfold requestWithdrawal.
      destruct (jsnum_geb _ _); repeat split; assumption.
Qed.

Lemma X22_witness :
  RunnerGame.score
    (handle (KeyDown Space true)
       (handle (AnimationFrame (always 0)) (mount None 1200 800))) = 0%Z.
Proof.
  refine (proj1 (proj2 (X22_frozen_before_start
            (handle (KeyDown Space true)
               (handle (AnimationFrame (always 0)) (mount None 1200 800)))
            _ _))).
  - apply (reach_step (KeyDown Space true)); [|exact I].
    apply (reach_step (AnimationFrame (always 0))); [apply reach_mount|].
    apply always_unit; [discriminate | reflexivity].
  - reflexivity.
Defined.

(** * Saving and loading the balance *)

Lemma digitsValue_snoc ds c :
  digitsValue (ds ++ [c]) = (digitsValue ds * 10 + (Z.of_N c - 48))%Z.
Proof. unfold digitsValue. now rewrite fold_left_app. Qed.

Lemma digit_char d :
  (0 <= d <= 9)%Z ->
  isDigit (Z.to_N (48 + d)) = true /\ (Z.of_N (Z.to_N (48 + d)) - 48 = d)%Z.
Proof.
  intros H.
  assert (E : (d = 0 \/ d = 1 \/ d = 2 \/ d = 3 \/ d = 4 \/ d = 5 \/ d = 6
               \/ d = 7 \/ d = 8 \/ d = 9)%Z) by lia.
  repeat (destruct E as [-> | E]; [split; reflexivity|]).
  subst. split; reflexivity.
Qed.

Lemma digitsLoop_spec fuel :
  forall n acc,
    (0 <= n < 10 ^ Z.of_nat fuel)%Z -> (1 <= fuel)%nat ->
    exists ds,
      digitsLoop fuel n acc = ds ++ acc
      /\ ds <> []
      /\ forallb isDigit ds = true
      /\ digitsValue ds = n.
Proof.
  induction fuel as [|fuel IH]; intros n acc Hn Hf; [lia|].
  cbn [digitsLoop]. cbv zeta.
  assert (Hd : (0 <= n mod 10 <= 9)%Z)
    by (pose proof (Z.mod_pos_bound n 10); lia).
  destruct (digit_char _ Hd) as [Hdig Hval].
  destruct (Z.ltb_spec n 10) as [Hlt | Hge].
  - exists [Z.to_N (48 + n mod 10)]. split; [reflexivity|].
    split; [discriminate|]. split; [cbn [forallb]; now rewrite Hdig|].
    unfold digitsValue. cbn [fold_left]. rewrite Hval.
    rewrite Z.mod_small by lia. lia.
  - destruct fuel as [|fuel].
    { cbn in Hn. lia. }
    destruct (IH (n / 10)%Z (Z.to_N (48 + n mod 10) :: acc)) as
      (ds & E & Hne & Hall & Hv).
    { rewrite Nat2Z.inj_succ, Z.pow_succ_r in Hn by lia.
      split; [apply Z.div_pos; lia|].
      apply Z.div_lt_upper_bound; lia. }
    { lia. }
    exists (ds ++ [Z.to_N (48 + n mod 10)]).
    rewrite E, <- app_assoc. split; [reflexivity|].
    split; [destruct ds; discriminate|].
    split; [rewrite forallb_app, Hall; cbn [forallb]; now rewrite Hdig|].
    rewrite digitsValue_snoc, Hv, Hval.
    pose proof (Z.div_mod n 10). lia.
Qed.

Lemma parseInt10_digits ds :
  ds <> [] -> forallb isDigit ds = true ->
  parseInt10 ds = Num (digitsValue ds)
  /\ parseInt10 (45%N :: ds) = Num (- digitsValue ds).
Proof.
  intros Hne Hall. split.
  - assert (He : encodesInteger ds = true).
    { unfold encodesInteger. destruct ds as [|c r]; [now contradiction Hne|].
      pose proof Hall as [Hc _]%andb_true_iff.
      destruct (N.eqb_spec c 45) as [-> | _]; [discriminate Hc | exact Hall]. }
    rewrite parseInt10_run.
    destruct (encoded_parts ds He) as (-> & -> & Hbody).
    destruct ds as [|c r]; [now contradiction Hne|].
    pose proof Hall as [Hc _]%andb_true_iff.
    unfold unsignedPart, signOf.
    destruct (N.eqb_spec c 45) as [-> | _]; [discriminate Hc|].
    destruct (N.eqb_spec c 43) as [-> | _]; [discriminate Hc|].
    cbn [orb]. f_equal; lia.
  - assert (He : encodesInteger (45%N :: ds) = true).
    { unfold encodesInteger. cbn [N.eqb Pos.eqb].
      destruct ds; [now contradiction Hne | exact Hall]. }
    rewrite parseInt10_run.
    destruct (encoded_parts _ He) as (-> & -> & Hbody).
    unfold unsignedPart, signOf. cbn [N.eqb Pos.eqb orb].
    destruct ds as [|c r]; [now contradiction Hne|]. f_equal; lia.
Qed.

(** X23. What is saved is what is loaded.  For [NaN] and for every integer
    balance of magnitude up to 2^53, loading the string the save effect
    stores gives the balance back; in particular a [NaN] balance is stored
    as "NaN" and comes back as [NaN] on the next visit. *)
Theorem X23_save_then_load balance initial :
  match balance with
  | NaN => True
  | Num z => (Z.abs z <= 2 ^ 53)%Z
  end ->
  loadBalance (saveBalance balance) initial = balance.
Proof.
  destruct balance as [|z]; [reflexivity|]. intros Hz.
  unfold saveBalance, jsnum_toString.
  assert (Hpow : (2 ^ 53 < 10 ^ Z.of_nat 22)%Z) by reflexivity.
  destruct (Z.ltb_spec z 0) as [Hneg | Hpos].
  - destruct (digitsLoop_spec 22 (- z) []) as (ds & -> & Hne & Hall & Hv);
      [lia | lia |].
    rewrite app_nil_r. cbn [loadBalance].
    rewrite (proj2 (parseInt10_digits ds Hne Hall)), Hv. f_equal. lia.
  - destruct (digitsLoop_spec 22 z []) as (ds & -> & Hne & Hall & Hv);
      [lia | lia |].
    rewrite app_nil_r. destruct ds as [|c r] eqn:E; [now contradiction Hne|].
    cbn [loadBalance]. rewrite <- E in *.
    now rewrite (proj1 (parseInt10_digits ds Hne Hall)), Hv.
Qed.

Lemma X23_witness :
  loadBalance (saveBalance (Num 1234)) (Num 0) = Num 1234.
Proof.
  refine (X23_save_then_load (Num 1234) (Num 0) _).
  cbn. lia.
Defined.
